(** * VSPCA: the flux-combination pipeline, the phase analyzer and the run header

    A shallow embedding of [SpectraBuilder.py], [VSPEC/analysis.py] and the
    [Header] class of [VSPEC/params/read.py], followed by the properties
    established about them.

    Numbers.  Python floats are idealised: phases, wavelengths and the fluxes of
    the pipeline are exact rationals in canonical form ([Qc]), so that every
    definition of the pipeline evaluates; the flux arrays of the analyzer are
    real numbers ([R]) because [combine] takes square roots.  Rounding error,
    [nan] and [inf] are therefore outside the model.  In particular the exact
    [x % 360] is below 360, where the remainder of floats can round up to
    360.0 for a tiny negative [x]: the ranges stated for unrounded phases are
    closed at 360.

    Files.  A file is modelled by its parsed content, and the pipeline runs in
    a state-and-exception monad over the file store, the chronological trace
    of reads and writes, and the mutable model container [allModels].
    Console output is not modelled. *)

From Stdlib Require Import ZArith QArith Qcanon Qround Reals Lra Lia List.
From Stdlib Require Import String Ascii DecimalString.
From Stdlib Require Lqa DecimalNat.
From stdpp Require Import gmap strings list.
Import ListNotations.

(** ** Python numbers *)

Module Py.

Local Open Scope Qc_scope.

Definition of_Z (z : Z) : Qc := Q2Qc (inject_Z z).
Definition of_nat (n : nat) : Qc := of_Z (Z.of_nat n).

Definition floor (x : Qc) : Z := Qfloor x.

(** [x % m] for a positive modulus: the result carries the sign of [m].
    This is the exact remainder; the remainder of floats is its rounding. *)
Definition mod_ (x m : Qc) : Qc := x - m * of_Z (floor (x / m)).

(** Round half to even, the rule of [round] and of the [f] format. *)
Definition round_half_even (x : Qc) : Z :=
  let f := floor x in
  match Qccompare (x - of_Z f) (Q2Qc (1 # 2)) with
  | Lt => f
  | Gt => (f + 1)%Z
  | Eq => if Z.even f then f else (f + 1)%Z
  end.

Definition pow10 (ndigits : nat) : Qc := of_Z (10 ^ Z.of_nat ndigits).

(** [round(x, ndigits)] *)
Definition round (x : Qc) (ndigits : nat) : Qc :=
  of_Z (round_half_even (x * pow10 ndigits)) / pow10 ndigits.

(** [str(n)] for a non-negative integer. *)
Definition str_nat (n : nat) : string := NilEmpty.string_of_uint (Nat.to_uint n).

(** The three fractional digits of the [.3f] format. *)
Definition pad3 (n : nat) : string :=
  let s := str_nat n in
  match String.length s with
  | 1%nat => "00" +:+ s
  | 2%nat => "0" +:+ s
  | _ => s
  end.

(** [f'{x:.3f}'].  A negative value that rounds to zero prints without its
    sign here; phases are reduced modulo 360 and never negative. *)
Definition format_3f (x : Qc) : string :=
  let n := round_half_even (x * pow10 3) in
  let a := Z.abs n in
  (if (n <? 0)%Z then "-" else "") +:+
  str_nat (Z.to_nat (a / 1000)) +:+ "." +:+ pad3 (Z.to_nat (a mod 1000)).

End Py.

(** Integer literals of the source, as rationals. *)
Abbreviation num := Py.of_Z.

(** ** Exceptions *)

Inductive Exn :=
| ValueError (msg : string)
| KeyError (key : string)
| AttributeError (name : string)
| FileNotFoundError (path : list string)
| ParserError (path : list string)
| TypeError (msg : string)
| IndexError
| UnitConversionError
| InvalidIndexError.

(** ** Tables: the part of pandas and numpy the pipeline uses *)

Module Pandas.

Local Open Scope Qc_scope.

(** A frame is the ordered list of its named columns; its index is the
    default range index, so a column is the list of its values. *)
Abbreviation DataFrame := (list (string * list Qc)).

(** [df.name] *)
Fixpoint get_column (name : string) (df : DataFrame) : option (list Qc) :=
  match df with
  | [] => None
  | (c, v) :: rest => if decide (c = name) then Some v else get_column name rest
  end.

(** [df[name] = values]: an existing column is replaced where it stands, a
    new one is appended on the right. *)
Fixpoint set_column (name : string) (values : list Qc) (df : DataFrame) : DataFrame :=
  match df with
  | [] => [(name, values)]
  | (c, v) :: rest =>
      if decide (c = name) then (c, values) :: rest
      else (c, v) :: set_column name values rest
  end.

(** [series * scalar] *)
Definition scale (s : list Qc) (c : Qc) : list Qc := map (fun x => x * c) s.

(** [series + series], both taken from one frame and so on one index. *)
Definition add (a b : list Qc) : list Qc := zip_with Qcplus a b.

(** Elementwise operation on arrays; shapes have to agree.  Broadcasting of
    a one-element array is not modelled. *)
Definition elementwise (f : Qc -> Qc -> Qc) (a b : list Qc) : Exn + list Qc :=
  if decide (length a = length b) then inr (zip_with f a b)
  else inl (ValueError "operands could not be broadcast together").

(** [a == b] on two series: they must carry the same index. *)
Definition series_eq (a b : list Qc) : Exn + list bool :=
  if decide (length a = length b)
  then inr (zip_with (fun x y => bool_decide (x = y)) a b)
  else inl (ValueError "Can only compare identically-labeled Series objects").

(** [np.all] *)
Definition np_all (l : list bool) : bool := forallb (fun b => b) l.

Definition Qcabs (x : Qc) : Qc := if Qclt_le_dec x (Q2Qc 0) then - x else x.

End Pandas.

(** ** Files, the model container and the pipeline monad *)

Module SpectraBuilder.

Local Open Scope Qc_scope.
Import Pandas.

Abbreviation Path := (list string).

(** A coverage record [{'phot': _, 'spot': _, 'fac': _}] after
    [ast.literal_eval]. *)
Abbreviation Coverage := (gmap string Qc).

(** Parsed file contents.  Rows keep the columns of one table at one length. *)
Inductive File :=
| StellarModelFile (rows : list (Qc * Qc))
    (* wavelength, flux *)
| CoverageFile (rows : list (Qc * Coverage))
    (* float(row[0]), ast.literal_eval(row[1]) *)
| ReflectionFile (rows : list (Qc * Qc * Qc * Qc))
    (* wavelength, total, stellar, planet *)
| ThermalFile (rows : list (Qc * Qc * Qc))
    (* wavelength, total, planet *)
| FrameFile (df : DataFrame).
    (* written by to_csv *)

Inductive Event :=
| EvRead (p : Path)
| EvWrite (p : Path) (content : File).

(** [read_info.ParamModel()]: the fields the pipeline reads. *)
Record ParamModel := {
  starName : string;
  teffStar : string;
  teffSpot : string;
  teffFac : string;
  erg_sTOwatts : Qc;
  cm2TOm2 : Qc;
  cmTOum : Qc;
  distanceFluxCorrection : Qc;
  total_images : nat;
  phase1 : Qc;
  delta_phase_planet : Qc;
  delta_phase_star : Qc
}.

(** [allModels]: attributes are attached as the script runs; one that has
    not been assigned yet is an empty table or zero. *)
Record Models := {
  photModel : list (Qc * Qc);
  spotModel : list (Qc * Qc);
  facModel : list (Qc * Qc);
  allModelSpectra : DataFrame;
  planetPhase : Qc;
  starPhase : Qc;
  starPhaseFacingPlanet : Qc;
  PSGplanetReflectionModel : list (Qc * Qc * Qc * Qc);
  planetThermalModel : list (Qc * Qc * Qc)
}.

Definition ReadStarModels : Models :=
  {| photModel := []; spotModel := []; facModel := []; allModelSpectra := [];
     planetPhase := Q2Qc 0; starPhase := Q2Qc 0; starPhaseFacingPlanet := Q2Qc 0;
     PSGplanetReflectionModel := []; planetThermalModel := [] |}.

Record World := {
  files : gmap Path File;
  trace : list Event;
  allModels : Models
}.

Definition initial (fs : gmap Path File) : World :=
  {| files := fs; trace := []; allModels := ReadStarModels |}.

(** State that survives an exception: what was written stays written. *)
Definition M (A : Type) : Type := World -> (Exn + A) * World.

Definition ret {A} (x : A) : M A := fun w => (inr x, w).

Definition bind {A B} (c : M A) (k : A -> M B) : M B :=
  fun w => match c w with
           | (inl e, w') => (inl e, w')
           | (inr x, w') => k x w'
           end.

Definition raise {A} (e : Exn) : M A := fun w => (inl e, w).

Definition lift {A} (r : Exn + A) : M A := fun w => (r, w).

Notation "x <- c ;; k" := (bind c (fun x => k))
  (at level 100, c at next level, k at level 200, right associativity).
Notation "c ;; k" := (bind c (fun _ => k))
  (at level 100, k at level 200, right associativity).

Definition get_models : M Models := fun w => (inr (allModels w), w).

Definition modify (f : Models -> Models) : M unit :=
  fun w => (inr tt, {| files := files w; trace := trace w; allModels := f (allModels w) |}).

Definition log (e : Event) (w : World) : World :=
  {| files := files w; trace := trace w ++ [e]; allModels := allModels w |}.

Definition read_file (p : Path) : M File :=
  fun w => match files w !! p with
           | Some f => (inr f, log (EvRead p) w)
           | None => (inl (FileNotFoundError p), log (EvRead p) w)
           end.

Definition write_file (p : Path) (f : File) : M unit :=
  fun w => (inr tt, {| files := <[p := f]> (files w);
                       trace := trace w ++ [EvWrite p f];
                       allModels := allModels w |}).

(** [for x in l: body(x)] *)
Fixpoint for_each {A} (l : list A) (body : A -> M unit) : M unit :=
  match l with
  | [] => ret tt
  | x :: rest => body x ;; for_each rest body
  end.

(** Attribute assignments on [allModels]. *)
Definition set_photModel v (m : Models) : Models :=
  {| photModel := v; spotModel := spotModel m; facModel := facModel m;
     allModelSpectra := allModelSpectra m; planetPhase := planetPhase m;
     starPhase := starPhase m; starPhaseFacingPlanet := starPhaseFacingPlanet m;
     PSGplanetReflectionModel := PSGplanetReflectionModel m;
     planetThermalModel := planetThermalModel m |}.
Definition set_spotModel v (m : Models) : Models :=
  {| photModel := photModel m; spotModel := v; facModel := facModel m;
     allModelSpectra := allModelSpectra m; planetPhase := planetPhase m;
     starPhase := starPhase m; starPhaseFacingPlanet := starPhaseFacingPlanet m;
     PSGplanetReflectionModel := PSGplanetReflectionModel m;
     planetThermalModel := planetThermalModel m |}.
Definition set_facModel v (m : Models) : Models :=
  {| photModel := photModel m; spotModel := spotModel m; facModel := v;
     allModelSpectra := allModelSpectra m; planetPhase := planetPhase m;
     starPhase := starPhase m; starPhaseFacingPlanet := starPhaseFacingPlanet m;
     PSGplanetReflectionModel := PSGplanetReflectionModel m;
     planetThermalModel := planetThermalModel m |}.
Definition set_allModelSpectra v (m : Models) : Models :=
  {| photModel := photModel m; spotModel := spotModel m; facModel := facModel m;
     allModelSpectra := v; planetPhase := planetPhase m;
     starPhase := starPhase m; starPhaseFacingPlanet := starPhaseFacingPlanet m;
     PSGplanetReflectionModel := PSGplanetReflectionModel m;
     planetThermalModel := planetThermalModel m |}.
Definition set_planetPhase v (m : Models) : Models :=
  {| photModel := photModel m; spotModel := spotModel m; facModel := facModel m;
     allModelSpectra := allModelSpectra m; planetPhase := v;
     starPhase := starPhase m; starPhaseFacingPlanet := starPhaseFacingPlanet m;
     PSGplanetReflectionModel := PSGplanetReflectionModel m;
     planetThermalModel := planetThermalModel m |}.
Definition set_starPhase v (m : Models) : Models :=
  {| photModel := photModel m; spotModel := spotModel m; facModel := facModel m;
     allModelSpectra := allModelSpectra m; planetPhase := planetPhase m;
     starPhase := v; starPhaseFacingPlanet := starPhaseFacingPlanet m;
     PSGplanetReflectionModel := PSGplanetReflectionModel m;
     planetThermalModel := planetThermalModel m |}.
Definition set_starPhaseFacingPlanet v (m : Models) : Models :=
  {| photModel := photModel m; spotModel := spotModel m; facModel := facModel m;
     allModelSpectra := allModelSpectra m; planetPhase := planetPhase m;
     starPhase := starPhase m; starPhaseFacingPlanet := v;
     PSGplanetReflectionModel := PSGplanetReflectionModel m;
     planetThermalModel := planetThermalModel m |}.
Definition set_PSGplanetReflectionModel v (m : Models) : Models :=
  {| photModel := photModel m; spotModel := spotModel m; facModel := facModel m;
     allModelSpectra := allModelSpectra m; planetPhase := planetPhase m;
     starPhase := starPhase m; starPhaseFacingPlanet := starPhaseFacingPlanet m;
     PSGplanetReflectionModel := v;
     planetThermalModel := planetThermalModel m |}.
Definition set_planetThermalModel v (m : Models) : Models :=
  {| photModel := photModel m; spotModel := spotModel m; facModel := facModel m;
     allModelSpectra := allModelSpectra m; planetPhase := planetPhase m;
     starPhase := starPhase m; starPhaseFacingPlanet := starPhaseFacingPlanet m;
     PSGplanetReflectionModel := PSGplanetReflectionModel m;
     planetThermalModel := v |}.

(** *** Paths, as sequences of components below the working directory *)

Definition binned_path (teff : string) : Path :=
  ["NextGenModels"; "BinnedData"; "binned" +:+ teff +:+ "StellarModel.txt"].

Definition coverage_path (P : ParamModel) : Path :=
  [starName P; "Data"; "SurfaceCoveragePercentage"; "surfaceCoveragePercentageDict.csv"].

Definition reflection_path (P : ParamModel) (phase : Qc) : Path :=
  [starName P; "Data"; "PSGCombinedSpectra"; "phase" +:+ Py.format_3f phase +:+ ".txt"].

Definition thermal_path (P : ParamModel) (phase : Qc) : Path :=
  [starName P; "Data"; "PSGThermalSpectra"; "phase" +:+ Py.format_3f phase +:+ ".txt"].

Definition output_path (P : ParamModel) (index : nat) : Path :=
  [starName P; "Data"; "AllModelSpectraValues"; "phase" +:+ Py.str_nat index +:+ ".csv"].

(** *** Readers: [pd.read_csv] and [csv.reader] on the four kinds of input *)

Definition read_stellar_model (p : Path) : M (list (Qc * Qc)) :=
  f <- read_file p ;;
  match f with
  | StellarModelFile rows => ret rows
  | _ => raise (ParserError p)
  end.

Definition read_coverage (p : Path) : M (list (Qc * Coverage)) :=
  f <- read_file p ;;
  match f with
  | CoverageFile rows => ret rows
  | _ => raise (ParserError p)
  end.

Definition read_reflection (p : Path) : M (list (Qc * Qc * Qc * Qc)) :=
  f <- read_file p ;;
  match f with
  | ReflectionFile rows => ret rows
  | _ => raise (ParserError p)
  end.

Definition read_thermal (p : Path) : M (list (Qc * Qc * Qc)) :=
  f <- read_file p ;;
  match f with
  | ThermalFile rows => ret rows
  | _ => raise (ParserError p)
  end.

(** Column projections of the input tables. *)
Definition wavelength (t : list (Qc * Qc)) : list Qc := map fst t.
Definition flux (t : list (Qc * Qc)) : list Qc := map snd t.
Definition refl_stellar (t : list (Qc * Qc * Qc * Qc)) : list Qc := map (fun r => snd (fst r)) t.
Definition refl_planet (t : list (Qc * Qc * Qc * Qc)) : list Qc := map snd t.
Definition therm_planet (t : list (Qc * Qc * Qc)) : list Qc := map snd t.

(** [allModels.allModelSpectra.name] *)
Definition column (name : string) : M (list Qc) :=
  m <- get_models ;;
  match get_column name (allModelSpectra m) with
  | Some v => ret v
  | None => raise (AttributeError name)
  end.

(** [allModels.allModelSpectra[name] = values] *)
Definition assign_column (name : string) (values : list Qc) : M unit :=
  modify (fun m => set_allModelSpectra (set_column name values (allModelSpectra m)) m).

(** [d[key]] on a coverage record *)
Definition item (d : Coverage) (key : string) : M Qc :=
  match d !! key with
  | Some v => ret v
  | None => raise (KeyError key)
  end.

(** *** [calculate_combined_spectrum] *)

Definition calculate_combined_spectrum (Params : ParamModel)
    (percentagesDict percentagesDictTowardsPlanet : Coverage) (phase : nat) : M unit :=
  photFrac <- item percentagesDict "phot" ;;
  spotFrac <- item percentagesDict "spot" ;;
  facFrac <- item percentagesDict "fac" ;;
  photflux <- column "photflux" ;;
  spotflux <- column "spotflux" ;;
  facflux <- column "facflux" ;;
  assign_column "sumflux"
    (add (add (scale photflux photFrac) (scale spotflux spotFrac)) (scale facflux facFrac)) ;;
  photFracTowardsPlanet <- item percentagesDictTowardsPlanet "phot" ;;
  spotFracTowardsPlanet <- item percentagesDictTowardsPlanet "spot" ;;
  facFracTowardsPlanet <- item percentagesDictTowardsPlanet "fac" ;;
  photflux <- column "photflux" ;;
  spotflux <- column "spotflux" ;;
  facflux <- column "facflux" ;;
  assign_column "sumfluxTowardsPlanet"
    (add (add (scale photflux photFracTowardsPlanet) (scale spotflux spotFracTowardsPlanet))
         (scale facflux facFracTowardsPlanet)).

(** *** [calculate_planet_flux]

    Where the tables of the planet and the working table differ in length,
    the code fails inside this function with [ValueError], but not always at
    the statement where the model does: with planet tables longer than the
    working table pandas aligns the product of line 54 on the index, pads
    with [nan], assigns [planetReflection] at line 57 and raises at line 61.
    The model raises at the first mismatch and leaves the working table as
    it was, so the table after such a failure is not the one of the code. *)

Definition calculate_planet_flux (phase : nat) : M unit :=
  m <- get_models ;;
  planetReflectionOnly <-
    lift (elementwise (fun a b => Qcabs (a - b))
            (refl_planet (PSGplanetReflectionModel m)) (therm_planet (planetThermalModel m))) ;;
  planetFluxFraction <-
    lift (elementwise Qcdiv planetReflectionOnly (refl_stellar (PSGplanetReflectionModel m))) ;;
  sumfluxTowardsPlanet <- column "sumfluxTowardsPlanet" ;;
  adjustedReflectionFlux <- lift (elementwise Qcmult planetFluxFraction sumfluxTowardsPlanet) ;;
  planetReflection <-
    lift (elementwise Qcplus adjustedReflectionFlux (therm_planet (planetThermalModel m))) ;;
  assign_column "planetReflection" planetReflection ;;
  assign_column "planetThermal" (therm_planet (planetThermalModel m)).

(** *** The script: start-up (lines 67 to 101) *)

Definition wavelength_error : string :=
  "The star, spot, and faculae spectra should be on the same wavelength scale, and currently are not.".

(** [if not np.all(a == b) or not np.all(a == c): raise ValueError(...)],
    with the short circuit of [or]. *)
Definition check_wavelengths (phot spot fac : list (Qc * Qc)) : M unit :=
  e1 <- lift (series_eq (wavelength phot) (wavelength spot)) ;;
  if negb (np_all e1) then raise (ValueError wavelength_error)
  else
    e2 <- lift (series_eq (wavelength phot) (wavelength fac)) ;;
    if negb (np_all e2) then raise (ValueError wavelength_error)
    else ret tt.

Definition conversion (Params : ParamModel) : Qc :=
  erg_sTOwatts Params * cm2TOm2 Params * cmTOum Params * distanceFluxCorrection Params.

(** [pd.DataFrame(data)] followed by the three in-place rescalings. *)
Definition base_table (Params : ParamModel) (phot spot fac : list (Qc * Qc)) : DataFrame :=
  [("wavelength", wavelength phot);
   ("photflux", scale (flux phot) (conversion Params));
   ("spotflux", scale (flux spot) (conversion Params));
   ("facflux", scale (flux fac) (conversion Params))].

(** The loop over [reader]: a later row with the same key replaces an
    earlier one. *)
Definition build_surfaceCoverageDict (rows : list (Qc * Coverage)) : gmap Qc Coverage :=
  fold_left (fun d row => <[fst row := snd row]> d) rows ∅.

Definition startup (Params : ParamModel) : M (gmap Qc Coverage) :=
  phot <- read_stellar_model (binned_path (teffStar Params)) ;;
  modify (set_photModel phot) ;;
  spot <- read_stellar_model (binned_path (teffSpot Params)) ;;
  modify (set_spotModel spot) ;;
  fac <- read_stellar_model (binned_path (teffFac Params)) ;;
  modify (set_facModel fac) ;;
  check_wavelengths phot spot fac ;;
  modify (set_allModelSpectra (base_table Params phot spot fac)) ;;
  rows <- read_coverage (coverage_path Params) ;;
  ret (build_surfaceCoverageDict rows).

(** *** The script: one exposure (lines 107 to 194) *)

(** Lines 115 to 164: the three phases, the two substitutions and the wrap. *)
Definition update_phases (Params : ParamModel) (index : nat) (m : Models) : Models :=
  let m := set_planetPhase
             (Py.mod_ (phase1 Params + delta_phase_planet Params * Py.of_nat index) (num 360)) m in
  let m := set_starPhase (Py.mod_ (delta_phase_star Params * Py.of_nat index) (num 360)) m in
  let m := set_starPhaseFacingPlanet
             (Py.mod_ (num 180 - starPhase m + planetPhase m) (num 360)) m in
  let m := if decide (planetPhase m = num 180) then set_planetPhase (num 182) m else m in
  let m := if decide (planetPhase m = num 185) then set_planetPhase (num 186) m else m in
  let m := if decide (starPhaseFacingPlanet m = Py.of_nat (total_images Params + 1))
           then set_starPhaseFacingPlanet (num 0) m else m in
  m.

(** Lines 184 to 187: the two keys into the coverage table. *)
Definition tempPhase (m : Models) : Qc :=
  Py.mod_ (Py.round (starPhase m) 3) (num 360).

Definition tempPhaseFacingPlanet (m : Models) : Qc :=
  let t := Py.round (starPhaseFacingPlanet m) 3 in
  if decide (t = num 360) then num 0 else t.

(** [surfaceCoverageDict[key]]; the key is shown with three decimals. *)
Definition coverage_at (surfaceCoverageDict : gmap Qc Coverage) (key : Qc) : M Coverage :=
  match surfaceCoverageDict !! key with
  | Some d => ret d
  | None => raise (KeyError (Py.format_3f key))
  end.

Definition exposure (Params : ParamModel) (surfaceCoverageDict : gmap Qc Coverage)
    (index : nat) : M unit :=
  modify (update_phases Params index) ;;
  m <- get_models ;;
  refl <- read_reflection (reflection_path Params (planetPhase m)) ;;
  modify (set_PSGplanetReflectionModel refl) ;;
  therm <- read_thermal (thermal_path Params (planetPhase m)) ;;
  modify (set_planetThermalModel therm) ;;
  percentagesDict <- coverage_at surfaceCoverageDict (tempPhase m) ;;
  percentagesDictTowardsPlanet <- coverage_at surfaceCoverageDict (tempPhaseFacingPlanet m) ;;
  calculate_combined_spectrum Params percentagesDict percentagesDictTowardsPlanet index ;;
  calculate_planet_flux index ;;
  m <- get_models ;;
  write_file (output_path Params index) (FrameFile (allModelSpectra m)).

(** *** The script *)

Definition main (Params : ParamModel) : M unit :=
  surfaceCoverageDict <- startup Params ;;
  for_each (seq 0 (total_images Params)) (exposure Params surfaceCoverageDict).

(** One run of the script on a file store. *)
Definition run (Params : ParamModel) (fs : gmap Path File) : (Exn + unit) * World :=
  main Params (initial fs).

(** What a run has written, in order. *)
Definition writes (t : list Event) : list (Path * File) :=
  flat_map (fun e => match e with EvWrite p f => [(p, f)] | EvRead _ => [] end) t.

End SpectraBuilder.

(** ** Python sequences *)

Module PySeq.

(** A slice bound against a sequence of length [len]: negative bounds count
    from the end, and both ends are clipped. *)
Definition clamp (i : Z) (len : nat) : nat :=
  if (i <? 0)%Z then Z.to_nat (Z.max 0 (i + Z.of_nat len)) else Nat.min (Z.to_nat i) len.

(** [l[start:stop]] *)
Definition slice {A} (start stop : Z) (l : list A) : list A :=
  let a := clamp start (length l) in
  let b := clamp stop (length l) in
  firstn (b - a) (skipn a l).

(** [l[i]]: [None] stands for the IndexError of an index out of range. *)
Definition index {A} (l : list A) (i : Z) : option A :=
  let n := Z.of_nat (length l) in
  if ((0 <=? i) && (i <? n))%Z then l !! Z.to_nat i
  else if ((- n <=? i) && (i <? 0))%Z then l !! Z.to_nat (i + n)
  else None.

End PySeq.

(** ** [VSPEC/analysis.py] *)

Module Analysis.

(** *** Units: the part of [astropy.units] that [PhaseAnalyzer] touches *)

Inductive Unit := u_s | u_deg | u_deg_C | u_flux | u_dimensionless.

Inductive PhysicalType := time_t | angle_t | temperature_t | flux_t | dimensionless_t.

Definition physical_type (u : Unit) : PhysicalType :=
  match u with
  | u_s => time_t
  | u_deg => angle_t
  | u_deg_C => temperature_t
  | u_flux => flux_t
  | u_dimensionless => dimensionless_t
  end.

Global Instance PhysicalType_eq_dec : EqDecision PhysicalType.
Proof. solve_decision. Defined.

Record Quantity := { value : Qc; unit : Unit }.

(** [x += y]: the right operand is converted to the unit of the left one,
    which astropy refuses between different physical types.  Every physical
    type above has a single unit, so a conversion that is allowed leaves the
    value as it is. *)
Definition iadd (x y : Quantity) : Exn + Quantity :=
  if decide (physical_type (unit y) = physical_type (unit x))
  then inr {| value := (value x + value y)%Qc; unit := unit x |}
  else inl UnitConversionError.

(** [360*u.deg_C] *)
Definition increment : Quantity := {| value := num 360; unit := u_deg_C |}.

(** [while prev > cur: cur += 360*u.deg_C].  [None] means that the fuel ran
    out before the loop ended. *)
Fixpoint catch_up (fuel : nat) (prev : Qc) (cur : Quantity) : option (Exn + Quantity) :=
  if Qclt_le_dec (value cur) prev then
    match fuel with
    | O => None
    | S fuel' =>
        match iadd cur increment with
        | inl e => Some (inl e)
        | inr cur' => catch_up fuel' prev cur'
        end
    end
  else Some (inr cur).

(** Iterations the loop can need when every step adds 360. *)
Definition steps (prev cur : Qc) : nat :=
  S (Z.to_nat (Py.floor ((prev - cur) / num 360)%Qc)).

(** [for i in range(len(up) - 1)], with [prev] the entry [up[i]] as the
    earlier iterations left it and [rest] the entries from [i+1] on. *)
Fixpoint unwrap (u : Unit) (prev : Qc) (rest : list Qc) : option (Exn + list Qc) :=
  match rest with
  | [] => Some (inr [])
  | x :: rest' =>
      match catch_up (steps prev x) prev {| value := x; unit := u |} with
      | None => None
      | Some (inl e) => Some (inl e)
      | Some (inr cur) =>
          match unwrap u (value cur) rest' with
          | None => None
          | Some (inl e) => Some (inl e)
          | Some (inr tail) => Some (inr (value cur :: tail))
          end
      end
  end.

(** Lines 25 to 31: [phase] is the column [phase[deg]] times [u.deg], and
    [unique_phase] starts as a deep copy of it.  A table without rows is read
    with columns of dtype [object], and [values * unit] on such a column
    raises [IndexError] before the loop is reached. *)
Definition compute_unique_phase (phase_deg : list Qc) : option (Exn + list Qc) :=
  match phase_deg with
  | [] => Some (inl IndexError)
  | x :: rest =>
      match unwrap u_deg x rest with
      | None => None
      | Some (inl e) => Some (inl e)
      | Some (inr tail) => Some (inr (x :: tail))
      end
  end.

(** A sequence of phases that never goes down. *)
Fixpoint nondecreasing (l : list Qc) : Prop :=
  match l with
  | x :: (y :: _) as rest => (x <= y)%Qc /\ nondecreasing rest
  | _ => True
  end.

(** *** The data set *)

Local Open Scope R_scope.

(** The five arrays have one row per spectral bin and [N_images] entries in
    each row; they hold values in the flux unit of the analyzer. *)
Record PhaseAnalyzer := {
  N_images : nat;
  time : list Qc;
  phase : list Qc;
  unique_phase : list Qc;
  wavelength : list R;
  star : list (list R);
  reflected : list (list R);
  thermal : list (list R);
  total : list (list R);
  noise : list (list R)
}.

Definition rectangular (a : PhaseAnalyzer) : Prop :=
  Forall (fun arr => Forall (fun row => length row = N_images a) arr)
         [star a; reflected a; thermal a; total a; noise a].

(** [getattr(self, source)] followed by a two-dimensional index.  Of the
    other attributes the constructor sets, the arrays with one axis refuse
    the second index, the integer [N_images] and the methods cannot be
    indexed at all, and the frame [observation_data] takes the index for a
    column label it cannot use.  The special attributes that every Python
    object carries are not modelled. *)
Definition getattr (a : PhaseAnalyzer) (source : string) : Exn + list (list R) :=
  if decide (source = "star") then inr (star a)
  else if decide (source = "reflected") then inr (reflected a)
  else if decide (source = "thermal") then inr (thermal a)
  else if decide (source = "total") then inr (total a)
  else if decide (source = "noise") then inr (noise a)
  else if bool_decide (source ∈ ["time"; "phase"; "unique_phase"; "wavelength"])
  then inl IndexError
  else if bool_decide (source ∈ ["N_images"; "lightcurve"; "combine"; "__init__"])
  then inl (TypeError "object is not subscriptable")
  else if decide (source = "observation_data") then inl InvalidIndexError
  else inl (AttributeError source).

Definition sum (l : list R) : R := fold_right Rplus 0 l.
Definition mean (l : list R) : R := sum l / INR (length l).

(** [arr.mean(axis=0)] on an array with [n] columns. *)
Definition mean_axis0 (n : nat) (rows : list (list R)) : list R :=
  map (fun j => mean (map (fun row => nth j row 0) rows)) (seq 0 n).

(** [arr.max()] *)
Definition maximum (l : list R) : option R :=
  match l with
  | [] => None
  | x :: rest => Some (fold_left Rmax rest x)
  end.

(** A result and its unit. *)
Record Series := { values : list R; series_unit : Unit }.

Inductive Pixel := PixelInt (k : Z) | PixelRange (start stop : Z).
Inductive Normalize := NormInt (n : Z) | NormStr (s : string).

(** Modelled from the spec: [VSPEC.helpers.to_float], which is imported but
    not part of the sources at hand.  It converts a quantity to the unit it
    is given and returns the bare numbers; the quotient of two fluxes is
    dimensionless already, so its numbers are returned as they are. *)
Definition to_float (y : list R) : Series :=
  {| values := y; series_unit := u_dimensionless |}.

Section Noise.

(** [np.random.normal(scale=...)]: the draw for a row of scales. *)
Variable normal : list R -> list R.

Definition add_noise (y scale : list R) : list R := zip_with Rplus y (normal scale).

Definition lightcurve (a : PhaseAnalyzer) (source : string) (pixel : Pixel)
    (normalize : Normalize) (noise_flag : bool) : Exn + Series :=
  match getattr a source with
  | inl e => inl e
  | inr arr =>
      let selected : Exn + list R :=
        match pixel with
        | PixelInt k =>
            match PySeq.index arr k with
            | None => inl IndexError
            | Some y =>
                if noise_flag then
                  match PySeq.index (noise a) k with
                  | None => inl IndexError
                  | Some scale => inr (add_noise y scale)
                  end
                else inr y
            end
        | PixelRange start stop =>
            let y := PySeq.slice start stop arr in
            let y := if noise_flag
                     then zip_with add_noise y (PySeq.slice start stop (noise a))
                     else y in
            inr (mean_axis0 (N_images a) y)
        end in
      match selected with
      | inl e => inl e
      | inr y =>
          match normalize with
          | NormInt n =>
              match PySeq.index y n with
              | None => inl IndexError
              | Some y_n => inr (to_float (map (fun v => v / y_n) y))
              end
          | NormStr s =>
              if decide (s = "max") then
                match maximum y with
                | None => inl (ValueError "zero-size array to reduction operation maximum")
                | Some top => inr (to_float (map (fun v => v / top) y))
                end
              else inr {| values := y; series_unit := u_flux |}
          end
      end
  end.

Definition combine (a : PhaseAnalyzer) (source : string) (images : Z * Z)
    (noise_flag : bool) : Exn + list R :=
  let '(start, stop) := images in
  if decide (source = "noise") then
    let y := map (fun row => map (fun v => v ^ 2) (PySeq.slice start stop row)) (noise a) in
    let N_images := length (PySeq.slice start stop (seq 0 (N_images a))) in
    inr (map (fun row => sqrt (sum row / INR N_images ^ 2)) y)
  else
    match getattr a source with
    | inl e => inl e
    | inr arr =>
        let y := map (PySeq.slice start stop) arr in
        let y := if noise_flag
                 then zip_with add_noise y (map (PySeq.slice start stop) (noise a))
                 else y in
        inr (map mean y)
    end.

End Noise.

End Analysis.

(** ** [VSPEC/params/read.py]: the [Header] class *)

Module Read.

(** The Python values a parsed configuration holds, and the results of the
    two constructors [_from_dict] applies to them: [Path(v)] and
    [u.Quantity(v)] are kept as wrapped values. *)
Inductive PyVal :=
| PNone
| PBool (b : bool)
| PInt (z : Z)
| PStr (s : string)
| PPath (v : PyVal)
| PQuantity (v : PyVal).

(** [int(v)].  Of a string, the decimal numerals with an optional minus sign
    are read; the other spellings Python accepts (blanks around the numeral,
    a plus sign, underscores between digits) are refused here. *)
Definition py_int (v : PyVal) : Exn + Z :=
  match v with
  | PInt z => inr z
  | PBool b => inr (if b then 1 else 0)%Z
  | PStr s =>
      match NilZero.int_of_string s with
      | Some d => inr (Z.of_int d)
      | None => inl (ValueError "invalid literal for int() with base 10")
      end
  | _ => inl (TypeError "int() argument must be a string, a bytes-like object or a real number")
  end.

Definition str_Z (z : Z) : string := NilZero.string_of_int (Z.to_int z).

(** [str(v)] *)
Fixpoint py_str (v : PyVal) : string :=
  match v with
  | PNone => "None"
  | PBool b => if b then "True" else "False"
  | PInt z => str_Z z
  | PStr s => s
  | PPath v' => py_str v'
  | PQuantity v' => py_str v'
  end.

(** A parameter of a signature: its name and its default, if it has one. *)
Abbreviation Signature := (list (string * option PyVal)).

(** Binding of the arguments of a call to the parameters of a signature:
    positional arguments first, then keywords, then defaults. *)
Fixpoint bind_parameters (sig : Signature) (args : list PyVal) (kwargs : gmap string PyVal)
    : Exn + list PyVal :=
  match sig with
  | [] =>
      match args with
      | [] => inr []
      | _ :: _ => inl (TypeError "too many positional arguments")
      end
  | (name, default) :: sig' =>
      match args with
      | a :: args' =>
          match kwargs !! name with
          | Some _ => inl (TypeError ("got multiple values for argument " +:+ name))
          | None =>
              match bind_parameters sig' args' kwargs with
              | inl e => inl e
              | inr vs => inr (a :: vs)
              end
          end
      | [] =>
          match kwargs !! name, default with
          | Some v, _ | None, Some v =>
              match bind_parameters sig' [] kwargs with
              | inl e => inl e
              | inr vs => inr (v :: vs)
              end
          | None, None => inl (TypeError ("missing required argument: " +:+ name))
          end
      end
  end.

(** A call with positional and keyword arguments: a keyword that names no
    parameter is refused. *)
Definition call (sig : Signature) (args : list PyVal) (kwargs : gmap string PyVal)
    : Exn + list PyVal :=
  if bool_decide (dom kwargs ⊆ list_to_set (map fst sig))
  then bind_parameters sig args kwargs
  else inl (TypeError "got an unexpected keyword argument").

Record Header := {
  data_path : PyVal;
  teff_min : PyVal;
  teff_max : PyVal;
  seed : PyVal;
  desc : PyVal
}.

(** The parameters of [Header.__init__] after [self] (lines 45 to 52). *)
Definition Header_signature : Signature :=
  [("data_path", None); ("teff_min", None); ("teff_max", None);
   ("seed", None); ("desc", Some PNone)].

(** A call of the class, [Header(...)]. *)
Definition Header_init (args : list PyVal) (kwargs : gmap string PyVal) : Exn + Header :=
  match call Header_signature args kwargs with
  | inl e => inl e
  | inr [a; b; c; d; e] =>
      inr {| data_path := a; teff_min := b; teff_max := c; seed := d; desc := e |}
  | inr _ => inl (TypeError "wrong number of bound parameters")
  end.

(** [d[key]] *)
Definition getitem (d : gmap string PyVal) (key : string) : Exn + PyVal :=
  match d !! key with
  | Some v => inr v
  | None => inl (KeyError key)
  end.

(** [d.get(key, None)] *)
Definition get (d : gmap string PyVal) (key : string) : PyVal := default PNone (d !! key).

(** [Path(v)]: a string or a path; anything else is refused with
    [TypeError].  The message of Python goes on to name the type of the
    value, in words that vary with the version; its stem is kept here. *)
Definition py_Path (v : PyVal) : Exn + PyVal :=
  match v with
  | PStr _ | PPath _ => inr (PPath v)
  | _ => inl (TypeError "expected str, bytes or os.PathLike object")
  end.

Section Quantities.

(** What [u.Quantity] makes of a string is astropy's business: the
    exception it raises on the string, [TypeError] where the string does not
    start with a number and [ValueError] where the rest is no unit, or
    [None] where it reads the string. *)
Variable quantity_error : string -> option Exn.

(** [u.Quantity(v)]: a number, a quantity, or a string that astropy reads;
    [None] and paths are refused with [TypeError]. *)
Definition py_Quantity (v : PyVal) : Exn + PyVal :=
  match v with
  | PInt _ | PBool _ | PQuantity _ => inr (PQuantity v)
  | PStr s =>
      match quantity_error s with
      | None => inr (PQuantity v)
      | Some e => inl e
      end
  | PNone | PPath _ =>
      inl (TypeError "The value must be a valid Python or Numpy numeric type.")
  end.

(** [Header._from_dict(d)] (lines 59 to 66): the keyword arguments are
    evaluated from left to right, each key being read and converted before
    the next key is looked at. *)
Definition _from_dict (d : gmap string PyVal) : Exn + Header :=
  match getitem d "data_path" with
  | inl e => inl e
  | inr p =>
  match py_Path p with
  | inl e => inl e
  | inr data_path_v =>
  match getitem d "teff_min" with
  | inl e => inl e
  | inr tmin =>
  match py_Quantity tmin with
  | inl e => inl e
  | inr teff_min_v =>
  match getitem d "teff_max" with
  | inl e => inl e
  | inr tmax =>
  match py_Quantity tmax with
  | inl e => inl e
  | inr teff_max_v =>
  match (match get d "seed" with
         | PNone => inr PNone
         | v => match py_int v with inl e => inl e | inr z => inr (PInt z) end
         end) with
  | inl e => inl e
  | inr seed_v =>
      let desc_v := match get d "desc" with PNone => PNone | v => PStr (py_str v) end in
      Header_init []
        (<["data_path" := data_path_v]> (<["teff_min" := teff_min_v]>
        (<["teff_max" := teff_max_v]> (<["seed" := seed_v]>
        (<["desc" := desc_v]> ∅)))))
  end end end end end end end.

End Quantities.

End Read.

(** ** Relations between worlds: what a step of the script may change *)

Module Invariants.

Import Pandas SpectraBuilder.
Local Open Scope Qc_scope.

(** The working table of a world. *)
Abbreviation table w := (allModelSpectra (allModels w)).

(** The world after [allModels.allModelSpectra[name] = values]. *)
Definition with_column (name : string) (values : list Qc) (w : World) : World :=
  {| files := files w; trace := trace w;
     allModels := set_allModelSpectra (set_column name values (table w)) (allModels w) |}.

(** The world with another model container. *)
Definition with_models (m : Models) (w : World) : World :=
  {| files := files w; trace := trace w; allModels := m |}.

(** The columns set at start-up. *)
Definition static_columns : list string := ["wavelength"; "photflux"; "spotflux"; "facflux"].

(** The second world has the static columns of the first. *)
Definition static_kept (w w' : World) : Prop :=
  forall name, name ∈ static_columns ->
    get_column name (table w') = get_column name (table w).

(** A step that touches neither the files nor the trace, the phases or the
    static columns. *)
Definition quiet (w w' : World) : Prop :=
  files w' = files w /\ trace w' = trace w /\
  planetPhase (allModels w') = planetPhase (allModels w) /\
  starPhase (allModels w') = starPhase (allModels w) /\
  starPhaseFacingPlanet (allModels w') = starPhaseFacingPlanet (allModels w) /\
  static_kept w w'.

(** Every run of [c] relates the world before to the world after. *)
Definition preserves {A} (R : relation World) (c : M A) : Prop :=
  forall w, R w (snd (c w)).

(** Steps that only read. *)
Definition reads_only (w w' : World) : Prop :=
  files w' = files w /\ exists evs, trace w' = trace w ++ evs /\ writes evs = [].

(** The file store after a sequence of writes. *)
Definition apply_writes (ws : list (Path * File)) (fs : gmap Path File) : gmap Path File :=
  fold_left (fun m pf => <[fst pf := snd pf]> m) ws fs.

(** The loop: every table written carries the static columns the working
    table had when the loop was entered. *)
Definition carries_static (base : DataFrame) (Params : ParamModel) (pf : Path * File) : Prop :=
  exists i df, fst pf = output_path Params i /\ snd pf = FrameFile df /\
    forall name, name ∈ static_columns -> get_column name df = get_column name base.

(** What the loop may do: write output tables that carry the static
    columns, and nothing else to the files. *)
Definition progress (Params : ParamModel) (w w' : World) : Prop :=
  static_kept w w' /\
  exists evs, trace w' = trace w ++ evs /\
    files w' = apply_writes (writes evs) (files w) /\
    Forall (carries_static (table w) Params) (writes evs).

(** A path the script reads from: none of its output paths. *)
Definition input_path (Params : ParamModel) (p : Path) : Prop :=
  forall i, p <> output_path Params i.

(** Two worlds that differ at most in the output files. *)
Definition alike (Params : ParamModel) (w1 w2 : World) : Prop :=
  trace w1 = trace w2 /\ allModels w1 = allModels w2 /\
  forall p, input_path Params p -> files w1 !! p = files w2 !! p.

(** Run on two worlds that are alike, [c] returns the same and leaves them
    alike. *)
Definition respects {A} (Params : ParamModel) (c : M A) : Prop :=
  forall w1 w2, alike Params w1 w2 ->
    fst (c w1) = fst (c w2) /\ alike Params (snd (c w1)) (snd (c w2)).

End Invariants.

(** ** Concrete inputs *)

Module Examples.

Import Pandas SpectraBuilder Analysis Read.
Local Open Scope Qc_scope.

Definition tenths (n : Z) : Qc := Q2Qc (n # 10).

Definition coverage (p s f : Z) : Coverage :=
  <["phot" := tenths p]> (<["spot" := tenths s]> (<["fac" := tenths f]> ∅)).

(** One exposure, with the planet starting at phase 180. *)
Definition params : ParamModel :=
  {| starName := "star"; teffStar := "3000"; teffSpot := "2600"; teffFac := "3100";
     erg_sTOwatts := num 1; cm2TOm2 := num 2; cmTOum := num 1;
     distanceFluxCorrection := num 1; total_images := 1;
     phase1 := num 180; delta_phase_planet := num 5; delta_phase_star := num 10 |}.

(** Two exposures, with the planet starting at phase 183: the star phase
    facing the planet comes out as 3, one more than the number of exposures. *)
Definition wrap_params : ParamModel :=
  {| starName := "star"; teffStar := "3000"; teffSpot := "2600"; teffFac := "3100";
     erg_sTOwatts := num 1; cm2TOm2 := num 2; cmTOum := num 1;
     distanceFluxCorrection := num 1; total_images := 2;
     phase1 := num 183; delta_phase_planet := num 5; delta_phase_star := num 10 |}.

Definition phot_rows : list (Qc * Qc) := [(num 1, num 10); (num 2, num 20)].
Definition spot_rows : list (Qc * Qc) := [(num 1, num 1); (num 2, num 2)].
Definition fac_rows : list (Qc * Qc) := [(num 1, num 30); (num 2, num 40)].

(** A spot model on another wavelength grid. *)
Definition shifted_rows : list (Qc * Qc) := [(num 1, num 1); (num 3, num 2)].

Definition planet_files (fs : gmap Path File) : gmap Path File :=
  <[coverage_path params :=
      CoverageFile [(num 0, coverage 8 1 1); (num 10, coverage 7 2 1); (num 0, coverage 6 2 2)]]>
  (<[reflection_path params (num 182) :=
      ReflectionFile [(num 1, num 5, num 4, num 3); (num 2, num 5, num 4, num 3)]]>
  (<[thermal_path params (num 182) :=
      ThermalFile [(num 1, num 5, num 1); (num 2, num 5, num 1)]]> fs)).

Definition store : gmap Path File :=
  <[binned_path "3000" := StellarModelFile phot_rows]>
  (<[binned_path "2600" := StellarModelFile spot_rows]>
  (<[binned_path "3100" := StellarModelFile fac_rows]> (planet_files ∅))).

Definition mismatched_store : gmap Path File :=
  <[binned_path "3000" := StellarModelFile phot_rows]>
  (<[binned_path "2600" := StellarModelFile shifted_rows]>
  (<[binned_path "3100" := StellarModelFile fac_rows]> (planet_files ∅))).

(** The world once the three models are in the working table. *)
Definition loaded : World :=
  {| files := store; trace := [];
     allModels := set_allModelSpectra (base_table params phot_rows spot_rows fac_rows)
                    ReadStarModels |}.

(** Two spectral bins, two exposures. *)
Definition analyzer : PhaseAnalyzer :=
  {| N_images := 2; time := [num 0; num 60]; phase := [num 0; num 10];
     unique_phase := [num 0; num 10]; wavelength := [1; 2]%R;
     star := [[2; 4]; [3; 6]]%R; reflected := [[1; 1]; [1; 1]]%R;
     thermal := [[1; 1]; [1; 1]]%R; total := [[4; 6]; [5; 8]]%R;
     noise := [[3; 4]; [6; 8]]%R |}.

(** A draw of the noise that is zero everywhere. *)
Definition still (scale : list R) : list R := map (fun _ => 0%R) scale.

(** The three required arguments of a header, without [seed]. *)
Definition without_seed : gmap string PyVal :=
  <["data_path" := PPath (PStr "out")]>
    (<["teff_min" := PQuantity (PStr "2300 K")]>
    (<["teff_max" := PQuantity (PStr "3900 K")]> ∅)).

End Examples.

(** ** [VSPEC/params/read.py]: the epoch counts of [Parameters] *)

Module ReadParameters.

(** The attributes of the parameter objects that the two properties read:
    [obs.total_images] and [psg.phase_binning], both integers. *)
Record ObservationParameters := { total_images : Z }.
Record psgParameters := { phase_binning : Z }.

Record Parameters := {
  obs : ObservationParameters;
  psg : psgParameters
}.

Inductive ArithmeticError := ZeroDivisionError.

(** [a // b] on integers: the quotient rounded towards minus infinity. *)
Definition floordiv (a b : Z) : ArithmeticError + Z :=
  if decide (b = 0%Z) then inl ZeroDivisionError else inr (a / b)%Z.

(** The property [star_total_images] (lines 187 to 192). *)
Definition star_total_images (self : Parameters) : Z := total_images (obs self).

(** The property [planet_total_images] (lines 193 to 198). *)
Definition planet_total_images (self : Parameters) : ArithmeticError + Z :=
  floordiv (total_images (obs self)) (phase_binning (psg self)).

End ReadParameters.

(** ** The layout of the output tables *)

Module Tables.

Import Pandas.

(** The columns of a table once an exposure has gone through, in the order
    in which the script creates them. *)
Definition output_columns : list string :=
  ["wavelength"; "photflux"; "spotflux"; "facflux";
   "sumflux"; "sumfluxTowardsPlanet"; "planetReflection"; "planetThermal"].

(** The names of the columns of a table, from left to right. *)
Definition columns (df : DataFrame) : list string := map fst df.

(** Every column of the table has [n] entries. *)
Definition height (n : nat) (df : DataFrame) : Prop :=
  Forall (fun c => length (snd c) = n) df.

End Tables.

(** ** Further concrete inputs *)

Module Cases.

Import Pandas SpectraBuilder Analysis Read Examples.
Local Open Scope Qc_scope.

(** Two spectral bins and two exposures, with the same noise in both
    exposures. *)
Definition steady : PhaseAnalyzer :=
  {| N_images := 2; time := [num 0; num 60]; phase := [num 0; num 10];
     unique_phase := [num 0; num 10]; wavelength := [1; 2]%R;
     star := [[2; 4]; [3; 6]]%R; reflected := [[1; 1]; [1; 1]]%R;
     thermal := [[1; 1]; [1; 1]]%R; total := [[4; 6]; [5; 8]]%R;
     noise := [[3; 3]; [6; 6]]%R |}.

(** The data set of [analyzer] with the star in another flux unit: every
    value of the star array is twice as large. *)
Definition rescaled : PhaseAnalyzer :=
  {| N_images := 2; time := [num 0; num 60]; phase := [num 0; num 10];
     unique_phase := [num 0; num 10]; wavelength := [1; 2]%R;
     star := map (map (Rmult 2)) (star analyzer); reflected := [[1; 1]; [1; 1]]%R;
     thermal := [[1; 1]; [1; 1]]%R; total := [[4; 6]; [5; 8]]%R;
     noise := [[3; 4]; [6; 8]]%R |}.

(** The three required arguments of a header and a seed, by name. *)
Definition seeded : gmap string PyVal := <["seed" := PInt 24]> without_seed.

Definition seeded_header : Header :=
  {| data_path := PPath (PStr "out"); teff_min := PQuantity (PStr "2300 K");
     teff_max := PQuantity (PStr "3900 K"); seed := PInt 24; desc := PNone |}.

(** A reading of strings by [u.Quantity] that takes the two temperatures of
    the header section and refuses every other string as not starting with a
    number. *)
Definition reads_kelvin (s : string) : option Exn :=
  if bool_decide (s ∈ ["2300 K"; "3900 K"]) then None
  else Some (TypeError "Cannot parse as a Quantity. It does not start with a number.").

(** A header section as read from a configuration file: the seed is there,
    the description is a number, and there is a key the header does not
    know. *)
Definition header_section : gmap string PyVal :=
  <["data_path" := PStr "out"]> (<["teff_min" := PStr "2300 K"]>
  (<["teff_max" := PStr "3900 K"]> (<["seed" := PInt 24]>
  (<["desc" := PInt 7]> (<["verbose" := PInt 0]> ∅))))).

(** The keywords of the call of [Header] in the example scripts
    ([examples/other/star/plot_faculae_lightcurve.py], lines 28 to 35):
    [data_path], [spec_grid], [seed] and [verbose]. *)
Definition example_call : gmap string PyVal :=
  <["data_path" := PPath (PStr ".vspec/faclae_lightcurve")]>
  (<["spec_grid" := PStr "VSPECGridParameters"]>
  (<["seed" := PInt 24]> (<["verbose" := PInt 0]> ∅))).

(** The parameters of [params] with no exposure to take. *)
Definition idle_params : ParamModel :=
  {| starName := "star"; teffStar := "3000"; teffSpot := "2600"; teffFac := "3100";
     erg_sTOwatts := num 1; cm2TOm2 := num 2; cmTOum := num 1;
     distanceFluxCorrection := num 1; total_images := 0;
     phase1 := num 180; delta_phase_planet := num 5; delta_phase_star := num 10 |}.

(** The rows of the coverage file of [store]. *)
Definition coverage_rows : list (Qc * Coverage) :=
  [(num 0, coverage 8 1 1); (num 10, coverage 7 2 1); (num 0, coverage 6 2 2)].

(** The spectra of the planet in [store]. *)
Definition reflection_rows : list (Qc * Qc * Qc * Qc) :=
  [(num 1, num 5, num 4, num 3); (num 2, num 5, num 4, num 3)].
Definition thermal_rows : list (Qc * Qc * Qc) :=
  [(num 1, num 5, num 1); (num 2, num 5, num 1)].

(** The files of [store] without the spot model. *)
Definition spotless_store : gmap Path File := delete (binned_path "2600") store.

(** The inputs of the first exposure of [wrap_params]: the spectra of the
    planet at phase 183, and a coverage table that holds phase 0 and no
    other. *)
Definition wrap_store : gmap Path File :=
  <[reflection_path wrap_params (num 183) := ReflectionFile reflection_rows]>
  (<[thermal_path wrap_params (num 183) := ThermalFile thermal_rows]> store).

Definition wrap_loaded : World :=
  {| files := wrap_store; trace := [];
     allModels := set_allModelSpectra (base_table wrap_params phot_rows spot_rows fac_rows)
                    ReadStarModels |}.

Definition wrap_dict : gmap Qc Coverage :=
  build_surfaceCoverageDict [(num 0, coverage 6 2 2)].

(** The files of [store] without the thermal spectrum of phase 182. *)
Definition cold_store : gmap Path File := delete (thermal_path params (num 182)) store.

(** The world in the middle of an exposure: the spectra of the planet are
    read and the flux towards the planet is in the table. *)
Definition lit : World :=
  {| files := store; trace := [];
     allModels :=
       set_planetThermalModel thermal_rows
         (set_PSGplanetReflectionModel reflection_rows
            (set_allModelSpectra
               (set_column "sumfluxTowardsPlanet" [num 8; num 12]
                  (base_table params phot_rows spot_rows fac_rows))
               ReadStarModels)) |}.

(** Ten stellar epochs, binned by three for the planet. *)
Definition binned : ReadParameters.Parameters :=
  {| ReadParameters.obs := {| ReadParameters.total_images := 10 |};
     ReadParameters.psg := {| ReadParameters.phase_binning := 3 |} |}.

End Cases.

(** * Properties *)

(** ** Tables *)

Module PandasFacts.

Import Pandas.
Local Open Scope Qc_scope.

Lemma get_set_column_eq name values (df : DataFrame) :
  get_column name (set_column name values df) = Some values.
Proof.
  induction df as [|[c v] rest IH]; simpl.
  - by rewrite decide_True.
  - destruct (decide (c = name)) as [->|Hne]; simpl.
    + by rewrite decide_True.
    + by rewrite decide_False.
Qed.

Lemma get_set_column_ne name name' values (df : DataFrame) :
  name <> name' ->
  get_column name' (set_column name values df) = get_column name' df.
Proof.
  intros Hne. induction df as [|[c v] rest IH]; simpl.
  - by rewrite decide_False.
  - destruct (decide (c = name)) as [->|Hc]; simpl.
    + by rewrite !decide_False.
    + by rewrite IH.
Qed.

Lemma lookup_scale (s : list Qc) c j :
  scale s c !! j = (fun x => x * c) <$> s !! j.
Proof.
  unfold scale. revert j. induction s as [|x s IH]; intros [|j]; simpl; auto.
Qed.

Lemma length_scale (s : list Qc) c : length (scale s c) = length s.
Proof. unfold scale. apply length_map. Qed.

(** The linear combination of three columns, entry by entry. *)
Lemma lookup_combination (ph sp fa : list Qc) p s f j x y z :
  ph !! j = Some x -> sp !! j = Some y -> fa !! j = Some z ->
  add (add (scale ph p) (scale sp s)) (scale fa f) !! j = Some (p * x + s * y + f * z).
Proof.
  intros Hx Hy Hz. unfold add.
  rewrite !lookup_zip_with, !lookup_scale, Hx, Hy, Hz. simpl.
  f_equal. ring.
Qed.

Lemma length_combination (ph sp fa : list Qc) p s f :
  length ph = length sp -> length ph = length fa ->
  length (add (add (scale ph p) (scale sp s)) (scale fa f)) = length ph.
Proof.
  intros H1 H2. unfold add. rewrite !length_zip_with, !length_scale. lia.
Qed.

(** [np.all(a == b)] holds exactly of two equal series. *)
Lemma np_all_series_eq (a b : list Qc) e :
  series_eq a b = inr e -> np_all e = true <-> a = b.
Proof.
  unfold series_eq. destruct (decide (length a = length b)) as [Hlen|]; [|done].
  intros [= <-]. revert b Hlen.
  induction a as [|x a IH]; intros [|y b] Hlen; simpl in *; try done.
  unfold np_all in *. simpl. rewrite andb_true_iff, bool_decide_eq_true.
  rewrite IH by lia. split; [intros [-> ->]; done | intros [= -> ->]; done].
Qed.

End PandasFacts.

(** ** The pipeline *)

Module PipelineFacts.

Import Pandas SpectraBuilder Invariants PandasFacts.
Local Open Scope Qc_scope.

(** *** Running the monad step by step *)

Lemma bind_inr {A B} (c : M A) (k : A -> M B) w x w' :
  c w = (inr x, w') -> bind c k w = k x w'.
Proof. unfold bind. by intros ->. Qed.

Lemma bind_inl {A B} (c : M A) (k : A -> M B) w e w' :
  c w = (inl e, w') -> bind c k w = (inl e, w').
Proof. unfold bind. by intros ->. Qed.

Lemma item_Some (d : Coverage) key v w : d !! key = Some v -> item d key w = (inr v, w).
Proof. unfold item. by intros ->. Qed.

Lemma column_Some name v w :
  get_column name (table w) = Some v -> column name w = (inr v, w).
Proof. unfold column, bind, get_models. by intros ->. Qed.

Lemma assign_column_run name values w :
  assign_column name values w = (inr tt, with_column name values w).
Proof. reflexivity. Qed.

Lemma table_with_column name values w :
  table (with_column name values w) = set_column name values (table w).
Proof. reflexivity. Qed.

(** C1.  [calculate_combined_spectrum]: when the working table holds the
    three flux columns on one index and the two coverage records hold their
    three fractions, the observer-facing ones adding up to one, the call
    succeeds and leaves a [sumflux] column equal, entry by entry, to
    [p * photflux + s * spotflux + f * facflux], and a
    [sumfluxTowardsPlanet] column equal to the same combination with the
    planet-facing fractions.  The equalities are exact in the rationals. *)
Theorem sumflux_linear (Params : ParamModel) (percentagesDict percentagesDictTowardsPlanet : Coverage)
    (phase : nat) (w : World) (ph sp fa : list Qc) (p s f p' s' f' : Qc) :
  get_column "photflux" (table w) = Some ph ->
  get_column "spotflux" (table w) = Some sp ->
  get_column "facflux" (table w) = Some fa ->
  length ph = length sp -> length ph = length fa ->
  percentagesDict !! "phot" = Some p ->
  percentagesDict !! "spot" = Some s ->
  percentagesDict !! "fac" = Some f ->
  p + s + f = num 1 ->
  percentagesDictTowardsPlanet !! "phot" = Some p' ->
  percentagesDictTowardsPlanet !! "spot" = Some s' ->
  percentagesDictTowardsPlanet !! "fac" = Some f' ->
  exists w' sumflux sumfluxTowardsPlanet,
    calculate_combined_spectrum Params percentagesDict percentagesDictTowardsPlanet phase w
      = (inr tt, w') /\
    get_column "sumflux" (table w') = Some sumflux /\
    get_column "sumfluxTowardsPlanet" (table w') = Some sumfluxTowardsPlanet /\
    length sumflux = length ph /\
    length sumfluxTowardsPlanet = length ph /\
    forall j x y z,
      ph !! j = Some x -> sp !! j = Some y -> fa !! j = Some z ->
      sumflux !! j = Some (p * x + s * y + f * z) /\
      sumfluxTowardsPlanet !! j = Some (p' * x + s' * y + f' * z).
Proof.
  intros Hph Hsp Hfa Hl1 Hl2 Hp Hs Hf Hsum Hp' Hs' Hf'.
  set (sumflux := add (add (scale ph p) (scale sp s)) (scale fa f)).
  set (toPlanet := add (add (scale ph p') (scale sp s')) (scale fa f')).
  exists (with_column "sumfluxTowardsPlanet" toPlanet (with_column "sumflux" sumflux w)),
    sumflux, toPlanet.
  split.
  - unfold calculate_combined_spectrum.
    do 3 (erewrite bind_inr by (apply item_Some; eassumption)).
    do 3 (erewrite bind_inr by (apply column_Some; eassumption)).
    erewrite bind_inr by apply assign_column_run.
    do 3 (erewrite bind_inr by (apply item_Some; eassumption)).
    do 3 (erewrite bind_inr
            by (apply column_Some; rewrite table_with_column, get_set_column_ne by done;
                eassumption)).
    apply assign_column_run.
  - rewrite !table_with_column.
    rewrite get_set_column_ne by done. rewrite !get_set_column_eq.
    repeat split; try reflexivity.
    + by apply length_combination.
    + by apply length_combination.
    + by apply lookup_combination.
    + by apply lookup_combination.
Qed.

(** *** Steps that leave the files, the trace, the phases and the four
    static columns alone *)

Global Instance quiet_refl : Reflexive quiet.
Proof. intros w. unfold quiet, static_kept. naive_solver. Qed.

Global Instance quiet_trans : Transitive quiet.
Proof.
  intros w1 w2 w3 (?&?&?&?&?&H12) (?&?&?&?&?&H23). unfold quiet, static_kept in *.
  repeat split; try congruence. intros name Hn. rewrite H23, H12; done.
Qed.

Section Preserves.

Context (R : relation World) `{!Reflexive R} `{!Transitive R}.

Lemma preserves_bind {A B} (c : M A) (k : A -> M B) :
  preserves R c -> (forall x, preserves R (k x)) -> preserves R (bind c k).
Proof.
  intros Hc Hk w. unfold bind. specialize (Hc w).
  destruct (c w) as [[e|x] w1]; simpl in *; [done|].
  etrans; [exact Hc | apply Hk].
Qed.

Lemma preserves_ret {A} (x : A) : preserves R (ret x).
Proof. intros w. simpl. reflexivity. Qed.

Lemma preserves_raise {A} e : preserves R (@raise A e).
Proof. intros w. simpl. reflexivity. Qed.

Lemma preserves_lift {A} (r : Exn + A) : preserves R (lift r).
Proof. intros w. simpl. reflexivity. Qed.

Lemma preserves_get_models : preserves R get_models.
Proof. intros w. simpl. reflexivity. Qed.

Lemma preserves_for_each {A} (l : list A) (body : A -> M unit) :
  (forall x, preserves R (body x)) -> preserves R (for_each l body).
Proof.
  intros Hb. induction l as [|x l IH]; simpl.
  - apply preserves_ret.
  - apply preserves_bind; auto.
Qed.

End Preserves.

Lemma preserves_item R `{!Reflexive R} d key : preserves R (item d key).
Proof. unfold item. destruct (d !! key); [apply preserves_ret | apply preserves_raise]; done. Qed.

Lemma preserves_coverage_at R `{!Reflexive R} d key : preserves R (coverage_at d key).
Proof.
  unfold coverage_at. destruct (d !! key); [apply preserves_ret | apply preserves_raise]; done.
Qed.

Lemma preserves_column R `{!Reflexive R} `{!Transitive R} name : preserves R (column name).
Proof.
  unfold column. apply preserves_bind; [done | apply preserves_get_models; done |].
  intros m. destruct (get_column name _); [apply preserves_ret | apply preserves_raise]; done.
Qed.

Lemma quiet_assign_column name values :
  name ∉ static_columns -> preserves quiet (assign_column name values).
Proof.
  intros Hn w. simpl. unfold quiet, static_kept. simpl. repeat split; try done.
  intros name' Hn'. apply get_set_column_ne. intros ->. done.
Qed.

Ltac not_static :=
  unfold static_columns; rewrite !elem_of_cons, elem_of_nil; intros H;
  repeat (destruct H as [H|H]; [discriminate H|]); exact H.

Ltac quiet_steps :=
  repeat first
    [ apply (preserves_item quiet)
    | apply (preserves_column quiet)
    | apply (preserves_bind quiet)
    | apply (preserves_lift quiet)
    | apply (preserves_get_models quiet)
    | apply quiet_assign_column; not_static
    | intros ? ].

Lemma quiet_calculate_combined_spectrum Params d d' phase :
  preserves quiet (calculate_combined_spectrum Params d d' phase).
Proof. unfold calculate_combined_spectrum. quiet_steps. Qed.

Lemma quiet_calculate_planet_flux phase : preserves quiet (calculate_planet_flux phase).
Proof. unfold calculate_planet_flux. quiet_steps. Qed.


Lemma quiet_modify (f : Models -> Models) :
  (forall m, planetPhase (f m) = planetPhase m /\ starPhase (f m) = starPhase m /\
             starPhaseFacingPlanet (f m) = starPhaseFacingPlanet m /\
             allModelSpectra (f m) = allModelSpectra m) ->
  preserves quiet (modify f).
Proof.
  intros Hf w. destruct (Hf (allModels w)) as (?&?&?&Ht).
  unfold quiet, static_kept. simpl. rewrite Ht. done.
Qed.

Lemma table_update_phases Params index m :
  allModelSpectra (update_phases Params index m) = allModelSpectra m.
Proof. unfold update_phases. repeat case_decide; reflexivity. Qed.

Lemma modify_run f w : modify f w = (inr tt, with_models (f (allModels w)) w).
Proof. reflexivity. Qed.

(** *** The readers *)

Lemma read_reflection_run p w :
  (exists rows, files w !! p = Some (ReflectionFile rows) /\
                read_reflection p w = (inr rows, log (EvRead p) w)) \/
  ((forall rows, files w !! p <> Some (ReflectionFile rows)) /\
   exists e, read_reflection p w = (inl e, log (EvRead p) w)).
Proof.
  unfold read_reflection, bind, read_file.
  destruct (files w !! p) as [[]|]; simpl; eauto 6.
Qed.

Lemma read_thermal_run p w :
  (exists rows, files w !! p = Some (ThermalFile rows) /\
                read_thermal p w = (inr rows, log (EvRead p) w)) \/
  ((forall rows, files w !! p <> Some (ThermalFile rows)) /\
   exists e, read_thermal p w = (inl e, log (EvRead p) w)).
Proof.
  unfold read_thermal, bind, read_file.
  destruct (files w !! p) as [[]|]; simpl; eauto 6.
Qed.

(** *** The phases of one exposure *)

Lemma num_180_182 : num 180 <> num 182. Proof. by intros [=]. Qed.
Lemma num_180_185 : num 180 <> num 185. Proof. by intros [=]. Qed.
Lemma num_182_185 : num 182 <> num 185. Proof. by intros [=]. Qed.
Lemma num_185_186 : num 185 <> num 186. Proof. by intros [=]. Qed.

(** The three phases after lines 115 to 164, in terms of the raw values. *)
Lemma update_phases_fields Params index m :
  let raw := Py.mod_ (phase1 Params + delta_phase_planet Params * Py.of_nat index) (num 360) in
  let star := Py.mod_ (delta_phase_star Params * Py.of_nat index) (num 360) in
  let facing := Py.mod_ (num 180 - star + raw) (num 360) in
  planetPhase (update_phases Params index m) =
    (if decide (raw = num 180) then num 182
     else if decide (raw = num 185) then num 186 else raw) /\
  starPhase (update_phases Params index m) = star /\
  starPhaseFacingPlanet (update_phases Params index m) =
    (if decide (facing = Py.of_nat (total_images Params + 1)) then num 0 else facing).
Proof.
  intros raw star facing. unfold update_phases.
  cbn [planetPhase starPhase starPhaseFacingPlanet set_planetPhase set_starPhase
       set_starPhaseFacingPlanet].
  fold raw. fold star. fold facing. clearbody raw star facing.
  destruct (decide (raw = num 180)) as [->|H180];
    cbn [planetPhase starPhase starPhaseFacingPlanet set_planetPhase set_starPhase
         set_starPhaseFacingPlanet].
  - rewrite (decide_False (P := num 182 = num 185)) by apply num_182_185.
    cbn [planetPhase starPhase starPhaseFacingPlanet set_planetPhase set_starPhase
         set_starPhaseFacingPlanet].
    destruct (decide (facing = _)); done.
  - destruct (decide (raw = num 185)) as [->|H185];
      cbn [planetPhase starPhase starPhaseFacingPlanet set_planetPhase set_starPhase
           set_starPhaseFacingPlanet];
      destruct (decide (facing = _)); done.
Qed.

Local Opaque Py.mod_ Py.round Py.format_3f Py.of_nat Py.of_Z Py.str_nat update_phases.

(** *** One exposure *)

(** What one exposure does to the world: the phases are those of
    [update_phases], the static columns stay, and the events are the read of
    the reflected spectrum, then the read of the thermal spectrum, then the
    write of the output table, stopping at the first failure. *)
Lemma exposure_run Params dict index w :
  let m := update_phases Params index (allModels w) in
  let refl := reflection_path Params (planetPhase m) in
  let therm := thermal_path Params (planetPhase m) in
  let r := fst (exposure Params dict index w) in
  let w' := snd (exposure Params dict index w) in
  (planetPhase (allModels w') = planetPhase m /\
   starPhase (allModels w') = starPhase m /\
   starPhaseFacingPlanet (allModels w') = starPhaseFacingPlanet m) /\
  static_kept w w' /\
  ((trace w' = trace w ++ [EvRead refl] /\ files w' = files w /\
    (forall rows, files w !! refl <> Some (ReflectionFile rows)) /\ r <> inr tt) \/
   (trace w' = trace w ++ [EvRead refl; EvRead therm] /\ files w' = files w /\ r <> inr tt) \/
   (trace w' = trace w ++ [EvRead refl; EvRead therm;
                           EvWrite (output_path Params index) (FrameFile (table w'))] /\
    files w' = <[output_path Params index := FrameFile (table w')]> (files w) /\
    r = inr tt)).
Proof.
  intros m refl therm r w'. subst r w' refl therm m. unfold exposure.
  rewrite (bind_inr _ _ _ _ _ (modify_run _ _)).
  pose proof (table_update_phases Params index (allModels w)) as Hmt.
  revert Hmt. generalize (update_phases Params index (allModels w)). intros m Hmt.
  set (w1 := with_models m w).
  rewrite (bind_inr _ _ w1 m w1) by reflexivity.
  set (refl := reflection_path Params (planetPhase m)).
  set (therm := thermal_path Params (planetPhase m)).
  assert (Hst1 : static_kept w w1).
  { intros name _. subst w1. cbn [allModels with_models]. by rewrite Hmt. }
  clearbody refl therm.
  destruct (read_reflection_run refl w1) as [(rows & Hf & Hr)|(Hf & e & Hr)].
  2:{ rewrite (bind_inl _ _ _ _ _ Hr). simpl. split; [done|]. split; [exact Hst1|].
      left. repeat split; try done. }
  rewrite (bind_inr _ _ _ _ _ Hr).
  set (w2 := {| files := files w; trace := trace w ++ [EvRead refl];
                allModels := set_PSGplanetReflectionModel rows m |}).
  rewrite (bind_inr _ _ _ tt w2) by reflexivity.
  destruct (read_thermal_run therm w2) as [(rows' & Hf' & Hr')|(Hf' & e & Hr')].
  2:{ rewrite (bind_inl _ _ _ _ _ Hr'). simpl. split; [done|]. split; [exact Hst1|].
      right; left. rewrite <- app_assoc. done. }
  rewrite (bind_inr _ _ _ _ _ Hr').
  set (w3 := {| files := files w; trace := (trace w ++ [EvRead refl]) ++ [EvRead therm];
                allModels := set_planetThermalModel rows' (set_PSGplanetReflectionModel rows m) |}).
  rewrite (bind_inr _ _ _ tt w3) by reflexivity.
  assert (Hq3 : forall w4, quiet w3 w4 ->
    (planetPhase (allModels w4) = planetPhase m /\
     starPhase (allModels w4) = starPhase m /\
     starPhaseFacingPlanet (allModels w4) = starPhaseFacingPlanet m) /\
    static_kept w w4 /\ trace w4 = trace w ++ [EvRead refl; EvRead therm] /\
    files w4 = files w).
  { intros w4 (Hfi & Htr & H1 & H2 & H3 & H4). simpl in *.
    rewrite <- app_assoc in Htr. repeat split; try done.
    intros name Hn. rewrite H4 by done. apply Hst1; done. }
  destruct (coverage_at dict (tempPhase m) w3) as [[e|d] w4] eqn:H4;
    pose proof (preserves_coverage_at quiet dict (tempPhase m) w3) as Hq4;
    rewrite H4 in Hq4; simpl in Hq4.
  { rewrite (bind_inl _ _ _ _ _ H4). simpl.
    destruct (Hq3 _ Hq4) as (?&?&?&?). split; [done|]. split; [done|]. right; left. done. }
  rewrite (bind_inr _ _ _ _ _ H4).
  destruct (coverage_at dict (tempPhaseFacingPlanet m) w4) as [[e|d'] w5] eqn:H5;
    pose proof (preserves_coverage_at quiet dict (tempPhaseFacingPlanet m) w4) as Hq5;
    rewrite H5 in Hq5; simpl in Hq5; assert (Hq5' := transitivity Hq4 Hq5).
  { rewrite (bind_inl _ _ _ _ _ H5). simpl.
    destruct (Hq3 _ Hq5') as (?&?&?&?). split; [done|]. split; [done|]. right; left. done. }
  rewrite (bind_inr _ _ _ _ _ H5).
  destruct (calculate_combined_spectrum Params d d' index w5) as [[e|[]] w6] eqn:H6;
    pose proof (quiet_calculate_combined_spectrum Params d d' index w5) as Hq6;
    rewrite H6 in Hq6; simpl in Hq6; assert (Hq6' := transitivity Hq5' Hq6).
  { rewrite (bind_inl _ _ _ _ _ H6). simpl.
    destruct (Hq3 _ Hq6') as (?&?&?&?). split; [done|]. split; [done|]. right; left. done. }
  rewrite (bind_inr _ _ _ _ _ H6).
  destruct (calculate_planet_flux index w6) as [[e|[]] w7] eqn:H7;
    pose proof (quiet_calculate_planet_flux index w6) as Hq7;
    rewrite H7 in Hq7; simpl in Hq7; assert (Hq7' := transitivity Hq6' Hq7).
  { rewrite (bind_inl _ _ _ _ _ H7). simpl.
    destruct (Hq3 _ Hq7') as (?&?&?&?). split; [done|]. split; [done|]. right; left. done. }
  rewrite (bind_inr _ _ _ _ _ H7).
  rewrite (bind_inr _ _ w7 (allModels w7) w7) by reflexivity.
  unfold write_file. simpl.
  destruct (Hq3 _ Hq7') as (?&?&Htr&Hfi). split; [done|]. split; [done|].
  right; right. rewrite Htr, Hfi, <- app_assoc. done.
Qed.


(** The file names of the phases involved in the two substitutions. *)
Lemma reflection_path_substituted Params raw sub :
  (raw = num 180 /\ sub = num 182) \/ (raw = num 185 /\ sub = num 186) ->
  reflection_path Params raw <> reflection_path Params sub /\
  thermal_path Params raw <> thermal_path Params sub.
Proof.
  Local Transparent Py.format_3f Py.of_Z Py.str_nat.
  intros [[-> ->]|[-> ->]]; split; intros [= H]; vm_compute in H; discriminate H.
  Local Opaque Py.format_3f Py.of_Z Py.str_nat.
Qed.

(** C2.  An exposure whose raw planet phase
    [(phase1 + delta_phase_planet * index) % 360] is exactly 180 reads the
    reflection and thermal files of phase 182, and one whose raw phase is
    exactly 185 reads those of phase 186: the only files the exposure reads
    are those of the substituted phase, which are other files than those of
    the raw phase.  The star phase facing the planet is computed from the raw
    phase, before the substitution; [planetPhase] itself keeps the
    substituted value. *)
Theorem phase_substitution Params dict index w sub :
  let raw := Py.mod_ (phase1 Params + delta_phase_planet Params * Py.of_nat index) (num 360) in
  let star := Py.mod_ (delta_phase_star Params * Py.of_nat index) (num 360) in
  let facing := Py.mod_ (num 180 - star + raw) (num 360) in
  (raw = num 180 /\ sub = num 182) \/ (raw = num 185 /\ sub = num 186) ->
  let w' := snd (exposure Params dict index w) in
  let refl := reflection_path Params sub in
  let therm := thermal_path Params sub in
  (trace w' = trace w ++ [EvRead refl] \/
   trace w' = trace w ++ [EvRead refl; EvRead therm] \/
   exists df, trace w' = trace w ++ [EvRead refl; EvRead therm;
                                     EvWrite (output_path Params index) (FrameFile df)]) /\
  ((exists rows, files w !! refl = Some (ReflectionFile rows)) ->
   trace w' <> trace w ++ [EvRead refl]) /\
  reflection_path Params raw <> refl /\ thermal_path Params raw <> therm /\
  planetPhase (allModels w') = sub /\
  starPhase (allModels w') = star /\
  starPhaseFacingPlanet (allModels w') =
    (if decide (facing = Py.of_nat (total_images Params + 1)) then num 0 else facing).
Proof.
  intros raw star facing Hsub w' refl therm.
  destruct (update_phases_fields Params index (allModels w)) as (Hp & Hs & Hf).
  fold raw star facing in Hp, Hs, Hf.
  assert (Hp' : planetPhase (update_phases Params index (allModels w)) = sub).
  { rewrite Hp. destruct Hsub as [[-> ->]|[-> ->]].
    - by rewrite decide_True.
    - rewrite decide_False by (intros H; symmetry in H; by apply num_180_185 in H).
      by rewrite decide_True. }
  destruct (exposure_run Params dict index w) as ((Ep & Es & Ef) & _ & Hev).
  rewrite Hp' in *. fold refl therm w' in Hev, Ep, Es, Ef.
  destruct (reflection_path_substituted Params raw sub Hsub) as [Hr Ht].
  repeat split; try done; try congruence.
  - destruct Hev as [(Ht1 & _)|[(Ht2 & _)|(Ht3 & _)]]; eauto.
  - intros [rows Hrows] Htr.
    destruct Hev as [(_ & _ & Hno & _)|[(Ht2 & _)|(Ht3 & _)]].
    + by apply (Hno rows).
    + rewrite Ht2 in Htr. apply app_inv_head in Htr. discriminate Htr.
    + rewrite Ht3 in Htr. apply app_inv_head in Htr. discriminate Htr.
Qed.

(** The star phase facing the planet after lines 115 to 164, the key that
    lines 185 to 187 compute from it, and the value the exposure ends with. *)
Lemma boundary_wrap Params dict index w :
  let raw := Py.mod_ (phase1 Params + delta_phase_planet Params * Py.of_nat index) (num 360) in
  let star := Py.mod_ (delta_phase_star Params * Py.of_nat index) (num 360) in
  let facing := Py.mod_ (num 180 - star + raw) (num 360) in
  let wrapped := if decide (facing = Py.of_nat (total_images Params + 1))
                 then num 0 else facing in
  let m := update_phases Params index (allModels w) in
  let w' := snd (exposure Params dict index w) in
  starPhaseFacingPlanet m = wrapped /\
  tempPhaseFacingPlanet m =
    (if decide (Py.round wrapped 3 = num 360) then num 0 else Py.round wrapped 3) /\
  starPhaseFacingPlanet (allModels w') = wrapped.
Proof.
  intros raw star facing wrapped m w'.
  destruct (update_phases_fields Params index (allModels w)) as (_ & _ & Hf).
  fold raw star facing wrapped m in Hf.
  destruct (exposure_run Params dict index w) as ((_ & _ & Ef) & _).
  fold m w' in Ef. unfold tempPhaseFacingPlanet. rewrite Ef, Hf. done.
Qed.


(** *** Start-up *)

Lemma bind_inr_inv {A B} (c : M A) (k : A -> M B) w y w' :
  bind c k w = (inr y, w') -> exists x w1, c w = (inr x, w1) /\ k x w1 = (inr y, w').
Proof. unfold bind. destruct (c w) as [[e|x] w1]; [done | eauto]. Qed.

Lemma read_stellar_model_ok p w rows :
  files w !! p = Some (StellarModelFile rows) ->
  read_stellar_model p w = (inr rows, log (EvRead p) w).
Proof. intros H. unfold read_stellar_model, bind, read_file. by rewrite H. Qed.

Lemma read_stellar_model_inv p w rows w1 :
  read_stellar_model p w = (inr rows, w1) ->
  files w !! p = Some (StellarModelFile rows) /\ w1 = log (EvRead p) w.
Proof.
  unfold read_stellar_model, bind, read_file.
  destruct (files w !! p) as [[]|]; simpl; intros [= <- <-]; done.
Qed.

Lemma read_coverage_inv p w rows w1 :
  read_coverage p w = (inr rows, w1) -> w1 = log (EvRead p) w.
Proof.
  unfold read_coverage, bind, read_file.
  destruct (files w !! p) as [[]|]; simpl; intros [= <- <-]; done.
Qed.

Lemma check_wavelengths_inv phot spot fac w w1 :
  check_wavelengths phot spot fac w = (inr tt, w1) ->
  w1 = w /\ wavelength phot = wavelength spot /\ wavelength phot = wavelength fac.
Proof.
  unfold check_wavelengths, bind, lift.
  destruct (series_eq (wavelength phot) (wavelength spot)) as [e|e1] eqn:H1; [done|].
  destruct (np_all e1) eqn:Ha1; simpl; [|done].
  destruct (series_eq (wavelength phot) (wavelength fac)) as [e|e2] eqn:H2; [done|].
  destruct (np_all e2) eqn:Ha2; simpl; [|done].
  intros [= <-]. split; [done|].
  split; [by apply (np_all_series_eq _ _ _ H1) | by apply (np_all_series_eq _ _ _ H2)].
Qed.

Lemma check_wavelengths_mismatch phot spot fac :
  ~ (wavelength phot = wavelength spot /\ wavelength phot = wavelength fac) ->
  exists msg, forall w, check_wavelengths phot spot fac w = (inl (ValueError msg), w).
Proof.
  intros Hne. unfold check_wavelengths, bind, lift.
  destruct (series_eq (wavelength phot) (wavelength spot)) as [e|e1] eqn:H1.
  { unfold series_eq in H1. case_decide; [done|]. injection H1 as <-. eauto. }
  destruct (np_all e1) eqn:Ha1; simpl; [|eauto].
  apply (np_all_series_eq _ _ _ H1) in Ha1.
  destruct (series_eq (wavelength phot) (wavelength fac)) as [e|e2] eqn:H2.
  { unfold series_eq in H2. case_decide; [done|]. injection H2 as <-. eauto. }
  destruct (np_all e2) eqn:Ha2; simpl; [|eauto].
  apply (np_all_series_eq _ _ _ H2) in Ha2. destruct Hne. done.
Qed.

(** C5.  When the three model files are present and their wavelength
    columns are not all the same, the run stops with a [ValueError] during
    start-up: the three models have been read, nothing else has happened, no
    file has been written and the file store is as it was. *)
Theorem wavelength_mismatch_aborts Params fs phot spot fac :
  fs !! binned_path (teffStar Params) = Some (StellarModelFile phot) ->
  fs !! binned_path (teffSpot Params) = Some (StellarModelFile spot) ->
  fs !! binned_path (teffFac Params) = Some (StellarModelFile fac) ->
  ~ (wavelength phot = wavelength spot /\ wavelength phot = wavelength fac) ->
  exists msg w',
    run Params fs = (inl (ValueError msg), w') /\
    files w' = fs /\
    writes (trace w') = [] /\
    trace w' = [EvRead (binned_path (teffStar Params));
                EvRead (binned_path (teffSpot Params));
                EvRead (binned_path (teffFac Params))].
Proof.
  intros Hphot Hspot Hfac Hne.
  destruct (check_wavelengths_mismatch phot spot fac Hne) as [msg Hmsg].
  exists msg. eexists. split.
  - unfold run, main, startup.
    apply bind_inl.
    erewrite bind_inr by (apply read_stellar_model_ok; exact Hphot).
    rewrite (bind_inr _ _ _ _ _ (modify_run _ _)).
    erewrite bind_inr by (apply read_stellar_model_ok; exact Hspot).
    rewrite (bind_inr _ _ _ _ _ (modify_run _ _)).
    erewrite bind_inr by (apply read_stellar_model_ok; exact Hfac).
    rewrite (bind_inr _ _ _ _ _ (modify_run _ _)).
    apply bind_inl. apply Hmsg.
  - done.
Qed.


(** *** What a run writes *)

Lemma writes_app t1 t2 : writes (t1 ++ t2) = writes t1 ++ writes t2.
Proof. unfold writes. apply flat_map_app. Qed.

Lemma apply_writes_app ws1 ws2 fs :
  apply_writes (ws1 ++ ws2) fs = apply_writes ws2 (apply_writes ws1 fs).
Proof. unfold apply_writes. apply fold_left_app. Qed.

Global Instance reads_only_refl : Reflexive reads_only.
Proof. intros w. split; [done|]. exists []. by rewrite app_nil_r. Qed.

Global Instance reads_only_trans : Transitive reads_only.
Proof.
  intros w1 w2 w3 [Hf1 (e1 & Ht1 & Hw1)] [Hf2 (e2 & Ht2 & Hw2)].
  split; [congruence|]. exists (e1 ++ e2).
  rewrite Ht2, Ht1, <- app_assoc, writes_app, Hw1, Hw2. done.
Qed.

Lemma reads_only_modify f : preserves reads_only (modify f).
Proof. intros w. simpl. split; [done|]. exists []. by rewrite app_nil_r. Qed.

Lemma reads_only_read_file p : preserves reads_only (read_file p).
Proof.
  intros w. unfold read_file. destruct (files w !! p); simpl;
    (split; [done|]; by exists [EvRead p]).
Qed.

Lemma reads_only_read_stellar_model p : preserves reads_only (read_stellar_model p).
Proof.
  unfold read_stellar_model. apply preserves_bind; [apply _ | apply reads_only_read_file|].
  intros []; first [apply preserves_ret | apply preserves_raise]; apply _.
Qed.

Lemma reads_only_read_coverage p : preserves reads_only (read_coverage p).
Proof.
  unfold read_coverage. apply preserves_bind; [apply _ | apply reads_only_read_file|].
  intros []; first [apply preserves_ret | apply preserves_raise]; apply _.
Qed.

Lemma reads_only_check_wavelengths phot spot fac :
  preserves reads_only (check_wavelengths phot spot fac).
Proof.
  unfold check_wavelengths.
  apply preserves_bind; [apply _ | apply preserves_lift; apply _ |]. intros e1.
  destruct (negb (np_all e1)); [apply preserves_raise; apply _|].
  apply preserves_bind; [apply _ | apply preserves_lift; apply _ |]. intros e2.
  destruct (negb (np_all e2)); [apply preserves_raise | apply preserves_ret]; apply _.
Qed.

Lemma reads_only_startup Params : preserves reads_only (startup Params).
Proof.
  unfold startup.
  repeat first
    [ apply reads_only_read_stellar_model
    | apply reads_only_read_coverage
    | apply reads_only_check_wavelengths
    | apply reads_only_modify
    | apply (preserves_ret reads_only)
    | apply (preserves_bind reads_only)
    | intros ? ].
Qed.

(** What start-up leaves behind when it succeeds. *)
Lemma startup_inv Params w dict w1 :
  startup Params w = (inr dict, w1) ->
  exists phot spot fac,
    files w !! binned_path (teffStar Params) = Some (StellarModelFile phot) /\
    files w !! binned_path (teffSpot Params) = Some (StellarModelFile spot) /\
    files w !! binned_path (teffFac Params) = Some (StellarModelFile fac) /\
    wavelength phot = wavelength spot /\ wavelength phot = wavelength fac /\
    table w1 = base_table Params phot spot fac.
Proof.
  unfold startup. intros H.
  apply bind_inr_inv in H as (phot & wa & Hphot & H).
  apply read_stellar_model_inv in Hphot as [Hphot ->].
  apply bind_inr_inv in H as ([] & wb & Hm & H). rewrite modify_run in Hm. injection Hm as <-.
  apply bind_inr_inv in H as (spot & wc & Hspot & H).
  apply read_stellar_model_inv in Hspot as [Hspot ->].
  apply bind_inr_inv in H as ([] & wd & Hm & H). rewrite modify_run in Hm. injection Hm as <-.
  apply bind_inr_inv in H as (fac & we & Hfac & H).
  apply read_stellar_model_inv in Hfac as [Hfac ->].
  apply bind_inr_inv in H as ([] & wf & Hm & H). rewrite modify_run in Hm. injection Hm as <-.
  apply bind_inr_inv in H as ([] & wg & Hc & H).
  apply check_wavelengths_inv in Hc as (-> & Hw1 & Hw2).
  apply bind_inr_inv in H as ([] & wh & Hm & H). rewrite modify_run in Hm. injection Hm as <-.
  apply bind_inr_inv in H as (rows & wi & Hrows & H).
  apply read_coverage_inv in Hrows as ->.
  injection H as _ <-.
  exists phot, spot, fac. repeat split; done.
Qed.

Global Instance static_kept_refl : Reflexive static_kept.
Proof. by intros w name _. Qed.

Global Instance static_kept_trans : Transitive static_kept.
Proof. intros w1 w2 w3 H12 H23 name Hn. rewrite H23, H12; done. Qed.

Global Instance progress_refl Params : Reflexive (progress Params).
Proof.
  intros w. split; [reflexivity|]. exists []. rewrite app_nil_r. repeat split; constructor.
Qed.

Global Instance progress_trans Params : Transitive (progress Params).
Proof.
  intros w1 w2 w3 [Hs1 (e1 & Ht1 & Hf1 & Hc1)] [Hs2 (e2 & Ht2 & Hf2 & Hc2)].
  split; [etrans; done|]. exists (e1 ++ e2).
  rewrite Ht2, Ht1, <- app_assoc, writes_app, apply_writes_app, <- Hf1, <- Hf2.
  repeat split; try done. apply Forall_app. split; [done|].
  eapply Forall_impl; [exact Hc2|]. intros pf (i & df & Hp & Hdf & Hcols).
  exists i, df. repeat split; try done. intros name Hn. rewrite Hcols, Hs1; done.
Qed.

Lemma progress_exposure Params dict index :
  preserves (progress Params) (exposure Params dict index).
Proof.
  intros w. destruct (exposure_run Params dict index w) as (_ & Hst & Hev).
  split; [exact Hst|].
  destruct Hev as [(Ht & Hf & _)|[(Ht & Hf & _)|(Ht & Hf & _)]].
  - eexists. split; [exact Ht|]. split; [exact Hf | constructor].
  - eexists. split; [exact Ht|]. split; [exact Hf | constructor].
  - eexists. split; [exact Ht|]. split; [exact Hf |].
    constructor; [|constructor]. eexists _, _. repeat split. exact Hst.
Qed.

(** C10.  Every file a run writes is a table [phase{i}.csv] whose
    [wavelength], [photflux], [spotflux] and [facflux] columns are those set
    at start-up from the three model files, the fluxes rescaled once by the
    unit conversion: they do not depend on the exposure index, so they are
    the same in all output files, and the loop never changes them. *)
Theorem static_columns_persist Params fs p f :
  In (EvWrite p f) (trace (snd (run Params fs))) ->
  exists phot spot fac i df,
    fs !! binned_path (teffStar Params) = Some (StellarModelFile phot) /\
    fs !! binned_path (teffSpot Params) = Some (StellarModelFile spot) /\
    fs !! binned_path (teffFac Params) = Some (StellarModelFile fac) /\
    p = output_path Params i /\ f = FrameFile df /\
    get_column "wavelength" df = Some (wavelength phot) /\
    get_column "photflux" df = Some (scale (flux phot) (conversion Params)) /\
    get_column "spotflux" df = Some (scale (flux spot) (conversion Params)) /\
    get_column "facflux" df = Some (scale (flux fac) (conversion Params)).
Proof.
  unfold run, main. intros Hin.
  pose proof (reads_only_startup Params (initial fs)) as Hro.
  unfold bind in Hin.
  destruct (startup Params (initial fs)) as [[e|dict] w1] eqn:Hs; simpl in Hro, Hin.
  - destruct Hro as [_ (evs & Ht & Hw)]. simpl in Ht. rewrite Ht in Hin.
    assert (In (p, f) (writes evs)) as Hc; [|by rewrite Hw in Hc].
    unfold writes. apply in_flat_map. exists (EvWrite p f). split; [done | by left].
  - apply startup_inv in Hs as (phot & spot & fac & Hphot & Hspot & Hfac & _ & _ & Hbase).
    pose proof (preserves_for_each (progress Params) (seq 0 (total_images Params))
                  (exposure Params dict) (progress_exposure Params dict) w1) as [_ Hpr].
    destruct Hpr as (evs & Ht & _ & Hall). rewrite Ht in Hin.
    destruct Hro as [_ (evs0 & Ht0 & Hw0)].
    assert (In (p, f) (writes evs)) as Hc.
    { apply in_app_or in Hin as [Hin|Hin].
      - rewrite Ht0 in Hin. simpl in Hin.
        assert (In (p, f) (writes evs0)) as Hc; [|by rewrite Hw0 in Hc].
        unfold writes. apply in_flat_map. exists (EvWrite p f). split; [done | by left].
      - unfold writes. apply in_flat_map. exists (EvWrite p f). split; [done | by left]. }
    rewrite Forall_forall in Hall. apply list_elem_of_In in Hc.
    destruct (Hall _ Hc) as (i & df & Hp & Hdf & Hcols). simpl in Hp, Hdf.
    exists phot, spot, fac, i, df. rewrite Hbase in Hcols.
    repeat split; try done; rewrite Hcols; try reflexivity;
      unfold static_columns; rewrite !elem_of_cons; auto 10.
Qed.


(** *** Two runs side by side *)

Section Respects.

Context (Params : ParamModel).

Lemma respects_bind {A B} (c : M A) (k : A -> M B) :
  respects Params c -> (forall x, respects Params (k x)) -> respects Params (bind c k).
Proof.
  intros Hc Hk w1 w2 Hw. unfold bind. destruct (Hc w1 w2 Hw) as [Hr Hw'].
  destruct (c w1) as [[e|x] w1'], (c w2) as [[e'|x'] w2']; simpl in *; try done.
  - by injection Hr as ->.
  - injection Hr as ->. by apply Hk.
Qed.

Lemma respects_ret {A} (x : A) : respects Params (ret x).
Proof. by intros w1 w2 Hw. Qed.

Lemma respects_raise {A} e : respects Params (@raise A e).
Proof. by intros w1 w2 Hw. Qed.

Lemma respects_lift {A} (r : Exn + A) : respects Params (lift r).
Proof. by intros w1 w2 Hw. Qed.

Lemma respects_get_models : respects Params get_models.
Proof. intros w1 w2 (Ht & Hm & Hf). simpl. by rewrite Hm. Qed.

Lemma respects_modify f : respects Params (modify f).
Proof.
  intros w1 w2 (Ht & Hm & Hf). simpl. split; [done|].
  unfold alike. simpl. by rewrite Hm.
Qed.

Lemma respects_read_file p : input_path Params p -> respects Params (read_file p).
Proof.
  intros Hp w1 w2 (Ht & Hm & Hf). unfold read_file. rewrite (Hf p Hp).
  destruct (files w2 !! p); simpl; (split; [done|]); unfold alike; simpl; by rewrite Ht.
Qed.

Lemma respects_write_file p f : respects Params (write_file p f).
Proof.
  intros w1 w2 (Ht & Hm & Hf). simpl. split; [done|]. unfold alike. simpl.
  rewrite Ht. repeat split; try done.
  intros q Hq. destruct (decide (p = q)) as [->|Hne].
  - by rewrite !lookup_insert_eq.
  - rewrite !lookup_insert_ne by done. by apply Hf.
Qed.

Lemma respects_for_each {A} (l : list A) (body : A -> M unit) :
  (forall x, respects Params (body x)) -> respects Params (for_each l body).
Proof.
  intros Hb. induction l as [|x l IH]; simpl.
  - apply respects_ret.
  - apply respects_bind; auto.
Qed.

Lemma input_binned_path teff : input_path Params (binned_path teff).
Proof. intros i. unfold binned_path, output_path. by intros [=]. Qed.

Lemma input_coverage_path : input_path Params (coverage_path Params).
Proof. intros i. unfold coverage_path, output_path. by intros [=]. Qed.

Lemma input_reflection_path phase : input_path Params (reflection_path Params phase).
Proof. intros i. unfold reflection_path, output_path. by intros [=]. Qed.

Lemma input_thermal_path phase : input_path Params (thermal_path Params phase).
Proof. intros i. unfold thermal_path, output_path. by intros [=]. Qed.

Ltac respects_steps :=
  repeat first
    [ apply respects_ret | apply respects_raise | apply respects_lift
    | apply respects_get_models | apply respects_modify | apply respects_write_file
    | apply respects_read_file;
        first [ apply input_binned_path | apply input_coverage_path
              | apply input_reflection_path | apply input_thermal_path ]
    | apply respects_for_each
    | apply respects_bind
    | match goal with
      | |- respects _ (match ?x with _ => _ end) => destruct x
      | |- respects _ (if ?x then _ else _) => destruct x
      end
    | match goal with |- forall _, respects _ _ => intros ? end ].

Lemma respects_item d key : respects Params (item d key).
Proof. unfold item. respects_steps. Qed.

Lemma respects_coverage_at d key : respects Params (coverage_at d key).
Proof. unfold coverage_at. respects_steps. Qed.

Lemma respects_column name : respects Params (column name).
Proof. unfold column. respects_steps. Qed.

Lemma respects_assign_column name values : respects Params (assign_column name values).
Proof. unfold assign_column. respects_steps. Qed.

Lemma respects_read_stellar_model teff : respects Params (read_stellar_model (binned_path teff)).
Proof. unfold read_stellar_model. respects_steps. Qed.

Lemma respects_read_coverage : respects Params (read_coverage (coverage_path Params)).
Proof. unfold read_coverage. respects_steps. Qed.

Lemma respects_read_reflection phase :
  respects Params (read_reflection (reflection_path Params phase)).
Proof. unfold read_reflection. respects_steps. Qed.

Lemma respects_read_thermal phase : respects Params (read_thermal (thermal_path Params phase)).
Proof. unfold read_thermal. respects_steps. Qed.

Lemma respects_check_wavelengths phot spot fac :
  respects Params (check_wavelengths phot spot fac).
Proof. unfold check_wavelengths. respects_steps. Qed.

Ltac respects_script :=
  repeat first
    [ apply respects_item | apply respects_coverage_at | apply respects_column
    | apply respects_assign_column | apply respects_read_stellar_model
    | apply respects_read_coverage | apply respects_read_reflection
    | apply respects_read_thermal | apply respects_check_wavelengths
    | apply respects_ret | apply respects_lift | apply respects_get_models
    | apply respects_modify | apply respects_write_file
    | apply respects_bind
    | match goal with |- forall _, respects _ _ => intros ? end ].

Lemma respects_calculate_combined_spectrum d d' phase :
  respects Params (calculate_combined_spectrum Params d d' phase).
Proof. unfold calculate_combined_spectrum. respects_script. Qed.

Lemma respects_calculate_planet_flux phase : respects Params (calculate_planet_flux phase).
Proof. unfold calculate_planet_flux. respects_script. Qed.

Lemma respects_startup : respects Params (startup Params).
Proof. unfold startup. respects_script. Qed.

Lemma respects_exposure dict index : respects Params (exposure Params dict index).
Proof.
  unfold exposure.
  repeat first
    [ apply respects_calculate_combined_spectrum | apply respects_calculate_planet_flux
    | progress respects_script ].
Qed.

Lemma respects_main : respects Params (main Params).
Proof.
  unfold main. apply respects_bind; [apply respects_startup|]. intros dict.
  apply respects_for_each. intros index. apply respects_exposure.
Qed.

End Respects.


Lemma apply_writes_cons (pf : Path * File) (ws : list (Path * File)) (fs : gmap Path File) :
  apply_writes (pf :: ws) fs = apply_writes ws (<[fst pf := snd pf]> fs).
Proof. reflexivity. Qed.

Lemma apply_writes_snoc (ws : list (Path * File)) (pf : Path * File) (fs : gmap Path File) :
  apply_writes (ws ++ [pf]) fs = <[fst pf := snd pf]> (apply_writes ws fs).
Proof. by rewrite apply_writes_app. Qed.

(** The content of a path after the writes depends on its content before
    them only. *)
Lemma apply_writes_lookup_ext (ws : list (Path * File)) (fs fs' : gmap Path File) (p : Path) :
  fs !! p = fs' !! p -> apply_writes ws fs !! p = apply_writes ws fs' !! p.
Proof.
  revert fs fs'. induction ws as [|[q f] ws IH]; intros fs fs' H; [done|].
  rewrite !apply_writes_cons. apply IH. simpl.
  destruct (decide (q = p)) as [->|Hne].
  - by rewrite !lookup_insert_eq.
  - by rewrite !lookup_insert_ne.
Qed.

(** Writing the same sequence a second time changes nothing. *)
Lemma apply_writes_idem (ws : list (Path * File)) (fs : gmap Path File) :
  apply_writes ws (apply_writes ws fs) = apply_writes ws fs.
Proof.
  induction ws as [|[q f] ws IH] using rev_ind; [done|].
  apply map_eq. intros p. rewrite !apply_writes_snoc. simpl.
  destruct (decide (q = p)) as [->|Hne].
  - by rewrite !lookup_insert_eq.
  - rewrite !lookup_insert_ne by done.
    rewrite <- IH at 2. apply apply_writes_lookup_ext. by rewrite lookup_insert_ne.
Qed.

Lemma apply_writes_input (Params : ParamModel) (ws : list (Path * File)) (fs : gmap Path File) (p : Path) :
  Forall (fun pf : Path * File => exists i, fst pf = output_path Params i) ws ->
  input_path Params p -> apply_writes ws fs !! p = fs !! p.
Proof.
  intros Hws Hp. revert fs. induction Hws as [|[q f] ws (i & Hq) _ IH]; intros fs; [done|].
  rewrite apply_writes_cons, IH. simpl in *. subst q.
  apply lookup_insert_ne. intros H. by apply (Hp i).
Qed.

(** The files after a run are the files before it with its writes applied,
    and every write goes to an output path. *)
Lemma run_footprint (Params : ParamModel) (fs : gmap Path File) :
  let w' := snd (run Params fs) in
  files w' = apply_writes (writes (trace w')) fs /\
  Forall (fun pf : Path * File => exists i, fst pf = output_path Params i) (writes (trace w')).
Proof.
  unfold run, main, bind.
  pose proof (reads_only_startup Params (initial fs)) as Hro.
  destruct (startup Params (initial fs)) as [[e|dict] w1] eqn:Hs; simpl in Hro |- *;
    destruct Hro as [Hf0 (evs0 & Ht0 & Hw0)]; simpl in Ht0.
  - rewrite Ht0, Hw0. done.
  - pose proof (preserves_for_each (progress Params) (seq 0 (total_images Params))
                  (exposure Params dict) (progress_exposure Params dict) w1) as [_ Hpr].
    destruct Hpr as (evs & Ht & Hf & Hall).
    rewrite Ht, Ht0, writes_app, Hw0, Hf, Hf0. simpl. split; [done|].
    eapply Forall_impl; [exact Hall|]. intros pf (i & df & Hp & _). eauto.
Qed.

(** C9.  Running the script a second time on the files the first run left
    behind, with the same parameters, ends the same way (normally, or with
    the same exception), performs the same reads and writes in the same
    order with the same contents, and leaves the same files: the output
    tables of the two runs are identical. *)
Theorem rerun_identical (Params : ParamModel) (fs : gmap Path File) :
  let first := run Params fs in
  let second := run Params (files (snd first)) in
  fst second = fst first /\
  trace (snd second) = trace (snd first) /\
  writes (trace (snd second)) = writes (trace (snd first)) /\
  files (snd second) = files (snd first).
Proof.
  intros first second.
  destruct (run_footprint Params fs) as [Hf1 Hout]. fold first in Hf1, Hout.
  destruct (run_footprint Params (files (snd first))) as [Hf2 _]. fold second in Hf2.
  assert (Halike : alike Params (initial fs) (initial (files (snd first)))).
  { repeat split; try done. intros p Hp. simpl. rewrite Hf1.
    symmetry. by apply (apply_writes_input Params). }
  destruct (respects_main Params _ _ Halike) as [Hr (Ht & _ & _)].
  fold (run Params fs) in Hr, Ht. fold (run Params (files (snd first))) in Hr, Ht.
  fold first in Hr, Ht. fold second in Hr, Ht.
  repeat split; try done.
  - by rewrite Ht.
  - rewrite Hf2, <- Ht, Hf1. apply apply_writes_idem.
Qed.

End PipelineFacts.

(** ** The analyzer *)

Module AnalysisFacts.

Import Analysis.

(** *** [unique_phase] *)

(** One turn of the [while] loop is all there ever is: its body raises. *)
Lemma catch_up_run fuel prev x :
  catch_up (S fuel) prev {| value := x; unit := u_deg |} =
  if Qclt_le_dec x prev then Some (inl UnitConversionError)
  else Some (inr {| value := x; unit := u_deg |}).
Proof. simpl. destruct (Qclt_le_dec x prev); reflexivity. Qed.

Lemma unwrap_nondecreasing prev rest :
  nondecreasing (prev :: rest) -> unwrap u_deg prev rest = Some (inr rest).
Proof.
  revert prev. induction rest as [|x rest IH]; intros prev H; [done|].
  destruct H as [Hle H]. cbn [unwrap]. unfold steps. rewrite catch_up_run.
  destruct (Qclt_le_dec x prev) as [Hlt|_].
  - exfalso. by apply Qclt_not_le in Hlt.
  - cbn [value]. by rewrite IH.
Qed.

Lemma unwrap_descent prev rest :
  ~ nondecreasing (prev :: rest) -> unwrap u_deg prev rest = Some (inl UnitConversionError).
Proof.
  revert prev. induction rest as [|x rest IH]; intros prev H; [by destruct H|].
  cbn [unwrap]. unfold steps. rewrite catch_up_run.
  destruct (Qclt_le_dec x prev) as [Hlt|Hle]; [done|].
  cbn [value]. rewrite IH; [done|]. intros Hn. apply H. by split.
Qed.

(** The loop always ends. *)
Lemma compute_unique_phase_total phase_deg : compute_unique_phase phase_deg <> None.
Proof.
  destruct phase_deg as [|x rest]; [done|]. unfold compute_unique_phase.
  assert (H : unwrap u_deg x rest <> None); [|by destruct (unwrap u_deg x rest) as [[]|]].
  revert x. induction rest as [|y rest IH]; intros x; [done|].
  cbn [unwrap]. unfold steps. rewrite catch_up_run.
  destruct (Qclt_le_dec y x); [done|]. cbn [value]. specialize (IH y).
  by destruct (unwrap u_deg y rest) as [[]|].
Qed.

(** Phases that never decrease come back as they are. *)
Lemma compute_unique_phase_nondecreasing phase_deg :
  phase_deg <> [] ->
  nondecreasing phase_deg -> compute_unique_phase phase_deg = Some (inr phase_deg).
Proof.
  destruct phase_deg as [|x rest]; [done|]. intros _ H. unfold compute_unique_phase.
  by rewrite unwrap_nondecreasing.
Qed.

(** Any decrease ends the construction with a unit error. *)
Lemma compute_unique_phase_descent phase_deg :
  ~ nondecreasing phase_deg -> compute_unique_phase phase_deg = Some (inl UnitConversionError).
Proof.
  destruct phase_deg as [|x rest]; [by intros []|]. intros H. unfold compute_unique_phase.
  by rewrite unwrap_descent.
Qed.

(** C3.  On the raw phases [350, 10, 20] degrees the constructor does not
    produce the unwrapped sequence [350, 370, 380]: the first step down makes
    it add [360 * u.deg_C], a temperature, to an angle, and the addition
    raises [UnitConversionError]. *)
Theorem unique_phase_350_10_20 :
  compute_unique_phase [num 350; num 10; num 20] = Some (inl UnitConversionError).
Proof. vm_compute. reflexivity. Qed.

(** *** Slices and indices *)

Lemma slice_prefix {A} (l : list A) (N : nat) :
  (N <= length l)%nat -> PySeq.slice 0 (Z.of_nat N) l = take N l.
Proof.
  intros H. unfold PySeq.slice, PySeq.clamp.
  rewrite (proj2 (Z.ltb_ge 0 0)) by lia.
  rewrite (proj2 (Z.ltb_ge _ 0)) by lia.
  rewrite Nat2Z.id. simpl. rewrite Nat.min_l by lia. by rewrite Nat.sub_0_r.
Qed.

Lemma index_0 {A} (l : list A) : PySeq.index l 0 = l !! 0%nat.
Proof.
  unfold PySeq.index. destruct l as [|x l]; [done|].
  rewrite (proj2 (andb_true_iff _ _)); [done|].
  split; [by apply Z.leb_le | apply Z.ltb_lt; simpl; lia].
Qed.

Local Open Scope R_scope.

Lemma sum_squares_nonneg (l : list R) : 0 <= sum (map (fun v => v ^ 2) l).
Proof.
  induction l as [|x l IH]; simpl; [lra|].
  unfold sum in *. simpl. pose proof (pow2_ge_0 x). simpl in *. lra.
Qed.

(** The standard error of the mean, in its two readings. *)
Lemma sqrt_over_square (s : R) (N : nat) :
  (1 <= N)%nat -> 0 <= s -> sqrt (s / INR N ^ 2) = sqrt s / INR N.
Proof.
  intros HN Hs. assert (0 < INR N) by (apply lt_0_INR; lia).
  rewrite sqrt_div_alt by (apply pow_lt; lra).
  rewrite sqrt_pow2 by lra. done.
Qed.

(** C4.  For an analyzer with at least [N >= 1] exposures,
    [combine('noise', (0, N))] returns, for each wavelength, the square root
    of the sum of the squared noise of exposures [0 .. N-1] divided by [N]
    squared, which is the square root of the sum divided by [N]; neither the
    [noise] flag nor the random draw has any effect on the result. *)
Theorem combine_noise (normal : list R -> list R) (a : PhaseAnalyzer) (N : nat) (flag : bool) :
  (1 <= N)%nat -> (N <= N_images a)%nat ->
  Forall (fun row => length row = N_images a) (noise a) ->
  combine normal a "noise" (0%Z, Z.of_nat N) flag =
    inr (map (fun row => sqrt (sum (map (fun v => v ^ 2) (take N row)) / INR N ^ 2)) (noise a)) /\
  combine normal a "noise" (0%Z, Z.of_nat N) flag =
    inr (map (fun row => sqrt (sum (map (fun v => v ^ 2) (take N row))) / INR N) (noise a)) /\
  forall normal' flag',
    combine normal' a "noise" (0%Z, Z.of_nat N) flag' =
    combine normal a "noise" (0%Z, Z.of_nat N) flag.
Proof.
  intros HN HNa Hrect.
  assert (Hcount : length (PySeq.slice 0 (Z.of_nat N) (seq 0 (N_images a))) = N).
  { rewrite slice_prefix by (rewrite length_seq; lia).
    rewrite length_take, length_seq. lia. }
  assert (H1 : combine normal a "noise" (0%Z, Z.of_nat N) flag =
    inr (map (fun row => sqrt (sum (map (fun v => v ^ 2) (take N row)) / INR N ^ 2)) (noise a))).
  { unfold combine. rewrite decide_True by done. rewrite Hcount. f_equal.
    rewrite map_map. apply map_ext_in. intros row Hrow.
    rewrite Forall_forall in Hrect. apply list_elem_of_In in Hrow.
    rewrite slice_prefix by (rewrite (Hrect row Hrow); lia). done. }
  split; [exact H1|]. split.
  - rewrite H1. f_equal. apply map_ext. intros row.
    apply sqrt_over_square; [done | apply sum_squares_nonneg].
  - intros normal' flag'. unfold combine. by rewrite !decide_True.
Qed.

(** C7.  For a source array and a spectral bin [k] whose flux at exposure 0
    is not zero, [lightcurve(source, k, normalize=0)] with noise off returns
    a dimensionless series, each value of the bin divided by its value at
    exposure 0, so that the value at exposure 0 is exactly 1. *)
Theorem lightcurve_normalized (normal : list R -> list R) (a : PhaseAnalyzer)
    (source : string) (arr : list (list R)) (k : Z) (y : list R) (y0 : R) :
  getattr a source = inr arr ->
  PySeq.index arr k = Some y ->
  PySeq.index y 0 = Some y0 ->
  y0 <> 0 ->
  exists s,
    lightcurve normal a source (PixelInt k) (NormInt 0) false = inr s /\
    series_unit s = u_dimensionless /\
    values s = map (fun v => v / y0) y /\
    PySeq.index (values s) 0 = Some 1.
Proof.
  intros Hsrc Hrow Hy0 Hnz. unfold lightcurve. rewrite Hsrc, Hrow, Hy0.
  eexists. split; [reflexivity|]. simpl. repeat split.
  rewrite index_0 in *. destruct y as [|v y]; [done|]. simpl in *.
  injection Hy0 as ->. f_equal. by field.
Qed.

End AnalysisFacts.

(** ** The header *)

Module ReadFacts.

Import Read Examples.

(** C6.  Constructing a [Header] from the three required arguments alone,
    without [seed], does not give a header whose seed is [None]: [seed] has
    no default in the signature of [__init__] and the call raises
    [TypeError]. *)
Theorem Header_without_seed :
  Header_init [] without_seed = inl (TypeError "missing required argument: seed").
Proof. vm_compute. reflexivity. Qed.

(** No call that leaves [seed] out gets past the signature. *)
Lemma Header_requires_seed (args : list PyVal) (kwargs : gmap string PyVal) :
  (length args <= 3)%nat -> kwargs !! "seed" = None ->
  exists msg, Header_init args kwargs = inl (TypeError msg).
Proof.
  intros Hlen Hseed. unfold Header_init, call.
  destruct (bool_decide _); [|eauto].
  unfold Header_signature.
  destruct args as [|a1 [|a2 [|a3 [|a4 args]]]]; simpl in Hlen; try lia;
    cbn [bind_parameters];
    repeat (match goal with
            | |- context [match ?m !! ?k with _ => _ end] =>
                first [rewrite Hseed | destruct (m !! k)]
            end; cbn [bind_parameters]); eauto.
Qed.

(** The factory always passes [seed], so a mapping without it gives a header
    whose seed is [None], once [Path] and [u.Quantity] have taken the three
    required values. *)
Lemma from_dict_without_seed quantity_error (d : gmap string PyVal) p tmin tmax pv qmin qmax :
  d !! "data_path" = Some p -> d !! "teff_min" = Some tmin -> d !! "teff_max" = Some tmax ->
  py_Path p = inr pv -> py_Quantity quantity_error tmin = inr qmin ->
  py_Quantity quantity_error tmax = inr qmax ->
  d !! "seed" = None ->
  exists h, _from_dict quantity_error d = inr h /\ seed h = PNone /\
            data_path h = pv /\ teff_min h = qmin /\ teff_max h = qmax.
Proof.
  intros Hp Hmin Hmax Hpv Hqmin Hqmax Hseed. unfold _from_dict, getitem, get.
  rewrite Hp, Hpv, Hmin, Hqmin, Hmax, Hqmax, Hseed. cbn [default].
  eexists. split; [vm_compute; reflexivity|]. done.
Qed.

(** A seed that is present is coerced with [int]. *)
Lemma from_dict_with_seed quantity_error (d : gmap string PyVal) p tmin tmax pv qmin qmax v z :
  d !! "data_path" = Some p -> d !! "teff_min" = Some tmin -> d !! "teff_max" = Some tmax ->
  py_Path p = inr pv -> py_Quantity quantity_error tmin = inr qmin ->
  py_Quantity quantity_error tmax = inr qmax ->
  d !! "seed" = Some v -> v <> PNone -> py_int v = inr z ->
  exists h, _from_dict quantity_error d = inr h /\ seed h = PInt z.
Proof.
  intros Hp Hmin Hmax Hpv Hqmin Hqmax Hseed Hv Hz. unfold _from_dict, getitem, get.
  rewrite Hp, Hpv, Hmin, Hqmin, Hmax, Hqmax, Hseed. cbn -[py_int Header_init].
  destruct v; try done; rewrite Hz;
    (eexists; split; [vm_compute; reflexivity | done]).
Qed.

End ReadFacts.

(** ** The pipeline on the concrete inputs *)

Module PipelineExamples.

Import Pandas SpectraBuilder Invariants PandasFacts PipelineFacts Examples.
Local Open Scope Qc_scope.

(** The combination on the two-row table, with coverage 0.6, 0.2, 0.2 towards
    the observer and 0.7, 0.2, 0.1 towards the planet. *)
Lemma sumflux_linear_witness :
  exists w' sumflux sumfluxTowardsPlanet,
    calculate_combined_spectrum params (coverage 6 2 2) (coverage 7 2 1) 0 loaded = (inr tt, w') /\
    get_column "sumflux" (table w') = Some sumflux /\
    get_column "sumfluxTowardsPlanet" (table w') = Some sumfluxTowardsPlanet /\
    length sumflux = 2%nat /\
    length sumfluxTowardsPlanet = 2%nat /\
    forall j x y z,
      [num 20; num 40] !! j = Some x -> [num 2; num 4] !! j = Some y ->
      [num 60; num 80] !! j = Some z ->
      sumflux !! j = Some (tenths 6 * x + tenths 2 * y + tenths 2 * z) /\
      sumfluxTowardsPlanet !! j = Some (tenths 7 * x + tenths 2 * y + tenths 1 * z).
Proof.
  apply (sumflux_linear params (coverage 6 2 2) (coverage 7 2 1) 0 loaded
           [num 20; num 40] [num 2; num 4] [num 60; num 80]
           (tenths 6) (tenths 2) (tenths 2) (tenths 7) (tenths 2) (tenths 1));
    try (vm_compute; reflexivity).
  apply Qc_is_canon. reflexivity.
Defined.

(** The single exposure of [params] has raw planet phase 180 and goes on with
    phase 182. *)
Lemma phase_substitution_witness :
  Py.mod_ (phase1 params + delta_phase_planet params * Py.of_nat 0) (num 360) = num 180 /\
  planetPhase (allModels (snd (exposure params ∅ 0 (initial store)))) = num 182 /\
  starPhaseFacingPlanet (allModels (snd (exposure params ∅ 0 (initial store)))) = num 0.
Proof.
  assert (H : Py.mod_ (phase1 params + delta_phase_planet params * Py.of_nat 0) (num 360)
              = num 180) by (apply Qc_is_canon; reflexivity).
  split; [exact H|].
  destruct (phase_substitution params ∅ 0 (initial store) (num 182) (or_introl (conj H eq_refl)))
    as (_ & _ & _ & _ & Hp & _ & Hf).
  split; [exact Hp|]. rewrite Hf. apply Qc_is_canon. reflexivity.
Defined.

(** A spot model on another grid stops the run after the three reads. *)
Lemma wavelength_mismatch_aborts_witness :
  exists msg w',
    run params mismatched_store = (inl (ValueError msg), w') /\
    files w' = mismatched_store /\
    writes (trace w') = [] /\
    trace w' = [EvRead (binned_path "3000"); EvRead (binned_path "2600");
                EvRead (binned_path "3100")].
Proof.
  apply (wavelength_mismatch_aborts params mismatched_store phot_rows shifted_rows fac_rows);
    try (vm_compute; reflexivity).
  intros [H _]. vm_compute in H. discriminate H.
Defined.

(** The file written by the run on [store] carries the start-up columns. *)
Lemma static_columns_persist_witness :
  exists p f,
    In (EvWrite p f) (trace (snd (run params store))) /\
    exists df,
      p = output_path params 0 /\ f = FrameFile df /\
      get_column "wavelength" df = Some [num 1; num 2] /\
      get_column "photflux" df = Some [num 20; num 40] /\
      get_column "spotflux" df = Some [num 2; num 4] /\
      get_column "facflux" df = Some [num 60; num 80].
Proof.
  assert (H : exists p f, In (EvWrite p f) (trace (snd (run params store))) /\
                          p = output_path params 0).
  { eexists _, _. split; [vm_compute; do 6 right; left; reflexivity|].
    vm_compute. reflexivity. }
  destruct H as (p & f & H & Hp). exists p, f. split; [exact H|].
  destruct (static_columns_persist params store p f H)
    as (phot & spot & fac & i & df & Hphot & Hspot & Hfac & _ & Hf & H1 & H2 & H3 & H4).
  assert (Ephot : store !! binned_path (teffStar params) = Some (StellarModelFile phot_rows))
    by (vm_compute; reflexivity).
  assert (Espot : store !! binned_path (teffSpot params) = Some (StellarModelFile spot_rows))
    by (vm_compute; reflexivity).
  assert (Efac : store !! binned_path (teffFac params) = Some (StellarModelFile fac_rows))
    by (vm_compute; reflexivity).
  rewrite Ephot in Hphot. rewrite Espot in Hspot. rewrite Efac in Hfac.
  injection Hphot as <-. injection Hspot as <-. injection Hfac as <-.
  exists df. repeat split; try assumption.
Defined.
(** With two exposures and the planet starting at 183, the first exposure
    computes 3 for the star phase facing the planet and resets it to 0. *)
Lemma boundary_wrap_witness :
  Py.mod_ (num 180 - Py.mod_ (delta_phase_star wrap_params * Py.of_nat 0) (num 360)
           + Py.mod_ (phase1 wrap_params + delta_phase_planet wrap_params * Py.of_nat 0)
               (num 360)) (num 360) = Py.of_nat (total_images wrap_params + 1) /\
  starPhaseFacingPlanet (update_phases wrap_params 0 (allModels (initial store))) = num 0 /\
  starPhaseFacingPlanet (allModels (snd (exposure wrap_params ∅ 0 (initial store)))) = num 0.
Proof.
  assert (H : Py.mod_ (num 180 - Py.mod_ (delta_phase_star wrap_params * Py.of_nat 0) (num 360)
           + Py.mod_ (phase1 wrap_params + delta_phase_planet wrap_params * Py.of_nat 0)
               (num 360)) (num 360) = Py.of_nat (total_images wrap_params + 1))
    by (apply Qc_is_canon; reflexivity).
  split; [exact H|].
  destruct (boundary_wrap wrap_params ∅ 0 (initial store)) as (Hf & _ & He).
  rewrite Hf, He. rewrite decide_True by exact H. split; reflexivity.
Defined.

End PipelineExamples.

(** ** The analyzer on the concrete data set *)

Module AnalysisExamples.

Import Analysis AnalysisFacts Examples.
Local Open Scope R_scope.

(** Both exposures of the two-bin data set combined. *)
Lemma combine_noise_witness :
  combine still analyzer "noise" (0%Z, 2%Z) true =
    inr (map (fun row => sqrt (sum (map (fun v => v ^ 2) (take 2 row)) / INR 2 ^ 2))
             (noise analyzer)) /\
  combine still analyzer "noise" (0%Z, 2%Z) true =
    inr (map (fun row => sqrt (sum (map (fun v => v ^ 2) (take 2 row))) / INR 2)
             (noise analyzer)) /\
  forall normal' flag',
    combine normal' analyzer "noise" (0%Z, 2%Z) flag' =
    combine still analyzer "noise" (0%Z, 2%Z) true.
Proof.
  apply (combine_noise still analyzer 2 true); [lia | simpl; lia |].
  repeat constructor.
Defined.

(** The second bin of the star array, referred to its first exposure. *)
Lemma lightcurve_normalized_witness :
  exists s,
    lightcurve still analyzer "star" (PixelInt 1) (NormInt 0) false = inr s /\
    series_unit s = u_dimensionless /\
    values s = map (fun v => v / 3) [3; 6] /\
    PySeq.index (values s) 0 = Some 1.
Proof.
  apply (lightcurve_normalized still analyzer "star" (star analyzer) 1 [3; 6] 3);
    try reflexivity.
  lra.
Defined.
End AnalysisExamples.

(** * Further properties *)

Module NumberFacts.
Import Pandas.
Local Open Scope Qc_scope.

Ltac to_Q :=
  unfold Qcdiv, Qcminus in *;
  unfold Qcle, Qclt, Qcplus, Qcmult, Qcopp, Qcinv, Q2Qc in *;
  cbn [this] in *; rewrite ?Qred_correct in *.

Lemma Qcabs_nonneg (a : Qc) : Q2Qc 0 <= Qcabs a.
Proof.
  unfold Qcabs. destruct (Qclt_le_dec a (Q2Qc 0)) as [H|H]; [|exact H].
  to_Q. Lqa.lra.
Qed.

Lemma Qcdiv_nonneg (a s : Qc) : Q2Qc 0 <= a -> Q2Qc 0 < s -> Q2Qc 0 <= a / s.
Proof.
  intros Ha Hs. to_Q.
  apply Qmult_le_0_compat; [exact Ha|]. apply Qinv_le_0_compat. Lqa.lra.
Qed.

Lemma Qcmult_nonneg (a b : Qc) : Q2Qc 0 <= a -> Q2Qc 0 <= b -> Q2Qc 0 <= a * b.
Proof. intros Ha Hb. to_Q. by apply Qmult_le_0_compat. Qed.

Lemma Qcplus_ge_r (a t : Qc) : Q2Qc 0 <= a -> t <= a + t.
Proof. intros Ha. to_Q. Lqa.lra. Qed.

(** [x % m] lies in [[0, m)] for a positive modulus. *)
Lemma mod_bounds (x m : Qc) : Q2Qc 0 < m -> Q2Qc 0 <= Py.mod_ x m /\ Py.mod_ x m < m.
Proof.
  intros Hm. unfold Py.mod_, Py.floor, Py.of_Z.
  set (q := this (x / m)).
  pose proof (Qfloor_le q) as Hlo. pose proof (Qlt_floor q) as Hhi.
  rewrite inject_Z_plus in Hhi. change (inject_Z 1) with 1%Q in Hhi.
  assert (Hm' : (0 < this m)%Q).
  { unfold Qclt, Q2Qc in Hm. cbn [this] in Hm. by rewrite Qred_correct in Hm. }
  assert (Hx : (this x == this m * q)%Q).
  { subst q. unfold Qcdiv. unfold Qcmult, Qcinv, Q2Qc. cbn [this]. rewrite !Qred_correct.
    field. Lqa.lra. }
  set (f := inject_Z (Qfloor q)) in *. clearbody f. clearbody q. clear Hm.
  unfold Qcminus. unfold Qcle, Qclt, Qcplus, Qcopp, Qcmult, Q2Qc. cbn [this].
  rewrite ?Qred_correct. rewrite Hx. split; Lqa.nra.
Qed.

Lemma Qc_nonneg_num (z : Z) : (0 <= z)%Z -> Q2Qc 0 <= num z.
Proof.
  intros Hz. unfold Py.of_Z, Qcle, Q2Qc. cbn [this]. rewrite !Qred_correct.
  change 0%Q with (inject_Z 0). by rewrite <- Zle_Qle.
Qed.

Lemma Qc_num_lt (a b : Z) : (a < b)%Z -> num a < num b.
Proof.
  intros H. unfold Py.of_Z, Qclt, Q2Qc. cbn [this]. rewrite !Qred_correct.
  by rewrite <- Zlt_Qlt.
Qed.

Lemma round_half_even_floor (y : Qc) :
  Py.round_half_even y = Py.floor y \/ Py.round_half_even y = (Py.floor y + 1)%Z.
Proof.
  unfold Py.round_half_even. destruct (Qccompare _ _); [destruct (Z.even _)| |]; auto.
Qed.

(** [round(x, 3)] of a value in [[0, 360)] lies in [[0, 360]]. *)
Lemma round_bounds (x : Qc) :
  Q2Qc 0 <= x -> x < num 360 -> Q2Qc 0 <= Py.round x 3 /\ Py.round x 3 <= num 360.
Proof.
  intros Hlo Hhi. unfold Py.round.
  set (y := x * Py.pow10 3).
  assert (Hp : (this (Py.pow10 3) == 1000)%Q) by reflexivity.
  assert (Hy : (this y == this x * 1000)%Q).
  { subst y. unfold Qcmult, Q2Qc. cbn [this]. by rewrite Qred_correct, Hp. }
  assert (Hx0 : (0 <= this x)%Q).
  { unfold Qcle, Q2Qc in Hlo. cbn [this] in Hlo. by rewrite Qred_correct in Hlo. }
  assert (Hx1 : (this x < 360)%Q).
  { unfold Qclt, Py.of_Z, Q2Qc in Hhi. cbn [this] in Hhi. by rewrite Qred_correct in Hhi. }
  assert (Hf0 : (0 <= Py.floor y)%Z).
  { unfold Py.floor. change 0%Z with (Qfloor 0). apply Qfloor_resp_le. rewrite Hy. Lqa.lra. }
  assert (Hf1 : (Py.floor y < 360000)%Z).
  { unfold Py.floor. rewrite Zlt_Qlt. eapply Qle_lt_trans; [apply Qfloor_le|].
    rewrite Hy. change (inject_Z 360000) with 360000%Q. Lqa.lra. }
  assert (Hr : (0 <= Py.round_half_even y <= 360000)%Z).
  { destruct (round_half_even_floor y) as [->| ->]; lia. }
  clearbody y. set (r := Py.round_half_even y) in *. clearbody r.
  unfold Qcdiv. unfold Qcle, Qcmult, Qcinv, Py.of_Z, Q2Qc. cbn [this].
  rewrite !Qred_correct, Hp.
  destruct Hr as [Hr0 Hr1]. rewrite Zle_Qle in Hr0, Hr1.
  change (inject_Z 0) with 0%Q in Hr0. change (inject_Z 360000) with 360000%Q in Hr1.
  change (inject_Z 360) with 360%Q. change (/ 1000)%Q with (1 # 1000)%Q.
  split; Lqa.lra.
Qed.

End NumberFacts.

(** ** More on the pipeline: the phases of an exposure *)

Module PhaseFacts.

Import Pandas SpectraBuilder PipelineFacts NumberFacts.
Local Open Scope Qc_scope.

Lemma mod_360_bounds (x : Qc) : num 0 <= Py.mod_ x (num 360) /\ Py.mod_ x (num 360) < num 360.
Proof. apply mod_bounds. apply (Qc_num_lt 0 360). done. Qed.

Lemma phases_in_range_aux (Params : ParamModel) (index : nat) (m : Models) :
  num 0 <= starPhaseFacingPlanet (update_phases Params index m) /\
  starPhaseFacingPlanet (update_phases Params index m) < num 360.
Proof.
  destruct (update_phases_fields Params index m) as (_ & _ & Hf). rewrite Hf.
  case_decide; [|apply mod_360_bounds].
  split; [apply (Qc_nonneg_num 0) | apply (Qc_num_lt 0 360)]; done.
Qed.

(** X18.  The phases an exposure works with: the planet phase lies in
    [[0, 360]], is never 180 or 185, and is the raw phase whenever the raw
    phase is neither of the two; the star phase and the star phase facing the
    planet lie in [[0, 360]].  The bound 360 is included because the
    remainder of a floating-point division can be rounded up to the modulus
    itself; it is not reached in exact arithmetic. *)
Theorem phases_in_range (Params : ParamModel) (index : nat) (m : Models) :
  let raw := Py.mod_ (phase1 Params + delta_phase_planet Params * Py.of_nat index) (num 360) in
  let m' := update_phases Params index m in
  (num 0 <= planetPhase m' /\ planetPhase m' <= num 360) /\
  planetPhase m' <> num 180 /\ planetPhase m' <> num 185 /\
  (raw <> num 180 -> raw <> num 185 -> planetPhase m' = raw) /\
  (num 0 <= starPhase m' /\ starPhase m' <= num 360) /\
  (num 0 <= starPhaseFacingPlanet m' /\ starPhaseFacingPlanet m' <= num 360).
Proof.
  intros raw m'. destruct (update_phases_fields Params index m) as (Hp & Hs & Hf).
  fold raw m' in Hp, Hs, Hf. rewrite Hp, Hs, Hf. clear Hp Hs Hf.
  assert (Hweak : forall x : Qc, num 0 <= x /\ x < num 360 -> num 0 <= x /\ x <= num 360).
  { intros x [H1 H2]. split; [exact H1 | by apply Qclt_le_weak]. }
  assert (H0 : num 0 <= num 0 /\ num 0 < num 360).
  { split; [apply (Qc_nonneg_num 0) | apply (Qc_num_lt 0 360)]; done. }
  split; [|split; [|split; [|split; [|split]]]].
  - apply Hweak. repeat case_decide.
    + split; [apply (Qc_nonneg_num 182) | apply (Qc_num_lt 182 360)]; done.
    + split; [apply (Qc_nonneg_num 186) | apply (Qc_num_lt 186 360)]; done.
    + apply mod_360_bounds.
  - repeat case_decide; [by intros [=] | by intros [=] | done].
  - repeat case_decide; [by intros [=] | by intros [=] | done].
  - intros H1 H2. by rewrite !decide_False.
  - apply Hweak, mod_360_bounds.
  - apply Hweak. case_decide; [exact H0 | apply mod_360_bounds].
Qed.

(** X19.  The two keys of the coverage lookup lie in [[0, 360)]: the star
    phase by the reduction modulo 360 after rounding, the star phase facing
    the planet because a value that rounds up to 360 is set to 0. *)
Theorem coverage_keys_in_range (Params : ParamModel) (index : nat) (m : Models) :
  let m' := update_phases Params index m in
  (num 0 <= tempPhase m' /\ tempPhase m' < num 360) /\
  (num 0 <= tempPhaseFacingPlanet m' /\ tempPhaseFacingPlanet m' < num 360).
Proof.
  intros m'. split; [apply mod_360_bounds|].
  destruct (phases_in_range_aux Params index m) as [Hlo Hhi]. fold m' in Hlo, Hhi.
  unfold tempPhaseFacingPlanet.
  destruct (round_bounds (starPhaseFacingPlanet m') Hlo Hhi) as [Hr0 Hr1].
  case_decide as Hd.
  - split; [apply (Qc_nonneg_num 0) | apply (Qc_num_lt 0 360)]; done.
  - split; [exact Hr0|]. destruct (Qcle_lt_or_eq _ _ Hr1) as [Hlt|Heq]; [exact Hlt | done].
Qed.

End PhaseFacts.

(** ** More on the pipeline: start-up *)

Module StartupFacts.

Import Pandas SpectraBuilder Invariants PandasFacts PipelineFacts Examples Cases.
Local Open Scope Qc_scope.

(** *** The coverage table *)

(** X15.  The coverage table keeps, for each phase, the record of the last
    row of the file that carries this phase; a phase that no row carries is
    not in the table. *)
Theorem coverage_dict_last_row_wins (rows : list (Qc * Coverage)) (key : Qc) :
  build_surfaceCoverageDict rows !! key =
    last (map snd (filter (fun row => fst row = key) rows)).
Proof.
  unfold build_surfaceCoverageDict.
  induction rows as [|row rows IH] using rev_ind; [done|].
  rewrite fold_left_app, filter_app, map_app. simpl.
  rewrite filter_cons, filter_nil. destruct (decide (fst row = key)) as [<-|Hne].
  - rewrite lookup_insert_eq. simpl. by rewrite last_snoc.
  - rewrite lookup_insert_ne by done. simpl. by rewrite app_nil_r.
Qed.

(** *** The three models *)

Lemma series_eq_refl (a : list Qc) : exists e, series_eq a a = inr e /\ np_all e = true.
Proof.
  unfold series_eq. rewrite decide_True by done. eexists. split; [reflexivity|].
  eapply np_all_series_eq; [|reflexivity]. unfold series_eq. by rewrite decide_True.
Qed.

Lemma check_wavelengths_ok (phot spot fac : list (Qc * Qc)) (w : World) :
  wavelength phot = wavelength spot -> wavelength phot = wavelength fac ->
  check_wavelengths phot spot fac w = (inr tt, w).
Proof.
  intros H1 H2. unfold check_wavelengths. rewrite <- H1, <- H2.
  destruct (series_eq_refl (wavelength phot)) as (e & He & Hall).
  unfold bind, lift. rewrite He, Hall. reflexivity.
Qed.

Lemma read_coverage_ok p w rows :
  files w !! p = Some (CoverageFile rows) ->
  read_coverage p w = (inr rows, log (EvRead p) w).
Proof. intros H. unfold read_coverage, bind, read_file. by rewrite H. Qed.

(** Start-up on a complete set of inputs. *)
Lemma startup_ok (Params : ParamModel) (fs : gmap Path File)
    (phot spot fac : list (Qc * Qc)) (rows : list (Qc * Coverage)) :
  fs !! binned_path (teffStar Params) = Some (StellarModelFile phot) ->
  fs !! binned_path (teffSpot Params) = Some (StellarModelFile spot) ->
  fs !! binned_path (teffFac Params) = Some (StellarModelFile fac) ->
  wavelength phot = wavelength spot -> wavelength phot = wavelength fac ->
  fs !! coverage_path Params = Some (CoverageFile rows) ->
  startup Params (initial fs) =
    (inr (build_surfaceCoverageDict rows),
     {| files := fs;
        trace := [EvRead (binned_path (teffStar Params));
                  EvRead (binned_path (teffSpot Params));
                  EvRead (binned_path (teffFac Params));
                  EvRead (coverage_path Params)];
        allModels := set_allModelSpectra (base_table Params phot spot fac)
                       (set_facModel fac (set_spotModel spot
                          (set_photModel phot ReadStarModels))) |}).
Proof.
  intros Hphot Hspot Hfac H1 H2 Hcov. unfold startup.
  erewrite bind_inr by (apply read_stellar_model_ok; exact Hphot).
  rewrite (bind_inr _ _ _ _ _ (modify_run _ _)).
  erewrite bind_inr by (apply read_stellar_model_ok; exact Hspot).
  rewrite (bind_inr _ _ _ _ _ (modify_run _ _)).
  erewrite bind_inr by (apply read_stellar_model_ok; exact Hfac).
  rewrite (bind_inr _ _ _ _ _ (modify_run _ _)).
  erewrite bind_inr by (by apply check_wavelengths_ok).
  rewrite (bind_inr _ _ _ _ _ (modify_run _ _)).
  erewrite bind_inr by (apply read_coverage_ok; exact Hcov).
  reflexivity.
Qed.

(** X16.  No exposures: with [total_images = 0] and complete inputs the run
    reads the three models and the coverage file, writes nothing and ends
    normally. *)
Theorem run_without_exposures (Params : ParamModel) (fs : gmap Path File)
    (phot spot fac : list (Qc * Qc)) (rows : list (Qc * Coverage)) :
  total_images Params = 0%nat ->
  fs !! binned_path (teffStar Params) = Some (StellarModelFile phot) ->
  fs !! binned_path (teffSpot Params) = Some (StellarModelFile spot) ->
  fs !! binned_path (teffFac Params) = Some (StellarModelFile fac) ->
  wavelength phot = wavelength spot -> wavelength phot = wavelength fac ->
  fs !! coverage_path Params = Some (CoverageFile rows) ->
  fst (run Params fs) = inr tt /\
  files (snd (run Params fs)) = fs /\
  trace (snd (run Params fs)) =
    [EvRead (binned_path (teffStar Params)); EvRead (binned_path (teffSpot Params));
     EvRead (binned_path (teffFac Params)); EvRead (coverage_path Params)].
Proof.
  intros H0 Hphot Hspot Hfac H1 H2 Hcov. unfold run, main.
  rewrite (bind_inr _ _ _ _ _ (startup_ok Params fs phot spot fac rows Hphot Hspot Hfac H1 H2 Hcov)).
  rewrite H0. simpl. done.
Qed.

Lemma run_without_exposures_witness :
  fst (run idle_params store) = inr tt /\
  files (snd (run idle_params store)) = store /\
  trace (snd (run idle_params store)) =
    [EvRead (binned_path "3000"); EvRead (binned_path "2600");
     EvRead (binned_path "3100"); EvRead (coverage_path idle_params)].
Proof.
  apply (run_without_exposures idle_params store phot_rows spot_rows fac_rows coverage_rows);
    vm_compute; reflexivity.
Defined.

(** X17.  A model file that is missing: when the other model files are
    tables, the run ends with [FileNotFoundError] for the first of the three
    paths (photosphere, spot, faculae) that is not there, and has written
    nothing. *)
Theorem missing_model_file (Params : ParamModel) (fs : gmap Path File) (p : Path) :
  let paths := [binned_path (teffStar Params); binned_path (teffSpot Params);
                binned_path (teffFac Params)] in
  (forall q f, q ∈ paths -> fs !! q = Some f -> exists rows, f = StellarModelFile rows) ->
  head (filter (fun q => fs !! q = None) paths) = Some p ->
  fst (run Params fs) = inl (FileNotFoundError p) /\
  files (snd (run Params fs)) = fs /\
  writes (trace (snd (run Params fs))) = [].
Proof.
  intros paths Hparse Hhead.
  assert (Hres : fst (startup Params (initial fs)) = inl (FileNotFoundError p)).
  { subst paths. rewrite !filter_cons, filter_nil in Hhead. unfold startup.
    assert (Hmiss : forall q w, files w !! q = None ->
              read_stellar_model q w = (inl (FileNotFoundError q), log (EvRead q) w)).
    { intros q w Hq. unfold read_stellar_model, bind, read_file. by rewrite Hq. }
    destruct (fs !! binned_path (teffStar Params)) as [f1|] eqn:E1.
    2:{ rewrite decide_True in Hhead by done. injection Hhead as <-.
        by rewrite (bind_inl _ _ _ _ _ (Hmiss _ (initial fs) E1)). }
    rewrite decide_False in Hhead by done.
    destruct (Hparse (binned_path (teffStar Params)) f1
                ltac:(rewrite !elem_of_cons; auto) E1) as [r1 ->].
    erewrite bind_inr by (apply read_stellar_model_ok; exact E1).
    rewrite (bind_inr _ _ _ _ _ (modify_run _ _)).
    destruct (fs !! binned_path (teffSpot Params)) as [f2|] eqn:E2.
    2:{ rewrite decide_True in Hhead by done. injection Hhead as <-.
        by erewrite bind_inl by (apply Hmiss; exact E2). }
    rewrite decide_False in Hhead by done.
    destruct (Hparse (binned_path (teffSpot Params)) f2
                ltac:(rewrite !elem_of_cons; auto) E2) as [r2 ->].
    erewrite bind_inr by (apply read_stellar_model_ok; exact E2).
    rewrite (bind_inr _ _ _ _ _ (modify_run _ _)).
    destruct (fs !! binned_path (teffFac Params)) as [f3|] eqn:E3.
    2:{ rewrite decide_True in Hhead by done. injection Hhead as <-.
        by erewrite bind_inl by (apply Hmiss; exact E3). }
    rewrite decide_False in Hhead by done. discriminate Hhead. }
  pose proof (reads_only_startup Params (initial fs)) as [Hf (evs & Ht & Hw)].
  unfold run, main, bind.
  destruct (startup Params (initial fs)) as [[e|dict] w1]; simpl in *; [|done].
  rewrite Ht. injection Hres as ->. done.
Qed.

Lemma missing_model_file_witness :
  fst (run params spotless_store) = inl (FileNotFoundError (binned_path "2600")) /\
  files (snd (run params spotless_store)) = spotless_store /\
  writes (trace (snd (run params spotless_store))) = [].
Proof.
  apply (missing_model_file params spotless_store (binned_path "2600")).
  - intros q f Hq. rewrite !elem_of_cons, elem_of_nil in Hq.
    destruct Hq as [->|[->|[->|[]]]]; vm_compute; intros [= <-]; eauto.
  - vm_compute. reflexivity.
Defined.

End StartupFacts.

(** ** More on the pipeline: the planet and the output tables *)

Module ExposureFacts.

Import Pandas SpectraBuilder Invariants Tables PandasFacts PipelineFacts NumberFacts
  Examples Cases.
Local Open Scope Qc_scope.

(** *** Reading a successful run backwards *)

Lemma item_inv (d : Coverage) key w x w1 :
  item d key w = (inr x, w1) -> d !! key = Some x /\ w1 = w.
Proof. unfold item. destruct (d !! key); [|done]. by intros [= -> ->]. Qed.

Lemma column_inv name w x w1 :
  column name w = (inr x, w1) -> get_column name (table w) = Some x /\ w1 = w.
Proof.
  unfold column, bind, get_models. destruct (get_column name _); [|done].
  by intros [= -> ->].
Qed.

Lemma lift_inv {A} (r : Exn + A) w x w1 : lift r w = (inr x, w1) -> r = inr x /\ w1 = w.
Proof. unfold lift. by intros [= -> ->]. Qed.

Lemma elementwise_inv f a b c :
  elementwise f a b = inr c -> length a = length b /\ c = zip_with f a b.
Proof. unfold elementwise. case_decide; [|done]. by intros [= <-]. Qed.

Lemma coverage_at_inv dict key w x w1 :
  coverage_at dict key w = (inr x, w1) -> dict !! key = Some x /\ w1 = w.
Proof. unfold coverage_at. destruct (dict !! key); [|done]. by intros [= -> ->]. Qed.

Lemma read_reflection_inv p w rows w1 :
  read_reflection p w = (inr rows, w1) ->
  files w !! p = Some (ReflectionFile rows) /\ w1 = log (EvRead p) w.
Proof.
  unfold read_reflection, bind, read_file.
  destruct (files w !! p) as [[]|]; try done. by intros [= -> <-].
Qed.

Lemma read_thermal_inv p w rows w1 :
  read_thermal p w = (inr rows, w1) ->
  files w !! p = Some (ThermalFile rows) /\ w1 = log (EvRead p) w.
Proof.
  unfold read_thermal, bind, read_file.
  destruct (files w !! p) as [[]|]; try done. by intros [= -> <-].
Qed.

Ltac inv_bind H :=
  let x := fresh "x" in let w := fresh "w" in let Hx := fresh "Hx" in
  apply bind_inr_inv in H as (x & w & Hx & H).

Tactic Notation "inv_step" hyp(H) "as" ident(x) ident(w) ident(Hx) :=
  apply bind_inr_inv in H as (x & w & Hx & H).

Lemma calculate_combined_spectrum_inv Params d d' phase w w' :
  calculate_combined_spectrum Params d d' phase w = (inr tt, w') ->
  exists ph sp fa p s f p' s' f',
    get_column "photflux" (table w) = Some ph /\
    get_column "spotflux" (table w) = Some sp /\
    get_column "facflux" (table w) = Some fa /\
    d !! "phot" = Some p /\ d !! "spot" = Some s /\ d !! "fac" = Some f /\
    d' !! "phot" = Some p' /\ d' !! "spot" = Some s' /\ d' !! "fac" = Some f' /\
    w' = with_column "sumfluxTowardsPlanet" (add (add (scale ph p') (scale sp s')) (scale fa f'))
           (with_column "sumflux" (add (add (scale ph p) (scale sp s)) (scale fa f)) w).
Proof.
  unfold calculate_combined_spectrum. intros H.
  inv_bind H. apply item_inv in Hx as [Hp ->].
  inv_bind H. apply item_inv in Hx as [Hs ->].
  inv_bind H. apply item_inv in Hx as [Hf ->].
  inv_bind H. apply column_inv in Hx as [Hph ->].
  inv_bind H. apply column_inv in Hx as [Hsp ->].
  inv_bind H. apply column_inv in Hx as [Hfa ->].
  inv_bind H. rewrite assign_column_run in Hx. injection Hx as _ <-.
  inv_bind H. apply item_inv in Hx as [Hp' ->].
  inv_bind H. apply item_inv in Hx as [Hs' ->].
  inv_bind H. apply item_inv in Hx as [Hf' ->].
  inv_bind H. apply column_inv in Hx as [Hph' ->].
  inv_bind H. apply column_inv in Hx as [Hsp' ->].
  inv_bind H. apply column_inv in Hx as [Hfa' ->].
  rewrite assign_column_run in H. injection H as <-.
  rewrite table_with_column, get_set_column_ne in Hph', Hsp', Hfa' by done.
  rewrite Hph in Hph'. rewrite Hsp in Hsp'. rewrite Hfa in Hfa'.
  injection Hph' as <-. injection Hsp' as <-. injection Hfa' as <-.
  eexists _, _, _, _, _, _, _, _, _. repeat split; eassumption || reflexivity.
Qed.

Local Opaque Py.mod_ Py.round Py.format_3f Py.of_nat Py.of_Z Py.str_nat update_phases.

(** *** [calculate_planet_flux] *)

Lemma length_zip_with_same {A B C} (f : A -> B -> C) (a : list A) (b : list B) :
  length a = length b -> length (zip_with f a b) = length a.
Proof. intros H. rewrite length_zip_with. lia. Qed.

Lemma calculate_planet_flux_inv phase w w' :
  calculate_planet_flux phase w = (inr tt, w') ->
  exists tp pr,
    get_column "sumfluxTowardsPlanet" (table w) = Some tp /\
    length pr = length tp /\
    length (therm_planet (planetThermalModel (allModels w))) = length tp /\
    w' = with_column "planetThermal" (therm_planet (planetThermalModel (allModels w)))
           (with_column "planetReflection" pr w).
Proof.
  unfold calculate_planet_flux. intros H.
  inv_bind H. injection Hx as <- <-.
  inv_bind H. apply lift_inv in Hx as [Hx ->]. apply elementwise_inv in Hx as [L1 ->].
  inv_bind H. apply lift_inv in Hx as [Hx ->]. apply elementwise_inv in Hx as [L2 ->].
  inv_bind H. apply column_inv in Hx as [Htp ->].
  inv_bind H. apply lift_inv in Hx as [Hx ->]. apply elementwise_inv in Hx as [L3 ->].
  inv_bind H. apply lift_inv in Hx as [Hx ->]. apply elementwise_inv in Hx as [L4 ->].
  inv_bind H. rewrite assign_column_run in Hx. injection Hx as _ <-.
  rewrite assign_column_run in H. injection H as <-.
  rewrite !length_zip_with in L2, L3, L4.
  eexists _, _. split; [exact Htp|]. split; [|split; [|reflexivity]].
  - rewrite !length_zip_with. lia.
  - lia.
Qed.

(** X20.  [calculate_planet_flux] on tables of one length: the call succeeds,
    [planetThermal] is the planet column of the thermal table, and wherever
    the stellar flux of the reflection table is not zero, [planetReflection]
    is [|reflected - thermal| / stellar * sumfluxTowardsPlanet + thermal].
    With a positive stellar flux and a flux towards the planet that is not
    negative, [planetReflection] is never below [planetThermal]. *)
Theorem planet_flux_entries (phase : nat) (w : World) (tp : list Qc) :
  let refl := PSGplanetReflectionModel (allModels w) in
  let therm := planetThermalModel (allModels w) in
  get_column "sumfluxTowardsPlanet" (table w) = Some tp ->
  length refl = length therm -> length therm = length tp ->
  exists w' pr,
    calculate_planet_flux phase w = (inr tt, w') /\
    get_column "planetReflection" (table w') = Some pr /\
    get_column "planetThermal" (table w') = Some (therm_planet therm) /\
    length pr = length tp /\
    forall j r t x,
      refl !! j = Some r -> therm !! j = Some t -> tp !! j = Some x ->
      (snd (fst r) <> num 0 ->
       pr !! j = Some (Qcabs (snd r - snd t) / snd (fst r) * x + snd t)) /\
      (num 0 < snd (fst r) -> num 0 <= x ->
       exists y, pr !! j = Some y /\ snd t <= y).
Proof.
  intros refl therm Htp L1 L2.
  set (pr := zip_with Qcplus
               (zip_with Qcmult
                  (zip_with Qcdiv
                     (zip_with (fun a b => Qcabs (a - b)) (refl_planet refl) (therm_planet therm))
                     (refl_stellar refl)) tp) (therm_planet therm)).
  assert (Lp : length (refl_planet refl) = length tp)
    by (unfold refl_planet; rewrite length_map; congruence).
  assert (Ls : length (refl_stellar refl) = length tp)
    by (unfold refl_stellar; rewrite length_map; congruence).
  assert (Lt : length (therm_planet therm) = length tp)
    by (unfold therm_planet; rewrite length_map; congruence).
  assert (Hentry : forall j r t x,
            refl !! j = Some r -> therm !! j = Some t -> tp !! j = Some x ->
            pr !! j = Some (Qcabs (snd r - snd t) / snd (fst r) * x + snd t)).
  { intros j r t x Hr Ht Hx. subst pr. rewrite !lookup_zip_with.
    unfold refl_planet, refl_stellar, therm_planet.
    change (map ?f ?l) with (f <$> l). rewrite !list_lookup_fmap, Hr, Ht, Hx. reflexivity. }
  exists (with_column "planetThermal" (therm_planet therm) (with_column "planetReflection" pr w)), pr.
  split; [|split; [|split; [|split]]].
  - unfold calculate_planet_flux.
    rewrite (bind_inr _ _ w (allModels w) w) by reflexivity.
    fold refl therm. unfold lift at 1, elementwise at 1.
    rewrite decide_True by lia. rewrite (bind_inr _ _ w _ w) by reflexivity.
    unfold lift at 1, elementwise at 1.
    rewrite decide_True by (rewrite ?length_zip_with; lia).
    rewrite (bind_inr _ _ w _ w) by reflexivity.
    erewrite bind_inr by (apply column_Some; exact Htp).
    unfold lift at 1, elementwise at 1.
    rewrite decide_True by (rewrite ?length_zip_with; lia).
    rewrite (bind_inr _ _ w _ w) by reflexivity.
    unfold lift at 1, elementwise at 1.
    rewrite decide_True by (rewrite ?length_zip_with; lia).
    rewrite (bind_inr _ _ w _ w) by reflexivity.
    erewrite bind_inr by apply assign_column_run.
    apply assign_column_run.
  - rewrite !table_with_column. rewrite get_set_column_ne by done. apply get_set_column_eq.
  - rewrite table_with_column. apply get_set_column_eq.
  - subst pr. rewrite ?length_zip_with. lia.
  - intros j r t x Hr Ht Hx. split.
    + intros _. by apply Hentry.
    + intros Hs Hx0. eexists. split; [by apply Hentry|].
      apply Qcplus_ge_r. apply Qcmult_nonneg; [|exact Hx0].
      apply Qcdiv_nonneg; [apply Qcabs_nonneg | exact Hs].
Qed.

Lemma planet_flux_entries_witness :
  exists w' pr,
    calculate_planet_flux 0 lit = (inr tt, w') /\
    get_column "planetReflection" (table w') = Some pr /\
    get_column "planetThermal" (table w') = Some [num 1; num 1] /\
    length pr = 2%nat /\
    pr !! 0%nat = Some (Qcabs (num 3 - num 1) / num 4 * num 8 + num 1).
Proof.
  destruct (planet_flux_entries 0 lit [num 8; num 12])
    as (w' & pr & Hrun & Hpr & Hth & Hlen & Hentries); try (vm_compute; reflexivity).
  exists w', pr. split; [exact Hrun|]. split; [exact Hpr|]. split; [exact Hth|].
  split; [exact Hlen|].
  apply (Hentries 0%nat (num 1, num 5, num 4, num 3) (num 1, num 5, num 1) (num 8));
    try reflexivity.
  vm_compute. discriminate.
Defined.

(** *** The table after an exposure *)

Lemma columns_set_column name v (df : DataFrame) :
  columns (set_column name v df) =
    if decide (name ∈ columns df) then columns df else columns df ++ [name].
Proof.
  unfold columns. induction df as [|[c x] rest IH]; cbn [set_column map fst].
  - rewrite decide_False; [done | apply not_elem_of_nil].
  - destruct (decide (c = name)) as [->|Hne]; cbn [map fst].
    + rewrite decide_True; [done | rewrite elem_of_cons; by left].
    + rewrite IH. destruct (decide (name ∈ map fst rest)) as [Hin|Hnin].
      * rewrite decide_True; [done | rewrite elem_of_cons; by right].
      * rewrite decide_False; [done|]. rewrite elem_of_cons. intros [->|H]; done.
Qed.

Lemma height_set_column n name v (df : DataFrame) :
  height n df -> length v = n -> height n (set_column name v df).
Proof.
  unfold height. intros Hdf Hv. induction df as [|[c x] rest IH]; simpl.
  - by repeat constructor.
  - apply Forall_cons in Hdf as [Hx Hrest]. destruct (decide (c = name)).
    + by constructor.
    + constructor; [done | by apply IH].
Qed.

Lemma height_get_column n name (df : DataFrame) v :
  height n df -> get_column name df = Some v -> length v = n.
Proof.
  unfold height. induction df as [|[c x] rest IH]; simpl; [done|].
  intros Hdf Hv. apply Forall_cons in Hdf as [Hx Hrest].
  destruct (decide (c = name)); [by injection Hv as <- | by apply IH].
Qed.

Lemma modify_table f w x w1 :
  modify f w = (inr x, w1) -> table w1 = allModelSpectra (f (allModels w)).
Proof. rewrite modify_run. by intros [= _ <-]. Qed.

Lemma get_models_inv w x w1 : get_models w = (inr x, w1) -> w1 = w.
Proof. unfold get_models. by intros [= _ <-]. Qed.

Lemma read_reflection_table p w rows w1 :
  read_reflection p w = (inr rows, w1) -> table w1 = table w.
Proof. intros H. by apply read_reflection_inv in H as [_ ->]. Qed.

Lemma read_thermal_table p w rows w1 :
  read_thermal p w = (inr rows, w1) -> table w1 = table w.
Proof. intros H. by apply read_thermal_inv in H as [_ ->]. Qed.

(** A successful exposure sets four columns on the table it found. *)
Lemma exposure_ok_table Params dict index w w' :
  exposure Params dict index w = (inr tt, w') ->
  exists ph sp fa p s f p' s' f' v3 v4,
    get_column "photflux" (table w) = Some ph /\
    get_column "spotflux" (table w) = Some sp /\
    get_column "facflux" (table w) = Some fa /\
    length v3 = length (add (add (scale ph p') (scale sp s')) (scale fa f')) /\
    length v4 = length (add (add (scale ph p') (scale sp s')) (scale fa f')) /\
    table w' =
      set_column "planetThermal" v4
        (set_column "planetReflection" v3
           (set_column "sumfluxTowardsPlanet" (add (add (scale ph p') (scale sp s')) (scale fa f'))
              (set_column "sumflux" (add (add (scale ph p) (scale sp s)) (scale fa f))
                 (table w)))).
Proof.
  unfold exposure. intros H.
  inv_step H as u1 w1 Hx. apply modify_table in Hx. rewrite table_update_phases in Hx.
  rename Hx into T1.
  inv_step H as m w2 Hx. apply get_models_inv in Hx as ->.
  inv_step H as refl w3 Hx. apply read_reflection_table in Hx. rewrite T1 in Hx.
  rename Hx into T3.
  inv_step H as u2 w4 Hx. apply modify_table in Hx.
  cbn [allModelSpectra set_PSGplanetReflectionModel] in Hx. rewrite T3 in Hx. rename Hx into T4.
  inv_step H as therm w5 Hx. apply read_thermal_table in Hx. rewrite T4 in Hx.
  rename Hx into T5.
  inv_step H as u3 w6 Hx. apply modify_table in Hx.
  cbn [allModelSpectra set_planetThermalModel] in Hx. rewrite T5 in Hx. rename Hx into T6.
  inv_step H as d w7 Hx. apply coverage_at_inv in Hx as [_ ->].
  inv_step H as d' w7 Hx. apply coverage_at_inv in Hx as [_ ->].
  inv_step H as u4 w8 Hx. destruct u4.
  apply calculate_combined_spectrum_inv in Hx
    as (ph & sp & fa & p & s & f & p' & s' & f' & Hph & Hsp & Hfa & _ & _ & _ & _ & _ & _ & Hw).
  rewrite T6 in Hph, Hsp, Hfa.
  assert (T8 : table w8 =
            set_column "sumfluxTowardsPlanet" (add (add (scale ph p') (scale sp s')) (scale fa f'))
              (set_column "sumflux" (add (add (scale ph p) (scale sp s)) (scale fa f)) (table w))).
  { rewrite Hw, !table_with_column, T6. reflexivity. }
  clear Hw.
  inv_step H as u5 w9 Hx. destruct u5.
  apply calculate_planet_flux_inv in Hx as (tp & pr & Htp & Lpr & Lth & Hw).
  rewrite T8, get_set_column_eq in Htp. injection Htp as <-.
  assert (T9 : table w9 =
            set_column "planetThermal" (therm_planet (planetThermalModel (allModels w8)))
              (set_column "planetReflection" pr (table w8))).
  { rewrite Hw, !table_with_column. reflexivity. }
  rewrite T8 in T9. clear Hw.
  inv_step H as m' w10 Hx. apply get_models_inv in Hx as ->.
  unfold write_file in H. injection H as <-. cbn [allModels].
  eexists ph, sp, fa, p, s, f, p', s', f', _, _.
  split; [exact Hph|]. split; [exact Hsp|]. split; [exact Hfa|].
  split; [exact Lpr|]. split; [exact Lth|]. exact T9.
Qed.

Lemma exposure_ok_shape Params dict index w w' n :
  exposure Params dict index w = (inr tt, w') ->
  height n (table w) ->
  columns (table w) = take 4 output_columns \/ columns (table w) = output_columns ->
  columns (table w') = output_columns /\ height n (table w').
Proof.
  intros H Hh Hc.
  apply exposure_ok_table in H
    as (ph & sp & fa & p & s & f & p' & s' & f' & v3 & v4 & Hph & Hsp & Hfa & L3 & L4 & ->).
  pose proof (height_get_column _ _ _ _ Hh Hph) as Lph.
  pose proof (height_get_column _ _ _ _ Hh Hsp) as Lsp.
  pose proof (height_get_column _ _ _ _ Hh Hfa) as Lfa.
  rewrite length_combination in L3, L4 by congruence.
  split.
  - rewrite !columns_set_column. destruct Hc as [-> | ->]; reflexivity.
  - repeat apply height_set_column; try done; try congruence;
      rewrite length_combination; congruence.
Qed.

(** *** The loop *)

Lemma writes_reads_only (t evs : list Event) :
  writes evs = [] -> writes (t ++ evs) = writes t.
Proof. intros H. by rewrite writes_app, H, app_nil_r. Qed.

(** The loop over the exposures: it writes the tables of the first [k]
    exposures, each one when that exposure is through, and stops at the
    first exposure that fails. *)
Lemma for_each_exposure (I : World -> Prop) (Q : DataFrame -> Prop) Params dict :
  (forall i w w', I w -> exposure Params dict i w = (inr tt, w') -> I w' /\ Q (table w')) ->
  forall len start w, I w ->
    exists k dfs,
      (k <= len)%nat /\ length dfs = k /\
      writes (trace (snd (for_each (seq start len) (exposure Params dict) w))) =
        writes (trace w) ++
        zip_with (fun i df => (output_path Params i, FrameFile df)) (seq start k) dfs /\
      Forall Q dfs /\
      (fst (for_each (seq start len) (exposure Params dict) w) = inr tt -> k = len).
Proof.
  intros Hstep len. induction len as [|len IH]; intros start w HI.
  - exists 0%nat, []. simpl. rewrite app_nil_r. repeat split; done.
  - cbn [seq for_each]. unfold bind.
    pose proof (exposure_run Params dict start w) as Hrun. cbv zeta in Hrun.
    destruct (exposure Params dict start w) as [[e|[]] w1] eqn:He; cbn [fst snd] in Hrun.
    + exists 0%nat, []. cbn [fst snd seq zip_with]. rewrite app_nil_r.
      destruct Hrun as (_ & _ & [(Ht & _)|[(Ht & _)|(_ & _ & Hr)]]); [| |done];
        rewrite Ht, writes_reads_only by done;
        (split; [lia|]; split; [done|]; split; [done|]; split; [done|]; intros [=]).
    + destruct Hrun as (_ & _ & [(_ & _ & _ & Hr)|[(_ & _ & Hr)|(Ht & _ & _)]]); [done|done|].
      destruct (Hstep start w w1 HI He) as [HI1 HQ1].
      destruct (IH (S start) w1 HI1) as (k & dfs & Hk & Hlen & Hw & HQ & Hend).
      exists (S k), (table w1 :: dfs). cbn [seq zip_with length].
      split; [lia|]. split; [by rewrite Hlen|]. split; [|split].
      * rewrite Hw, Ht, writes_app. simpl. by rewrite <- app_assoc.
      * by constructor.
      * intros Hr. by rewrite (Hend Hr).
Qed.

Lemma height_base_table Params phot spot fac :
  wavelength phot = wavelength spot -> wavelength phot = wavelength fac ->
  height (length phot) (base_table Params phot spot fac).
Proof.
  intros H1 H2. unfold height, base_table.
  assert (L1 : length spot = length phot).
  { apply (f_equal length) in H1. unfold wavelength in H1. by rewrite !length_map in H1. }
  assert (L2 : length fac = length phot).
  { apply (f_equal length) in H2. unfold wavelength in H2. by rewrite !length_map in H2. }
  repeat constructor; simpl; unfold wavelength, scale, flux; rewrite ?length_map; done.
Qed.

(** What a run writes: the tables of the exposures [0 .. k-1], in this
    order, each with the eight columns and the height of the model. *)
Lemma run_outputs (Params : ParamModel) (fs : gmap Path File) :
  exists k dfs,
    (k <= total_images Params)%nat /\ length dfs = k /\
    writes (trace (snd (run Params fs))) =
      zip_with (fun i df => (output_path Params i, FrameFile df)) (seq 0 k) dfs /\
    Forall (fun df => columns df = output_columns /\
                      exists phot, fs !! binned_path (teffStar Params) = Some (StellarModelFile phot) /\
                                   height (length phot) df) dfs /\
    (fst (run Params fs) = inr tt -> k = total_images Params).
Proof.
  unfold run, main, bind.
  pose proof (reads_only_startup Params (initial fs)) as Hro.
  destruct (startup Params (initial fs)) as [[e|dict] w1] eqn:Hs; simpl in Hro.
  - exists 0%nat, []. destruct Hro as [_ (evs & Ht & Hw)]. cbn [fst snd].
    simpl in Ht. rewrite Ht, Hw.
    split; [lia|]. split; [done|]. split; [done|]. split; [done|]. intros [=].
  - apply startup_inv in Hs as (phot & spot & fac & Hphot & _ & _ & H1 & H2 & Hbase).
    simpl in Hphot.
    set (I := fun w : World => height (length phot) (table w) /\
                (columns (table w) = take 4 output_columns \/
                 columns (table w) = output_columns)).
    set (Q := fun df : DataFrame => columns df = output_columns /\ height (length phot) df).
    destruct (for_each_exposure I Q Params dict) with (len := total_images Params)
      (start := 0%nat) (w := w1) as (k & dfs & Hk & Hlen & Hw & HQ & Hend).
    + intros i w w' [Hh Hc] He.
      destruct (exposure_ok_shape _ _ _ _ _ _ He Hh Hc) as [Hc' Hh'].
      split; [split; [done | by right] | by split].
    + split; [rewrite Hbase; by apply height_base_table | left; by rewrite Hbase].
    + exists k, dfs. destruct Hro as [_ (evs & Ht & Hw0)]. simpl in Ht.
      rewrite Ht, Hw0 in Hw. simpl in Hw.
      split; [done|]. split; [done|]. split; [done|]. split; [|done].
      eapply Forall_impl; [exact HQ|]. intros df [Hc Hh]. split; [done|]. by exists phot.
Qed.

Lemma fst_zip_with_pairs {A B C D} (g : A -> C) (h : B -> D) (l : list A) (k : list B) :
  length l = length k -> map fst (zip_with (fun a b => (g a, h b)) l k) = map g l.
Proof.
  revert k. induction l as [|a l IH]; intros [|b k] Hlen; try done.
  simpl. f_equal. apply IH. by injection Hlen.
Qed.

(** X21.  The output files of a run are those of the exposures [0] to
    [k - 1], written in this order, for some [k] up to [total_images]; a run
    that ends normally has written all of them, and the files a run leaves
    are the files it found with these outputs written over them. *)
Theorem outputs_in_order (Params : ParamModel) (fs : gmap Path File) :
  exists k,
    (k <= total_images Params)%nat /\
    map fst (writes (trace (snd (run Params fs)))) = map (output_path Params) (seq 0 k) /\
    (fst (run Params fs) = inr tt -> k = total_images Params) /\
    files (snd (run Params fs)) = apply_writes (writes (trace (snd (run Params fs)))) fs.
Proof.
  destruct (run_outputs Params fs) as (k & dfs & Hk & Hlen & Hw & _ & Hend).
  exists k. split; [done|]. split; [|split; [done|]].
  - rewrite Hw. apply fst_zip_with_pairs. by rewrite length_seq.
  - apply (run_footprint Params fs).
Qed.

(** X22.  Every table a run writes has the eight columns [wavelength],
    [photflux], [spotflux], [facflux], [sumflux], [sumfluxTowardsPlanet],
    [planetReflection], [planetThermal], in this order, and every column has
    as many entries as the photosphere model has rows. *)
Theorem output_table_shape (Params : ParamModel) (fs : gmap Path File) (p : Path) (f : File) :
  In (EvWrite p f) (trace (snd (run Params fs))) ->
  exists df phot,
    f = FrameFile df /\
    columns df = output_columns /\
    fs !! binned_path (teffStar Params) = Some (StellarModelFile phot) /\
    height (length phot) df.
Proof.
  intros Hin.
  assert (Hw : In (p, f) (writes (trace (snd (run Params fs))))).
  { unfold writes. apply in_flat_map. exists (EvWrite p f). split; [done | by left]. }
  destruct (run_outputs Params fs) as (k & dfs & _ & _ & Heq & HQ & _).
  rewrite Heq in Hw. apply list_elem_of_In, elem_of_lookup_zip_with in Hw
    as (j & i & df & Hpf & _ & Hdf).
  injection Hpf as -> ->.
  rewrite Forall_forall in HQ. apply list_elem_of_lookup_2 in Hdf.
  destruct (HQ df Hdf) as (Hc & phot & Hphot & Hh). by exists df, phot.
Qed.

Lemma output_table_shape_witness :
  exists p f df,
    In (EvWrite p f) (trace (snd (run params store))) /\
    f = FrameFile df /\ columns df = output_columns /\ height 2 df.
Proof.
  assert (H : exists p f, In (EvWrite p f) (trace (snd (run params store)))).
  { eexists _, _. vm_compute. do 6 right. left. reflexivity. }
  destruct H as (p & f & H).
  destruct (output_table_shape params store p f H) as (df & phot & Hf & Hc & Hphot & Hh).
  assert (Ephot : store !! binned_path (teffStar params) = Some (StellarModelFile phot_rows))
    by (vm_compute; reflexivity).
  rewrite Ephot in Hphot. injection Hphot as <-.
  exists p, f, df. split; [exact H|]. split; [exact Hf|]. split; [exact Hc | exact Hh].
Defined.

(** *** The names of the output files *)

Lemma str_nat_inj (i j : nat) : Py.str_nat i = Py.str_nat j -> i = j.
Proof.
  Local Transparent Py.str_nat.
  unfold Py.str_nat. intros H. apply (f_equal NilEmpty.uint_of_string) in H.
  rewrite !NilEmpty.usu in H. injection H as H.
  apply (f_equal Nat.of_uint) in H. by rewrite !DecimalNat.Unsigned.of_to in H.
  Local Opaque Py.str_nat.
Qed.

Lemma length_append (s t : string) :
  String.length (s +:+ t) = (String.length s + String.length t)%nat.
Proof. induction s as [|c s IH]; simpl; [done | by rewrite IH]. Qed.

Lemma append_inj_r (s1 s2 t : string) : s1 +:+ t = s2 +:+ t -> s1 = s2.
Proof.
  revert s2. induction s1 as [|c s1 IH]; intros [|c' s2] H.
  - done.
  - apply (f_equal String.length) in H. rewrite !length_append in H. simpl in H. lia.
  - apply (f_equal String.length) in H. rewrite !length_append in H. simpl in H. lia.
  - injection H as -> H. f_equal. by apply IH.
Qed.

Lemma output_path_inj (Params : ParamModel) (i j : nat) :
  output_path Params i = output_path Params j -> i = j.
Proof.
  unfold output_path. intros [= H]. apply (String.app_inj EmptyString) in H.
  apply append_inj_r in H. by apply str_nat_inj.
Qed.

(** X23.  Different exposures have different output files, so that a run
    never writes a file twice: no output is overwritten by a later
    exposure. *)
Theorem outputs_never_overwritten (Params : ParamModel) (fs : gmap Path File) :
  (forall i j, output_path Params i = output_path Params j -> i = j) /\
  NoDup (map fst (writes (trace (snd (run Params fs))))).
Proof.
  split; [apply output_path_inj|].
  destruct (run_outputs Params fs) as (k & dfs & _ & Hlen & Hw & _ & _).
  rewrite Hw, fst_zip_with_pairs by (by rewrite length_seq).
  assert (Hinj : Inj eq eq (output_path Params)) by (intros i j; apply output_path_inj).
  apply (NoDup_fmap_2 (output_path Params)). apply NoDup_seq.
Qed.

(** *** An exposure whose inputs are missing *)

Lemma read_reflection_missing p w :
  files w !! p = None ->
  read_reflection p w = (inl (FileNotFoundError p), log (EvRead p) w).
Proof. intros H. unfold read_reflection, bind, read_file. by rewrite H. Qed.

Lemma read_thermal_missing p w :
  files w !! p = None ->
  read_thermal p w = (inl (FileNotFoundError p), log (EvRead p) w).
Proof. intros H. unfold read_thermal, bind, read_file. by rewrite H. Qed.

Lemma read_reflection_ok p w rows :
  files w !! p = Some (ReflectionFile rows) ->
  read_reflection p w = (inr rows, log (EvRead p) w).
Proof. intros H. unfold read_reflection, bind, read_file. by rewrite H. Qed.

Lemma read_thermal_ok p w rows :
  files w !! p = Some (ThermalFile rows) ->
  read_thermal p w = (inr rows, log (EvRead p) w).
Proof. intros H. unfold read_thermal, bind, read_file. by rewrite H. Qed.

(** X24.  A spectrum of the planet that is missing: without the reflected
    spectrum of the phase the exposure ends with [FileNotFoundError] after
    this one read, the thermal spectrum is not looked at; with the reflected
    spectrum there and the thermal one missing it ends with
    [FileNotFoundError] for the thermal file.  Either way nothing is
    written. *)
Theorem exposure_missing_spectrum (Params : ParamModel) (dict : gmap Qc Coverage)
    (index : nat) (w : World) :
  let m := update_phases Params index (allModels w) in
  let refl := reflection_path Params (planetPhase m) in
  let therm := thermal_path Params (planetPhase m) in
  let out := exposure Params dict index w in
  (files w !! refl = None ->
   fst out = inl (FileNotFoundError refl) /\
   trace (snd out) = trace w ++ [EvRead refl] /\ files (snd out) = files w) /\
  (forall rows, files w !! refl = Some (ReflectionFile rows) -> files w !! therm = None ->
   fst out = inl (FileNotFoundError therm) /\
   trace (snd out) = trace w ++ [EvRead refl; EvRead therm] /\ files (snd out) = files w).
Proof.
  intros m refl therm out. subst out refl therm m. unfold exposure.
  rewrite (bind_inr _ _ _ _ _ (modify_run _ _)).
  generalize (update_phases Params index (allModels w)). intros m.
  rewrite (bind_inr _ _ (with_models m w) m (with_models m w)) by reflexivity.
  split.
  - intros Hnone.
    rewrite (bind_inl _ _ _ _ _ (read_reflection_missing _ (with_models m w) Hnone)). done.
  - intros rows Hrefl Hnone.
    rewrite (bind_inr _ _ _ _ _ (read_reflection_ok _ (with_models m w) rows Hrefl)).
    rewrite (bind_inr _ _ _ _ _ (modify_run _ _)).
    erewrite bind_inl by (apply read_thermal_missing; exact Hnone).
    cbn [fst snd trace files log with_models]. by rewrite <- app_assoc.
Qed.

Lemma exposure_missing_spectrum_witness :
  fst (exposure params ∅ 0 (initial cold_store)) =
    inl (FileNotFoundError (thermal_path params (num 182))) /\
  trace (snd (exposure params ∅ 0 (initial cold_store))) =
    [EvRead (reflection_path params (num 182)); EvRead (thermal_path params (num 182))] /\
  files (snd (exposure params ∅ 0 (initial cold_store))) = cold_store.
Proof.
  destruct (exposure_missing_spectrum params ∅ 0 (initial cold_store)) as [_ H].
  destruct (H reflection_rows) as (Hr & Ht & Hf);
    [vm_compute; reflexivity | vm_compute; reflexivity |].
  split; [|split; [|exact Hf]].
  - rewrite Hr. vm_compute. reflexivity.
  - rewrite Ht. vm_compute. reflexivity.
Defined.

Lemma coverage_at_ok dict key w d :
  dict !! key = Some d -> coverage_at dict key w = (inr d, w).
Proof. intros H. unfold coverage_at. by rewrite H. Qed.

Lemma coverage_at_missing dict key w :
  dict !! key = None -> coverage_at dict key w = (inl (KeyError (Py.format_3f key)), w).
Proof. intros H. unfold coverage_at. by rewrite H. Qed.

(** X25.  A phase that the coverage table does not hold: with both spectra
    of the planet read, a key that is missing from the table ends the
    exposure with [KeyError] for this key, the key of the star phase being
    looked up first; the table is not changed and nothing is written. *)
Theorem exposure_missing_coverage (Params : ParamModel) (dict : gmap Qc Coverage)
    (index : nat) (w : World) (rows : list (Qc * Qc * Qc * Qc)) (rows' : list (Qc * Qc * Qc)) :
  let m := update_phases Params index (allModels w) in
  let refl := reflection_path Params (planetPhase m) in
  let therm := thermal_path Params (planetPhase m) in
  let out := exposure Params dict index w in
  files w !! refl = Some (ReflectionFile rows) ->
  files w !! therm = Some (ThermalFile rows') ->
  (dict !! tempPhase m = None \/ dict !! tempPhaseFacingPlanet m = None) ->
  fst out =
    inl (KeyError (Py.format_3f
          (if decide (dict !! tempPhase m = None) then tempPhase m
           else tempPhaseFacingPlanet m))) /\
  trace (snd out) = trace w ++ [EvRead refl; EvRead therm] /\
  files (snd out) = files w /\
  table (snd out) = table w.
Proof.
  intros m refl therm out Hrefl Htherm Hkey. subst out refl therm m. unfold exposure.
  rewrite (bind_inr _ _ _ _ _ (modify_run _ _)).
  pose proof (table_update_phases Params index (allModels w)) as Hmt.
  revert Hrefl Htherm Hkey Hmt.
  generalize (update_phases Params index (allModels w)). intros m Hrefl Htherm Hkey Hmt.
  rewrite (bind_inr _ _ (with_models m w) m (with_models m w)) by reflexivity.
  rewrite (bind_inr _ _ _ _ _ (read_reflection_ok _ (with_models m w) rows Hrefl)).
  rewrite (bind_inr _ _ _ _ _ (modify_run _ _)).
  erewrite bind_inr by (apply read_thermal_ok; exact Htherm).
  rewrite (bind_inr _ _ _ _ _ (modify_run _ _)).
  destruct (dict !! tempPhase m) as [d|] eqn:E1.
  - rewrite decide_False by done. destruct Hkey as [|E2]; [done|].
    erewrite bind_inr by (apply coverage_at_ok; exact E1).
    erewrite bind_inl by (apply coverage_at_missing; exact E2).
    cbn [fst snd trace files log with_models allModels allModelSpectra
         set_planetThermalModel set_PSGplanetReflectionModel].
    by rewrite <- app_assoc.
  - rewrite decide_True by done.
    erewrite bind_inl by (apply coverage_at_missing; exact E1).
    cbn [fst snd trace files log with_models allModels allModelSpectra
         set_planetThermalModel set_PSGplanetReflectionModel].
    by rewrite <- app_assoc.
Qed.

Lemma exposure_missing_coverage_witness :
  fst (exposure params ∅ 0 (initial store)) = inl (KeyError "0.000") /\
  trace (snd (exposure params ∅ 0 (initial store))) =
    [EvRead (reflection_path params (num 182)); EvRead (thermal_path params (num 182))] /\
  files (snd (exposure params ∅ 0 (initial store))) = store.
Proof.
  destruct (exposure_missing_coverage params ∅ 0 (initial store) reflection_rows thermal_rows)
    as (Hr & Ht & Hf & _);
    [vm_compute; reflexivity | vm_compute; reflexivity | left; reflexivity |].
  split; [|split; [|exact Hf]].
  - rewrite Hr. vm_compute. reflexivity.
  - rewrite Ht. vm_compute. reflexivity.
Defined.

(** *** The reset and the lookup *)

Lemma modify_world f w x w1 : modify f w = (inr x, w1) -> w1 = with_models (f (allModels w)) w.
Proof. rewrite modify_run. by intros [= _ <-]. Qed.

Lemma get_models_value w x w1 : get_models w = (inr x, w1) -> x = allModels w /\ w1 = w.
Proof. unfold get_models. by intros [= <- <-]. Qed.

(** A successful exposure has found both keys in the coverage table, the
    keys being those computed from the phases of [update_phases], and has
    filled the two flux columns from the records found. *)
Lemma exposure_ok_lookup Params dict index w w' :
  exposure Params dict index w = (inr tt, w') ->
  exists d d' ph sp fa p s f p' s' f',
    dict !! tempPhase (update_phases Params index (allModels w)) = Some d /\
    dict !! tempPhaseFacingPlanet (update_phases Params index (allModels w)) = Some d' /\
    (d !! "phot" = Some p /\ d !! "spot" = Some s /\ d !! "fac" = Some f) /\
    (d' !! "phot" = Some p' /\ d' !! "spot" = Some s' /\ d' !! "fac" = Some f') /\
    (get_column "photflux" (table w) = Some ph /\
     get_column "spotflux" (table w) = Some sp /\
     get_column "facflux" (table w) = Some fa) /\
    get_column "sumflux" (table w') = Some (add (add (scale ph p) (scale sp s)) (scale fa f)) /\
    get_column "sumfluxTowardsPlanet" (table w') =
      Some (add (add (scale ph p') (scale sp s')) (scale fa f')).
Proof.
  unfold exposure. intros H.
  inv_step H as u1 w1 Hx. apply modify_world in Hx.
  assert (T1 : table w1 = table w).
  { rewrite Hx. cbn [allModels with_models]. apply table_update_phases. }
  assert (M1 : allModels w1 = update_phases Params index (allModels w)) by (by rewrite Hx).
  clear Hx.
  inv_step H as m w2 Hx. apply get_models_value in Hx as [-> ->]. rewrite M1 in H.
  inv_step H as refl w3 Hx. apply read_reflection_table in Hx. rewrite T1 in Hx.
  rename Hx into T3.
  inv_step H as u2 w4 Hx. apply modify_table in Hx.
  cbn [allModelSpectra set_PSGplanetReflectionModel] in Hx. rewrite T3 in Hx. rename Hx into T4.
  inv_step H as therm w5 Hx. apply read_thermal_table in Hx. rewrite T4 in Hx.
  rename Hx into T5.
  inv_step H as u3 w6 Hx. apply modify_table in Hx.
  cbn [allModelSpectra set_planetThermalModel] in Hx. rewrite T5 in Hx. rename Hx into T6.
  inv_step H as d w7 Hx. apply coverage_at_inv in Hx as [Hd ->].
  inv_step H as d' w7 Hx. apply coverage_at_inv in Hx as [Hd' ->].
  inv_step H as u4 w8 Hx. destruct u4.
  apply calculate_combined_spectrum_inv in Hx
    as (ph & sp & fa & p & s & f & p' & s' & f' & Hph & Hsp & Hfa &
        Hp & Hs & Hf & Hp' & Hs' & Hf' & Hw).
  rewrite T6 in Hph, Hsp, Hfa.
  assert (T8 : table w8 =
            set_column "sumfluxTowardsPlanet" (add (add (scale ph p') (scale sp s')) (scale fa f'))
              (set_column "sumflux" (add (add (scale ph p) (scale sp s)) (scale fa f)) (table w))).
  { rewrite Hw, !table_with_column, T6. reflexivity. }
  clear Hw.
  inv_step H as u5 w9 Hx. destruct u5.
  apply calculate_planet_flux_inv in Hx as (tp & pr & _ & _ & _ & Hw).
  assert (T9 : table w9 =
            set_column "planetThermal" (therm_planet (planetThermalModel (allModels w8)))
              (set_column "planetReflection" pr (table w8))).
  { rewrite Hw, !table_with_column. reflexivity. }
  rewrite T8 in T9. clear Hw.
  inv_step H as m' w10 Hx. apply get_models_value in Hx as [-> ->].
  unfold write_file in H. injection H as <-. cbn [allModels].
  exists d, d', ph, sp, fa, p, s, f, p', s', f'.
  split; [exact Hd|]. split; [exact Hd'|]. split; [done|]. split; [done|]. split; [done|].
  rewrite T9. split.
  - rewrite !get_set_column_ne by done. apply get_set_column_eq.
  - rewrite !get_set_column_ne by done. apply get_set_column_eq.
Qed.

(** With the spectra of the planet read and the coverage of the star phase
    found, a missing coverage of the star phase facing the planet ends the
    exposure. *)
Lemma exposure_second_key_missing Params dict index w rows rows' d :
  files w !! reflection_path Params (planetPhase (update_phases Params index (allModels w)))
    = Some (ReflectionFile rows) ->
  files w !! thermal_path Params (planetPhase (update_phases Params index (allModels w)))
    = Some (ThermalFile rows') ->
  dict !! tempPhase (update_phases Params index (allModels w)) = Some d ->
  dict !! tempPhaseFacingPlanet (update_phases Params index (allModels w)) = None ->
  fst (exposure Params dict index w) =
    inl (KeyError (Py.format_3f
           (tempPhaseFacingPlanet (update_phases Params index (allModels w))))) /\
  files (snd (exposure Params dict index w)) = files w.
Proof.
  intros Hrefl Htherm Hd Hnone. unfold exposure.
  rewrite (bind_inr _ _ _ _ _ (modify_run _ _)).
  revert Hrefl Htherm Hd Hnone.
  generalize (update_phases Params index (allModels w)). intros m Hrefl Htherm Hd Hnone.
  rewrite (bind_inr _ _ (with_models m w) m (with_models m w)) by reflexivity.
  rewrite (bind_inr _ _ _ _ _ (read_reflection_ok _ (with_models m w) rows Hrefl)).
  rewrite (bind_inr _ _ _ _ _ (modify_run _ _)).
  erewrite bind_inr by (apply read_thermal_ok; exact Htherm).
  rewrite (bind_inr _ _ _ _ _ (modify_run _ _)).
  erewrite bind_inr by (apply coverage_at_ok; exact Hd).
  erewrite bind_inl by (apply coverage_at_missing; exact Hnone).
  done.
Qed.

(** C8.  In every exposure of a run with [total_images = T], the star phase
    facing the planet is [(180 - starPhase + planetPhase) % 360], reset to 0
    when that value is exactly [T + 1] and left as it is otherwise, and the
    reset comes before the coverage lookup: the exposure looks the coverage
    towards the planet up under the key computed from the value after the
    reset.  An exposure that goes through has found this key in the table
    and has filled [sumfluxTowardsPlanet] from the record under it; with the
    spectra of the planet and the coverage of the star phase there, a table
    without this key ends the exposure with [KeyError] for this key. *)
Theorem wrap_before_lookup (Params : ParamModel) (dict : gmap Qc Coverage)
    (index : nat) (w : World) :
  let raw := Py.mod_ (phase1 Params + delta_phase_planet Params * Py.of_nat index) (num 360) in
  let star := Py.mod_ (delta_phase_star Params * Py.of_nat index) (num 360) in
  let facing := Py.mod_ (num 180 - star + raw) (num 360) in
  let wrapped := if decide (facing = Py.of_nat (total_images Params + 1))
                 then num 0 else facing in
  let key := if decide (Py.round wrapped 3 = num 360) then num 0 else Py.round wrapped 3 in
  let m := update_phases Params index (allModels w) in
  let out := exposure Params dict index w in
  starPhaseFacingPlanet m = wrapped /\
  starPhaseFacingPlanet (allModels (snd out)) = wrapped /\
  (forall w', out = (inr tt, w') ->
     exists d' p' s' f' ph sp fa,
       dict !! key = Some d' /\
       d' !! "phot" = Some p' /\ d' !! "spot" = Some s' /\ d' !! "fac" = Some f' /\
       get_column "photflux" (table w) = Some ph /\
       get_column "spotflux" (table w) = Some sp /\
       get_column "facflux" (table w) = Some fa /\
       get_column "sumfluxTowardsPlanet" (table w') =
         Some (add (add (scale ph p') (scale sp s')) (scale fa f'))) /\
  (forall rows rows' d,
     files w !! reflection_path Params (planetPhase m) = Some (ReflectionFile rows) ->
     files w !! thermal_path Params (planetPhase m) = Some (ThermalFile rows') ->
     dict !! tempPhase m = Some d ->
     dict !! key = None ->
     fst out = inl (KeyError (Py.format_3f key)) /\ files (snd out) = files w).
Proof.
  intros raw star facing wrapped key m out.
  destruct (boundary_wrap Params dict index w) as (Hm & Hkey & Hend).
  fold raw star facing wrapped key m out in Hm, Hkey, Hend.
  split; [exact Hm|]. split; [exact Hend|]. split.
  - intros w' E. subst out.
    apply exposure_ok_lookup in E
      as (d & d' & ph & sp & fa & p & s & f & p' & s' & f' &
          _ & Hd' & _ & (Hp' & Hs' & Hf') & (Hph & Hsp & Hfa) & _ & Hcol).
    fold m in Hd'. rewrite Hkey in Hd'.
    exists d', p', s', f', ph, sp, fa. done.
  - intros rows rows' d Hrefl Htherm Hd Hnone. rewrite <- Hkey in Hnone |- *.
    subst out m. by apply (exposure_second_key_missing Params dict index w rows rows' d).
Qed.

Lemma wrap_before_lookup_witness :
  wrap_dict !! num 3 = None /\
  fst (exposure wrap_params wrap_dict 0 wrap_loaded) = inr tt /\
  starPhaseFacingPlanet (allModels (snd (exposure wrap_params wrap_dict 0 wrap_loaded))) = num 0 /\
  exists d',
    wrap_dict !! num 0 = Some d' /\
    get_column "sumfluxTowardsPlanet" (table (snd (exposure wrap_params wrap_dict 0 wrap_loaded)))
      = Some (add (add (scale [num 20; num 40] (tenths 6)) (scale [num 2; num 4] (tenths 2)))
                (scale [num 60; num 80] (tenths 2))).
Proof.
  split; [vm_compute; reflexivity|].
  destruct (wrap_before_lookup wrap_params wrap_dict 0 wrap_loaded) as (_ & Hend & Hok & _).
  destruct (exposure wrap_params wrap_dict 0 wrap_loaded) as [[e|[]] w'] eqn:E.
  { vm_compute in E. discriminate E. }
  split; [reflexivity|]. split.
  - rewrite Hend. vm_compute. apply Qc_is_canon. reflexivity.
  - destruct (Hok w' eq_refl)
      as (d' & p' & s' & f' & ph & sp & fa & Hd' & Hp' & Hs' & Hf' & Hph & Hsp & Hfa & Hcol).
    assert (Hkey : wrap_dict !! num 0 = Some (coverage 6 2 2)) by (vm_compute; reflexivity).
    exists (coverage 6 2 2). split; [exact Hkey|].
    cbn [snd]. rewrite Hcol.
    assert (d' = coverage 6 2 2) as ->.
    { vm_compute in Hd'. vm_compute. congruence. }
    vm_compute in Hp', Hs', Hf', Hph, Hsp, Hfa.
    injection Hp' as <-. injection Hs' as <-. injection Hf' as <-.
    injection Hph as <-. injection Hsp as <-. injection Hfa as <-.
    vm_compute. reflexivity.
Defined.

End ExposureFacts.

(** ** More on the analyzer *)

Module AnalyzerFacts.

Import Analysis AnalysisFacts Examples Cases.

(** *** [unique_phase] *)

Lemma nondecreasing_dec (l : list Qc) : {nondecreasing l} + {~ nondecreasing l}.
Proof.
  induction l as [|x [|y rest] IH]; [by left | by left |].
  destruct (Qclt_le_dec y x) as [Hlt|Hle].
  - right. intros [Hle _]. by apply Qclt_not_le in Hlt.
  - destruct IH as [IH|IH]; [left; by split | right; by intros [_ H]].
Qed.

(** X1.  The loop that builds [unique_phase] never changes a phase: on a
    phase column with at least one row that never steps down the constructor
    gets through with [unique_phase] equal to [phase], and on a column that
    steps down somewhere it raises [UnitConversionError]. *)
Theorem unique_phase_unchanged_or_error (phase_deg : list Qc) :
  phase_deg <> [] ->
  (nondecreasing phase_deg /\ compute_unique_phase phase_deg = Some (inr phase_deg)) \/
  (~ nondecreasing phase_deg /\
   compute_unique_phase phase_deg = Some (inl UnitConversionError)).
Proof.
  intros Hne. destruct (nondecreasing_dec phase_deg) as [H|H].
  - left. split; [done|]. by apply compute_unique_phase_nondecreasing.
  - right. split; [done|]. by apply compute_unique_phase_descent.
Qed.

Lemma unique_phase_unchanged_or_error_witness :
  (nondecreasing [num 0; num 10; num 10] /\
   compute_unique_phase [num 0; num 10; num 10] = Some (inr [num 0; num 10; num 10])) \/
  (~ nondecreasing [num 0; num 10; num 10] /\
   compute_unique_phase [num 0; num 10; num 10] = Some (inl UnitConversionError)).
Proof. apply (unique_phase_unchanged_or_error [num 0; num 10; num 10]). discriminate. Defined.

(** *** Slices and indices *)

Lemma slice_clipped {A} (l : list A) (M : nat) :
  (length l <= M)%nat -> PySeq.slice 0 (Z.of_nat M) l = l.
Proof.
  intros H. unfold PySeq.slice, PySeq.clamp.
  rewrite (proj2 (Z.ltb_ge 0 0)) by lia.
  rewrite (proj2 (Z.ltb_ge _ 0)) by lia.
  rewrite Nat2Z.id. simpl. rewrite Nat.min_r by lia. rewrite Nat.sub_0_r.
  apply firstn_all.
Qed.

Lemma slice_single {A} (l : list A) (i : nat) (x : A) :
  l !! i = Some x -> PySeq.slice (Z.of_nat i) (Z.of_nat i + 1) l = [x].
Proof.
  intros H. pose proof (lookup_lt_Some _ _ _ H) as Hlt.
  unfold PySeq.slice, PySeq.clamp.
  rewrite (proj2 (Z.ltb_ge _ 0)) by lia.
  rewrite (proj2 (Z.ltb_ge _ 0)) by lia.
  rewrite Nat2Z.id. replace (Z.to_nat (Z.of_nat i + 1)) with (S i) by lia.
  rewrite !Nat.min_l by lia. replace (S i - i)%nat with 1%nat by lia.
  rewrite (drop_S _ _ _ H). reflexivity.
Qed.

Lemma lookup_nth {A} (l : list A) (i : nat) (d : A) :
  (i < length l)%nat -> l !! i = Some (nth i l d).
Proof.
  intros H. destruct (lookup_lt_is_Some_2 l i H) as [x Hx].
  rewrite Hx. f_equal. symmetry. by apply nth_lookup_Some.
Qed.

Lemma index_nat {A} (l : list A) (k : nat) :
  (k < length l)%nat -> PySeq.index l (Z.of_nat k) = l !! k.
Proof.
  intros H. unfold PySeq.index.
  rewrite (proj2 (andb_true_iff _ _)); [by rewrite Nat2Z.id|].
  split; [apply Z.leb_le | apply Z.ltb_lt]; lia.
Qed.

Lemma index_out_of_range {A} (l : list A) (k : Z) :
  (k < - Z.of_nat (length l) \/ Z.of_nat (length l) <= k)%Z -> PySeq.index l k = None.
Proof.
  intros H. unfold PySeq.index.
  destruct (andb _ _) eqn:E1.
  { apply andb_true_iff in E1 as [E1 E2]. apply Z.leb_le in E1. apply Z.ltb_lt in E2. lia. }
  clear E1. destruct (andb _ _) eqn:E2; [|done].
  apply andb_true_iff in E2 as [E2 E3]. apply Z.leb_le in E2. apply Z.ltb_lt in E3. lia.
Qed.

Lemma index_map {A B} (f : A -> B) (l : list A) (k : Z) :
  PySeq.index (map f l) k = f <$> PySeq.index l k.
Proof.
  unfold PySeq.index. rewrite length_map.
  destruct (andb _ _); [apply list_lookup_fmap|].
  destruct (andb _ _); [apply list_lookup_fmap | done].
Qed.

Lemma getattr_rectangular (a : PhaseAnalyzer) (source : string) (arr : list (list R)) :
  rectangular a -> getattr a source = inr arr ->
  Forall (fun row => length row = N_images a) arr.
Proof.
  unfold rectangular, getattr. rewrite !Forall_cons.
  intros (H1 & H2 & H3 & H4 & H5 & _) H.
  repeat case_decide; try case_bool_decide; try discriminate H;
    injection H as <-; assumption.
Qed.

Local Open Scope R_scope.

Lemma sum_squares_replicate (n : nat) (s : R) :
  sum (map (fun v => v ^ 2) (replicate n s)) = INR n * s ^ 2.
Proof.
  induction n as [|n IH]; [simpl; unfold sum; simpl; lra|].
  rewrite S_INR. cbn [replicate map]. unfold sum in *. cbn [fold_right].
  rewrite IH. lra.
Qed.

(** *** [combine] *)

(** X2.  Exposures of equal noise: when each wavelength has the same noise
    [s >= 0] in all exposures, combining [N >= 1] of them gives [s / sqrt N],
    the standard error of the mean. *)
Theorem combine_noise_equal_exposures (normal : list R -> list R) (a : PhaseAnalyzer)
    (N : nat) (flag : bool) (sigma : list R) :
  (1 <= N)%nat -> (N <= N_images a)%nat ->
  noise a = map (replicate (N_images a)) sigma ->
  Forall (fun s => 0 <= s) sigma ->
  combine normal a "noise" (0%Z, Z.of_nat N) flag =
    inr (map (fun s => s / sqrt (INR N)) sigma).
Proof.
  intros HN HNa Hnoise Hpos.
  unfold combine. rewrite decide_True by done.
  rewrite slice_prefix by (rewrite length_seq; lia).
  rewrite length_take, length_seq, Nat.min_l by lia.
  f_equal. rewrite Hnoise, !map_map. apply map_ext_in. intros s Hs.
  rewrite Forall_forall in Hpos. apply list_elem_of_In in Hs. specialize (Hpos s Hs).
  rewrite slice_prefix by (rewrite length_replicate; lia).
  rewrite take_replicate, Nat.min_l by lia.
  rewrite sum_squares_replicate.
  assert (0 < INR N) by (apply lt_0_INR; lia).
  replace (INR N * s ^ 2 / INR N ^ 2) with (s ^ 2 / INR N) by (field; lra).
  rewrite sqrt_div_alt by lra. rewrite sqrt_pow2 by lra. reflexivity.
Qed.

Lemma combine_noise_equal_exposures_witness :
  combine still steady "noise" (0%Z, 2%Z) true = inr [3 / sqrt (INR 2); 6 / sqrt (INR 2)].
Proof.
  apply (combine_noise_equal_exposures still steady 2 true [3; 6]);
    [lia | simpl; lia | reflexivity | repeat constructor; lra].
Defined.

(** X3.  One exposure on its own: [combine(source, (i, i+1))] returns the
    spectrum of exposure [i] as it is, and for the noise the absolute value
    of the noise of exposure [i]. *)
Theorem combine_single_exposure (normal : list R -> list R) (a : PhaseAnalyzer)
    (source : string) (arr : list (list R)) (i : nat) (flag : bool) :
  rectangular a -> (i < N_images a)%nat ->
  combine normal a "noise" (Z.of_nat i, (Z.of_nat i + 1)%Z) flag =
    inr (map (fun row => Rabs (nth i row 0)) (noise a)) /\
  (source <> "noise" -> getattr a source = inr arr ->
   combine normal a source (Z.of_nat i, (Z.of_nat i + 1)%Z) false =
     inr (map (fun row => nth i row 0) arr)).
Proof.
  intros Hrect Hi. split.
  - unfold combine. rewrite decide_True by done.
    rewrite (slice_single (seq 0 (N_images a)) i i) by (by apply lookup_seq_lt).
    f_equal. rewrite map_map. apply map_ext_in. intros row Hrow.
    assert (Hlen : length row = N_images a).
    { assert (Hn := getattr_rectangular a "noise" (noise a) Hrect eq_refl).
      rewrite Forall_forall in Hn. apply Hn. by apply list_elem_of_In. }
    rewrite (slice_single row i (nth i row 0)) by (apply lookup_nth; lia).
    unfold sum. simpl. rewrite <- sqrt_Rsqr_abs. f_equal. unfold Rsqr. field.
  - intros Hne Hsrc. unfold combine. rewrite decide_False by done. rewrite Hsrc.
    f_equal. rewrite map_map. apply map_ext_in. intros row Hrow.
    assert (Hlen : length row = N_images a).
    { assert (Hn := getattr_rectangular a source arr Hrect Hsrc).
      rewrite Forall_forall in Hn. apply Hn. by apply list_elem_of_In. }
    rewrite (slice_single row i (nth i row 0)) by (apply lookup_nth; lia).
    unfold mean, sum. simpl. field.
Qed.

Lemma combine_single_exposure_witness :
  combine still analyzer "noise" (1%Z, 2%Z) true = inr [Rabs 4; Rabs 8] /\
  combine still analyzer "star" (1%Z, 2%Z) false = inr [4; 6].
Proof.
  assert (Hrect : rectangular analyzer) by (repeat constructor).
  destruct (combine_single_exposure still analyzer "star" (star analyzer) 1 true Hrect)
    as [Hn Hs]; [simpl; lia|].
  split; [exact Hn|]. apply Hs; [discriminate | reflexivity].
Defined.

(** X4.  The end of the range is clipped: with [M] at or beyond the number
    of exposures, [combine(source, (0, M))] is the combination of all
    exposures, for every source and with or without noise. *)
Theorem combine_stop_clipped (normal : list R -> list R) (a : PhaseAnalyzer)
    (source : string) (M : nat) (flag : bool) :
  rectangular a -> (N_images a <= M)%nat ->
  combine normal a source (0%Z, Z.of_nat M) flag =
  combine normal a source (0%Z, Z.of_nat (N_images a)) flag.
Proof.
  intros Hrect HM.
  assert (Hrows : forall src arr, getattr a src = inr arr ->
            map (PySeq.slice 0 (Z.of_nat M)) arr =
            map (PySeq.slice 0 (Z.of_nat (N_images a))) arr).
  { intros src arr Hsrc. apply map_ext_in. intros row Hrow.
    assert (Hn := getattr_rectangular a src arr Hrect Hsrc).
    rewrite Forall_forall in Hn. apply list_elem_of_In in Hrow.
    rewrite !slice_clipped by (rewrite (Hn row Hrow); lia). reflexivity. }
  unfold combine. case_decide.
  - rewrite !slice_clipped by (rewrite length_seq; lia).
    rewrite <- !(map_map (PySeq.slice _ _) (map (fun v => v ^ 2))).
    by rewrite (Hrows "noise" (noise a) eq_refl).
  - destruct (getattr a source) as [e|arr] eqn:Hsrc; [done|].
    rewrite (Hrows source arr Hsrc), (Hrows "noise" (noise a) eq_refl). reflexivity.
Qed.

Lemma combine_stop_clipped_witness :
  combine still analyzer "total" (0%Z, 5%Z) true = combine still analyzer "total" (0%Z, 2%Z) true.
Proof.
  apply (combine_stop_clipped still analyzer "total" 5 true);
    [repeat constructor | simpl; lia].
Defined.

(** *** [lightcurve] *)

Lemma maximum_spec (y : list R) (top : R) :
  maximum y = Some top -> In top y /\ Forall (fun v => v <= top) y.
Proof.
  destruct y as [|x rest]; [done|]. simpl. intros [= <-].
  revert x. induction rest as [|z rest IH]; intros x; simpl.
  - split; [by left|]. constructor; [lra | constructor].
  - destruct (IH (Rmax x z)) as [Hin Hall].
    apply Forall_cons in Hall as [Hm Hall].
    pose proof (Rmax_l x z). pose proof (Rmax_r x z).
    split.
    + destruct Hin as [Hin|Hin]; [|by right; right].
      destruct (Rle_dec x z) as [Hle|Hgt].
      * right; left. rewrite Rmax_right in Hin by lra. rewrite Rmax_right by lra. exact Hin.
      * left. rewrite Rmax_left in Hin by lra. rewrite Rmax_left by lra. exact Hin.
    + constructor; [lra|]. constructor; [lra | done].
Qed.

(** X5.  Normalised to its maximum, with noise off and a positive maximum,
    the lightcurve of a spectral bin is dimensionless, never above 1, and
    equal to 1 at the exposure of the maximum. *)
Theorem lightcurve_max_normalized (normal : list R -> list R) (a : PhaseAnalyzer)
    (source : string) (arr : list (list R)) (k : Z) (y : list R) (top : R) :
  getattr a source = inr arr ->
  PySeq.index arr k = Some y ->
  maximum y = Some top ->
  0 < top ->
  exists s,
    lightcurve normal a source (PixelInt k) (NormStr "max") false = inr s /\
    series_unit s = u_dimensionless /\
    values s = map (fun v => v / top) y /\
    Forall (fun v => v <= 1) (values s) /\
    In 1 (values s).
Proof.
  intros Hsrc Hrow Hmax Htop. unfold lightcurve. rewrite Hsrc, Hrow.
  rewrite decide_True by done. rewrite Hmax.
  eexists. split; [reflexivity|]. simpl. repeat split.
  - destruct (maximum_spec y top Hmax) as [_ Hall].
    rewrite Forall_forall in Hall. apply Forall_forall. intros v Hv.
    apply list_elem_of_In, in_map_iff in Hv as (x & <- & Hx).
    apply list_elem_of_In in Hx. specialize (Hall x Hx).
    apply (Rmult_le_reg_r top); [done|]. unfold Rdiv. rewrite Rmult_assoc, Rinv_l by lra. lra.
  - destruct (maximum_spec y top Hmax) as [Hin _].
    apply in_map_iff. exists top. split; [field; lra | done].
Qed.

Lemma lightcurve_max_normalized_witness :
  exists s,
    lightcurve still analyzer "star" (PixelInt 1) (NormStr "max") false = inr s /\
    series_unit s = u_dimensionless /\
    values s = map (fun v => v / Rmax 3 6) [3; 6] /\
    Forall (fun v => v <= 1) (values s) /\
    In 1 (values s).
Proof.
  apply (lightcurve_max_normalized still analyzer "star" (star analyzer) 1 [3; 6] (Rmax 3 6));
    try reflexivity.
  apply Rlt_le_trans with 3; [lra | apply Rmax_l].
Defined.

Lemma mean_axis0_single (n : nat) (row : list R) :
  length row = n -> mean_axis0 n [row] = row.
Proof.
  intros <-. unfold mean_axis0.
  apply (nth_ext _ _ 0 0); [by rewrite length_map, length_seq|].
  intros j Hj. rewrite length_map, length_seq in Hj.
  rewrite (nth_indep _ 0 (mean (map (fun r => nth 0%nat r 0) [row]))) by
    (by rewrite length_map, length_seq).
  rewrite (map_nth (fun j => mean (map (fun r => nth j r 0) [row])) (seq 0 (length row)) 0%nat j).
  rewrite seq_nth by done. unfold mean, sum. simpl. field.
Qed.

(** X6.  A range of one spectral bin is that bin: with noise off,
    [lightcurve(source, (k, k+1), normalize)] is
    [lightcurve(source, k, normalize)], whatever the normalisation. *)
Theorem lightcurve_range_of_one (normal : list R -> list R) (a : PhaseAnalyzer)
    (source : string) (arr : list (list R)) (k : nat) (normalize : Normalize) :
  rectangular a -> getattr a source = inr arr -> (k < length arr)%nat ->
  lightcurve normal a source (PixelRange (Z.of_nat k) (Z.of_nat k + 1)) normalize false =
  lightcurve normal a source (PixelInt (Z.of_nat k)) normalize false.
Proof.
  intros Hrect Hsrc Hk. unfold lightcurve. rewrite Hsrc.
  destruct (lookup_lt_is_Some_2 arr k Hk) as [row Hrow].
  rewrite (slice_single arr k row Hrow), index_nat, Hrow by done.
  rewrite mean_axis0_single; [done|].
  assert (Hn := getattr_rectangular a source arr Hrect Hsrc).
  rewrite Forall_forall in Hn. apply Hn. by apply list_elem_of_lookup_2 in Hrow.
Qed.

Lemma lightcurve_range_of_one_witness :
  lightcurve still analyzer "total" (PixelRange 1 2) (NormStr "max") false =
  lightcurve still analyzer "total" (PixelInt 1) (NormStr "max") false.
Proof.
  apply (lightcurve_range_of_one still analyzer "total" (total analyzer) 1 (NormStr "max"));
    [repeat constructor | reflexivity | simpl; lia].
Defined.

(** X7.  Indices out of range: a spectral bin outside the array, whether
    noise is asked for or not, and an exposure to normalise to that is
    outside the row both end the call with [IndexError]. *)
Theorem lightcurve_out_of_range (normal : list R -> list R) (a : PhaseAnalyzer)
    (source : string) (arr : list (list R)) :
  getattr a source = inr arr ->
  (forall k normalize flag,
     (k < - Z.of_nat (length arr) \/ Z.of_nat (length arr) <= k)%Z ->
     lightcurve normal a source (PixelInt k) normalize flag = inl IndexError) /\
  (forall k y n,
     PySeq.index arr k = Some y ->
     (n < - Z.of_nat (length y) \/ Z.of_nat (length y) <= n)%Z ->
     lightcurve normal a source (PixelInt k) (NormInt n) false = inl IndexError).
Proof.
  intros Hsrc. split.
  - intros k normalize flag Hk. unfold lightcurve. rewrite Hsrc.
    by rewrite (index_out_of_range arr k Hk).
  - intros k y n Hrow Hn. unfold lightcurve. rewrite Hsrc, Hrow.
    by rewrite (index_out_of_range y n Hn).
Qed.

Lemma lightcurve_out_of_range_witness :
  lightcurve still analyzer "star" (PixelInt 2) (NormStr "none") true = inl IndexError /\
  lightcurve still analyzer "star" (PixelInt (-1)) (NormInt 2) false = inl IndexError.
Proof.
  destruct (lightcurve_out_of_range still analyzer "star" (star analyzer) eq_refl) as [H1 H2].
  split.
  - apply H1. simpl. lia.
  - apply (H2 (-1)%Z [3; 6] 2%Z); [reflexivity | simpl; lia].
Defined.

(** X8.  A lightcurve normalised to an exposure does not depend on the scale
    of the flux: multiplying the source array by a constant other than zero
    gives the same series, whose value at the reference exposure is 1.  The
    reference exposure may be counted from the end. *)
Theorem lightcurve_scale_free (normal : list R -> list R) (a a' : PhaseAnalyzer)
    (source : string) (arr : list (list R)) (k n : Z) (y : list R) (yn c : R) :
  getattr a source = inr arr ->
  getattr a' source = inr (map (map (Rmult c)) arr) ->
  PySeq.index arr k = Some y ->
  PySeq.index y n = Some yn ->
  yn <> 0 -> c <> 0 ->
  exists s,
    lightcurve normal a source (PixelInt k) (NormInt n) false = inr s /\
    lightcurve normal a' source (PixelInt k) (NormInt n) false = inr s /\
    PySeq.index (values s) n = Some 1.
Proof.
  intros Hsrc Hsrc' Hrow Hn Hyn Hc. unfold lightcurve.
  rewrite Hsrc, Hsrc', index_map, Hrow. simpl. rewrite index_map, Hn. simpl.
  eexists. split; [reflexivity|]. split.
  - f_equal. unfold to_float. f_equal. rewrite map_map. apply map_ext. intros v. by field.
  - simpl. rewrite index_map, Hn. simpl. f_equal. by field.
Qed.

Lemma lightcurve_scale_free_witness :
  exists s,
    lightcurve still analyzer "star" (PixelInt 0) (NormInt (-1)) false = inr s /\
    lightcurve still rescaled "star" (PixelInt 0) (NormInt (-1)) false = inr s /\
    PySeq.index (values s) (-1) = Some 1.
Proof.
  apply (lightcurve_scale_free still analyzer rescaled "star" (star analyzer) 0 (-1) [2; 4] 4 2);
    try reflexivity; lra.
Defined.

End AnalyzerFacts.

(** ** More on the header *)

Module HeaderFacts.

Import Read ReadFacts Examples Cases.

Lemma call_inr sig args kwargs vs :
  call sig args kwargs = inr vs -> bind_parameters sig args kwargs = inr vs.
Proof. unfold call. by case_bool_decide. Qed.

(** X9.  A header never comes into being without a seed: if the call of the
    class succeeds, [seed] was passed, as the fourth positional argument or
    by name, and the header holds the value passed. *)
Theorem Header_holds_given_seed (args : list PyVal) (kwargs : gmap string PyVal) (h : Header) :
  Header_init args kwargs = inr h ->
  (exists v, args !! 3%nat = Some v /\ seed h = v) \/
  ((length args <= 3)%nat /\ exists v, kwargs !! "seed" = Some v /\ seed h = v).
Proof.
  unfold Header_init. intros H.
  destruct (call Header_signature args kwargs) as [e|vs] eqn:Hc; [done|].
  apply call_inr in Hc. unfold Header_signature in Hc.
  destruct args as [|a1 [|a2 [|a3 [|a4 [|a5 [|a6 args]]]]]]; cbn [bind_parameters] in Hc;
    repeat (match type of Hc with
            | context [match ?m !! ?k with _ => _ end] =>
                let E := fresh "E" in destruct (m !! k) eqn:E
            end; cbn [bind_parameters] in Hc; try discriminate Hc);
    injection Hc as <-; injection H as <-; cbn [seed length lookup];
    first [ left; eexists; split; reflexivity
          | right; split; [lia | eexists; split; [eassumption || reflexivity | reflexivity]] ].
Qed.

Lemma Header_holds_given_seed_witness :
  (exists v, @nil PyVal !! 3%nat = Some v /\ seed seeded_header = v) \/
  ((length (@nil PyVal) <= 3)%nat /\
   exists v, seeded !! "seed" = Some v /\ seed seeded_header = v).
Proof.
  apply (Header_holds_given_seed [] seeded seeded_header). vm_compute. reflexivity.
Defined.

Lemma Header_unknown_keyword_aux (args : list PyVal) (kwargs : gmap string PyVal)
    (k : string) (v : PyVal) :
  kwargs !! k = Some v ->
  k ∉ ["data_path"; "teff_min"; "teff_max"; "seed"; "desc"] ->
  exists msg, Header_init args kwargs = inl (TypeError msg).
Proof.
  intros Hk Hnot. unfold Header_init, call.
  rewrite bool_decide_eq_false_2; [eauto|].
  intros Hsub. apply Hnot. apply elem_of_dom_2 in Hk. apply Hsub in Hk.
  simpl in Hk. set_solver.
Qed.

(** X10.  A keyword that is not one of the five parameters is refused: the
    call raises [TypeError], whatever else is passed.  The calls of [Header]
    in the example scripts, which pass [spec_grid] and [verbose], are of
    this kind. *)
Theorem Header_unknown_keyword (args : list PyVal) (kwargs : gmap string PyVal)
    (k : string) (v : PyVal) :
  kwargs !! k = Some v ->
  k ∉ ["data_path"; "teff_min"; "teff_max"; "seed"; "desc"] ->
  exists msg, Header_init args kwargs = inl (TypeError msg).
Proof. apply Header_unknown_keyword_aux. Qed.

Lemma Header_unknown_keyword_witness :
  exists msg, Header_init [] example_call = inl (TypeError msg).
Proof.
  apply (Header_unknown_keyword [] example_call "spec_grid" (PStr "VSPECGridParameters"));
    [reflexivity|].
  rewrite !elem_of_cons, elem_of_nil. intros [H|[H|[H|[H|[H|H]]]]]; done.
Defined.

(** *** [_from_dict] *)

(** X11.  The factory builds a header from a mapping that holds the three
    required keys with values [Path] and [u.Quantity] take: the seed is
    [None] when the key is missing or null and the integer itself when it is
    one, the description is [None] when missing or null and the [str] of a
    string, an integer or a boolean.  It never fails for want of a seed. *)
Theorem from_dict_builds_header (quantity_error : string -> option Exn)
    (d : gmap string PyVal) (p tmin tmax pv qmin qmax : PyVal) :
  d !! "data_path" = Some p -> py_Path p = inr pv ->
  d !! "teff_min" = Some tmin -> py_Quantity quantity_error tmin = inr qmin ->
  d !! "teff_max" = Some tmax -> py_Quantity quantity_error tmax = inr qmax ->
  (d !! "seed" = None \/ d !! "seed" = Some PNone \/ exists z, d !! "seed" = Some (PInt z)) ->
  (d !! "desc" = None \/ d !! "desc" = Some PNone \/ (exists t, d !! "desc" = Some (PStr t)) \/
   (exists z, d !! "desc" = Some (PInt z)) \/ exists b, d !! "desc" = Some (PBool b)) ->
  _from_dict quantity_error d =
    inr {| data_path := pv; teff_min := qmin; teff_max := qmax;
           seed := match d !! "seed" with Some (PInt z) => PInt z | _ => PNone end;
           desc := match d !! "desc" with
                   | None | Some PNone => PNone
                   | Some v => PStr (py_str v)
                   end |}.
Proof.
  intros Hp Hpv Hmin Hqmin Hmax Hqmax Hseed Hdesc. unfold _from_dict, getitem, get.
  rewrite Hp, Hpv, Hmin, Hqmin, Hmax, Hqmax.
  destruct Hseed as [->|[->|[z ->]]]; cbn -[Header_init py_str];
    destruct Hdesc as [->|[->|[[t ->]|[[z' ->]|[b ->]]]]]; cbn -[Header_init py_str];
    vm_compute; reflexivity.
Qed.

Lemma from_dict_builds_header_witness :
  _from_dict reads_kelvin header_section =
    inr {| data_path := PPath (PStr "out"); teff_min := PQuantity (PStr "2300 K");
           teff_max := PQuantity (PStr "3900 K"); seed := PInt 24; desc := PStr "7" |}.
Proof.
  apply (from_dict_builds_header reads_kelvin header_section
           (PStr "out") (PStr "2300 K") (PStr "3900 K"));
    try reflexivity.
  - right. right. exists 24%Z. reflexivity.
  - right. right. right. left. exists 7%Z. reflexivity.
Defined.

(** X12.  The keys are read and converted one after the other.  A mapping
    without [data_path] ends the factory with [KeyError] for this key; with
    a [data_path] that [Path] takes, one without [teff_min] ends it with
    [KeyError] for [teff_min], and with a [teff_min] that [u.Quantity] takes
    as well, one without [teff_max] with [KeyError] for [teff_max].  A value
    that [Path] or [u.Quantity] refuses ends the factory with the exception
    of the conversion, whether the later keys are there or not. *)
Theorem from_dict_missing_key (quantity_error : string -> option Exn)
    (d : gmap string PyVal) :
  (d !! "data_path" = None -> _from_dict quantity_error d = inl (KeyError "data_path")) /\
  (forall p, d !! "data_path" = Some p ->
     (forall e, py_Path p = inl e -> _from_dict quantity_error d = inl e) /\
     (forall pv, py_Path p = inr pv ->
        (d !! "teff_min" = None -> _from_dict quantity_error d = inl (KeyError "teff_min")) /\
        (forall tmin, d !! "teff_min" = Some tmin ->
           (forall e, py_Quantity quantity_error tmin = inl e ->
              _from_dict quantity_error d = inl e) /\
           (forall qmin, py_Quantity quantity_error tmin = inr qmin ->
              (d !! "teff_max" = None ->
               _from_dict quantity_error d = inl (KeyError "teff_max")) /\
              (forall tmax e, d !! "teff_max" = Some tmax ->
                 py_Quantity quantity_error tmax = inl e ->
                 _from_dict quantity_error d = inl e))))).
Proof.
  unfold _from_dict, getitem. split.
  - by intros ->.
  - intros p ->. split.
    + by intros e ->.
    + intros pv ->. split.
      * by intros ->.
      * intros tmin ->. split.
        -- by intros e ->.
        -- intros qmin ->. split.
           ++ by intros ->.
           ++ by intros tmax e -> ->.
Qed.

Lemma from_dict_missing_key_witness :
  _from_dict reads_kelvin (delete "teff_min" (delete "teff_max" header_section)) =
    inl (KeyError "teff_min") /\
  _from_dict reads_kelvin (<["data_path" := PNone]> (delete "teff_min" header_section)) =
    inl (TypeError "expected str, bytes or os.PathLike object").
Proof.
  split.
  - destruct (from_dict_missing_key reads_kelvin
                (delete "teff_min" (delete "teff_max" header_section))) as [_ H].
    destruct (H (PStr "out") eq_refl) as [_ H'].
    destruct (H' (PPath (PStr "out")) eq_refl) as [H'' _].
    apply H''. reflexivity.
  - destruct (from_dict_missing_key reads_kelvin
                (<["data_path" := PNone]> (delete "teff_min" header_section))) as [_ H].
    destruct (H PNone eq_refl) as [H' _]. apply H'. reflexivity.
Defined.

(** X13.  The factory reads five keys and no other: a key of another name
    in the mapping changes nothing, where the same name passed to the class
    itself is refused. *)
Theorem from_dict_ignores_other_keys (quantity_error : string -> option Exn)
    (d : gmap string PyVal) (k : string) (v : PyVal) :
  k ∉ ["data_path"; "teff_min"; "teff_max"; "seed"; "desc"] ->
  _from_dict quantity_error (<[k := v]> d) = _from_dict quantity_error d /\
  exists msg, Header_init [] (<[k := v]> d) = inl (TypeError msg).
Proof.
  intros Hk. split.
  - rewrite !elem_of_cons, elem_of_nil in Hk.
    unfold _from_dict, getitem, get.
    rewrite !lookup_insert_ne by (intros ->; apply Hk; auto 10). reflexivity.
  - apply (Header_unknown_keyword_aux [] (<[k := v]> d) k v); [apply lookup_insert_eq | done].
Qed.

Lemma from_dict_ignores_other_keys_witness :
  _from_dict reads_kelvin (<["verbose" := PInt 0]> header_section) =
    _from_dict reads_kelvin header_section /\
  exists msg, Header_init [] (<["verbose" := PInt 0]> header_section) = inl (TypeError msg).
Proof.
  apply (from_dict_ignores_other_keys reads_kelvin header_section "verbose" (PInt 0)).
  rewrite !elem_of_cons, elem_of_nil. intros [H|[H|[H|[H|[H|H]]]]]; done.
Defined.

End HeaderFacts.

(** ** The epoch counts of [Parameters] *)

Module ParametersFacts.

Import ReadParameters Cases.
Local Open Scope Z_scope.

(** X14.  With a positive [phase_binning] and a number of epochs that is not
    negative, the number of planet epochs is the largest [q] with
    [q * phase_binning <= star_total_images]: it never exceeds the number of
    stellar epochs, equals it for a binning of one and is zero as soon as the
    binning exceeds it.  A binning of zero raises [ZeroDivisionError]. *)
Theorem planet_total_images_bounds (self : Parameters) :
  0 <= total_images (obs self) ->
  (0 < phase_binning (psg self) ->
   exists q, planet_total_images self = inr q /\
     q * phase_binning (psg self) <= star_total_images self
       < (q + 1) * phase_binning (psg self) /\
     0 <= q <= star_total_images self /\
     (phase_binning (psg self) = 1 -> q = star_total_images self) /\
     (star_total_images self < phase_binning (psg self) -> q = 0)) /\
  (phase_binning (psg self) = 0 -> planet_total_images self = inl ZeroDivisionError).
Proof.
  intros Hn. unfold planet_total_images, star_total_images, floordiv.
  set (n := total_images (obs self)) in *. set (b := phase_binning (psg self)).
  split.
  - intros Hb. rewrite decide_False by lia. eexists. split; [reflexivity|].
    pose proof (Z.div_mod n b ltac:(lia)) as Hdm.
    pose proof (Z.mod_pos_bound n b Hb) as Hmod.
    assert (0 <= n / b) by (apply Z.div_pos; lia).
    split; [nia|]. split; [nia|]. split.
    + intros ->. by rewrite Z.div_1_r.
    + intros Hlt. apply Z.div_small. lia.
  - intros ->. by rewrite decide_True.
Qed.

Lemma planet_total_images_bounds_witness :
  exists q, planet_total_images binned = inr q /\ q * 3 <= 10 < (q + 1) * 3.
Proof.
  destruct (planet_total_images_bounds binned) as [H _]; [simpl; lia|].
  destruct H as (q & Hq & Hb & _); [simpl; lia|].
  exists q. split; [exact Hq | exact Hb].
Defined.

End ParametersFacts.
